(** * script_parser.py: a shallow embedding and its verified properties

    The development follows [src/script_parser.py]: the Python string
    methods and the [re] operations the script uses come first, then the
    five functions of the script ([extract_episode_metadata],
    [clean_line_and_extract_page], [parse_friends_script],
    [clean_episode_title_from_dialogue], [calculate_script_statistics])
    and the pipeline of [parse_friends_script_with_metadata] after the text
    has been read from the PDF, and finally the theorems.

    Modelling conventions.
    - A Python [str] is a [list ascii]; a character is one of the code
      points U+0000..U+00FF, and the character classes below are Python's
      Unicode classes restricted to that range.
    - A Python [int] is a [Z].
    - A Python [set] of strings is a duplicate-free list in insertion order
      ([set_add]).  Python leaves the order of [list(a_set)] unspecified, so
      nothing proved below depends on that order beyond membership and
      length.
    - [None] is [None]; a dictionary with fixed keys is a record; a key
      that is only sometimes present is an [option] field.
    - A raised exception is the [None] of a function returning [option]. *)

From Stdlib Require Import List Ascii String ZArith NArith Bool Arith Lia QArith
  Sorted.
Import ListNotations.

Local Open Scope Z_scope.
Local Open Scope list_scope.

Definition str := list ascii.

(** String literals of the source are written [s "..."]. *)
Definition s (x : string) : str := list_ascii_of_string x.

Definition str_eqb (a b : str) : bool :=
  if list_eq_dec ascii_dec a b then true else false.

(** ** Characters *)

Module Chr.

Definition code (c : ascii) : N := N_of_ascii c.

Definition between (lo hi : N) (c : ascii) : bool :=
  ((lo <=? code c) && (code c <=? hi))%N.

Definition nl : ascii := ascii_of_N 10.
Definition cr : ascii := ascii_of_N 13.

(** [str.isspace], which is also [\s] of [re] on a [str] pattern. *)
Definition is_space (c : ascii) : bool :=
  between 9 13 c || between 28 32 c
  || (code c =? 133)%N || (code c =? 160)%N.

(** The line boundaries of [str.splitlines] (the pair CR LF is handled by
    [splitlines] itself). *)
Definition is_linebreak (c : ascii) : bool :=
  between 10 13 c || between 28 30 c || (code c =? 133)%N.

(** [\d] on a [str] pattern: the decimal digits. *)
Definition is_digit (c : ascii) : bool := between 48 57 c.

Definition is_upper_AZ (c : ascii) : bool := between 65 90 c.
Definition is_lower_az (c : ascii) : bool := between 97 122 c.

(** [\w] on a [str] pattern: [str.isalnum] or the underscore. *)
Definition is_word (c : ascii) : bool :=
  is_digit c || is_upper_AZ c || is_lower_az c || (code c =? 95)%N
  || (code c =? 170)%N || (code c =? 178)%N || (code c =? 179)%N
  || (code c =? 181)%N || (code c =? 185)%N || (code c =? 186)%N
  || between 188 190 c || between 192 214 c || between 216 246 c
  || between 248 255 c.

(** [str.lower] on one character; [re.IGNORECASE] folds with the same
    map. *)
Definition lower (c : ascii) : ascii :=
  if is_upper_AZ c || (between 192 222 c && negb (code c =? 215)%N)
  then ascii_of_N (code c + 32) else c.

(** The inverse image of [lower] on the characters it moves. *)
Definition upper (c : ascii) : ascii :=
  if is_lower_az c || (between 224 254 c && negb (code c =? 247)%N)
  then ascii_of_N (code c - 32) else c.

Definition eqb (a b : ascii) : bool := Ascii.eqb a b.

End Chr.

(** ** Python string methods *)

Module Py.

Fixpoint lstrip (x : str) : str :=
  match x with
  | c :: t => if Chr.is_space c then lstrip t else x
  | [] => []
  end.

Definition rstrip (x : str) : str := rev (lstrip (rev x)).

(** [x.strip()] *)
Definition strip (x : str) : str := rstrip (lstrip x).

(** [x.lower()] *)
Definition lower (x : str) : str := map Chr.lower x.

(** [x.startswith(p)] *)
Fixpoint startswith (x p : str) : bool :=
  match p, x with
  | [], _ => true
  | a :: p', b :: x' => Chr.eqb a b && startswith x' p'
  | _ :: _, [] => false
  end.

(** [x.endswith(p)] *)
Definition endswith (x p : str) : bool := startswith (rev x) (rev p).

(** [p in x] *)
Fixpoint contains (x p : str) : bool :=
  startswith x p ||
  match x with
  | [] => false
  | _ :: t => contains t p
  end.

(** [x.count(c)] for a one-character [c]. *)
Definition count (x : str) (c : ascii) : nat :=
  List.length (filter (Chr.eqb c) x).

(** [x.split(c)] for a one-character separator [c]. *)
Fixpoint split_from (c : ascii) (cur : str) (x : str) : list str :=
  match x with
  | [] => [rev cur]
  | a :: t => if Chr.eqb a c then rev cur :: split_from c [] t
              else split_from c (a :: cur) t
  end.

Definition split (x : str) (c : ascii) : list str := split_from c [] x.

(** [x.splitlines()] *)
Fixpoint splitlines_from (cur : str) (x : str) : list str :=
  match x with
  | [] => match cur with [] => [] | _ => [rev cur] end
  | a :: t =>
      if Chr.eqb a Chr.cr then
        match t with
        | b :: t' => if Chr.eqb b Chr.nl then rev cur :: splitlines_from [] t'
                     else rev cur :: splitlines_from [] t
        | [] => [rev cur]
        end
      else if Chr.is_linebreak a then rev cur :: splitlines_from [] t
      else splitlines_from (a :: cur) t
  end.

Definition splitlines (x : str) : list str := splitlines_from [] x.

(** [os.path.basename]: what follows the last slash. *)
Definition basename (path : str) : str :=
  last (split path "/"%char) [].

(** Truth value of a string and of an optional string. *)
Definition truthy (x : str) : bool :=
  match x with [] => false | _ => true end.

Definition truthy_opt (x : option str) : bool :=
  match x with Some y => truthy y | None => false end.

(** The white space that [int] skips around a number: the C white space
    and, above U+007F, the Unicode one. *)
Definition is_int_space (c : ascii) : bool :=
  Chr.between 9 13 c || (Chr.code c =? 32)%N
  || (Chr.code c =? 133)%N || (Chr.code c =? 160)%N.

Fixpoint int_lstrip (x : str) : str :=
  match x with
  | c :: t => if is_int_space c then int_lstrip t else x
  | [] => []
  end.

Definition int_strip (x : str) : str :=
  rev (int_lstrip (rev (int_lstrip x))).

(** [int(x)] on a string: surrounding white space, an optional sign, then
    decimal digits in groups separated by single underscores.  [None]
    stands for [ValueError]. *)
Fixpoint digits_value (acc : Z) (need_digit : bool) (x : str) : option Z :=
  match x with
  | [] => if need_digit then None else Some acc
  | c :: t =>
      if Chr.is_digit c
      then digits_value (10 * acc + Z.of_N (Chr.code c - 48)) false t
      else if Chr.eqb c "_"%char && negb need_digit
      then digits_value acc true t
      else None
  end.

Definition int (x : str) : option Z :=
  match int_strip x with
  | c :: t =>
      if Chr.eqb c "-"%char then option_map Z.opp (digits_value 0 true t)
      else if Chr.eqb c "+"%char then digits_value 0 true t
      else digits_value 0 true (c :: t)
  | [] => None
  end.

(** Sets of strings.  The list keeps the order of insertion, where the
    order in which Python iterates over a set is not fixed; what is said
    of a set is said of its members and their number. *)
Definition set_mem (x : str) (l : list str) : bool := existsb (str_eqb x) l.

Definition set_add (x : str) (l : list str) : list str :=
  if set_mem x l then l else l ++ [x].

Definition set_update (l : list str) (xs : list str) : list str :=
  fold_left (fun acc x => set_add x acc) xs l.

End Py.

(** ** The [re] module: a backtracking matcher

    Python's [re] explores the alternatives of a pattern in priority order
    and returns the first way to match.  The matcher below does the same in
    continuation-passing style: [exec r k st] matches [r] at the state [st]
    and hands every candidate end state to the continuation [k], in the
    order [re] would try them. *)

Module Re.

Inductive regex : Type :=
| Eps                                        (* the empty pattern *)
| Lit (c : ascii)                            (* a literal character *)
| Cls (p : ascii -> bool)                    (* a class: \d \s \S . [A-Z] *)
| Bol                                        (* ^ *)
| Eol                                        (* $ *)
| WordB                                      (* \b *)
| Seq (r1 r2 : regex)
| Alt (r1 r2 : regex)                        (* r1|r2 *)
| Rep (greedy : bool) (lo : nat) (hi : option nat) (r : regex)
| Grp (n : nat) (r : regex).                 (* the n-th capturing group *)

(** A position in the subject: the characters before it (nearest first),
    the characters from it on, and the groups captured so far. *)
Record mstate : Type := MState {
  m_pre : str;
  m_suf : str;
  m_caps : list (nat * str)
}.

Definition pos (st : mstate) : nat := List.length (m_pre st).

Definition advance (c : ascii) (t : str) (st : mstate) : mstate :=
  MState (c :: m_pre st) t (m_caps st).

(** The text consumed between the state [st0] and the later state [st]. *)
Definition consumed (st0 st : mstate) : str :=
  rev (firstn (pos st - pos st0) (m_pre st)).

Definition set_cap (n : nat) (x : str) (st : mstate) : mstate :=
  MState (m_pre st) (m_suf st) ((n, x) :: m_caps st).

Fixpoint lookup (n : nat) (caps : list (nat * str)) : option str :=
  match caps with
  | [] => None
  | (i, x) :: t => if Nat.eqb i n then Some x else lookup n t
  end.

Definition word_at (x : str) : bool :=
  match x with c :: _ => Chr.is_word c | [] => false end.

(** With [re.IGNORECASE] a literal matches up to [lower], and a class
    matches a character when it holds one of its case variants. *)
Definition lit_ok (ic : bool) (c x : ascii) : bool :=
  if ic then Chr.eqb (Chr.lower c) (Chr.lower x) else Chr.eqb c x.

Definition cls_ok (ic : bool) (p : ascii -> bool) (x : ascii) : bool :=
  if ic then p x || p (Chr.lower x) || p (Chr.upper x) else p x.

Definition below (hi : option nat) (cnt : nat) : bool :=
  match hi with Some h => Nat.ltb cnt h | None => true end.

Definition orelse (a b : option mstate) : option mstate :=
  match a with Some _ => a | None => b end.

Section Exec.

Variable ic : bool.   (* re.IGNORECASE *)

Definition one (ok : ascii -> bool) (k : mstate -> option mstate)
  (st : mstate) : option mstate :=
  match m_suf st with
  | c :: t => if ok c then k (advance c t st) else None
  | [] => None
  end.

(** The rounds of a repetition of [body]: one more round is tried before
    stopping when the repetition is greedy and the other way round when it
    is lazy; a round that consumes nothing is not repeated, which bounds
    the rounds by the length of the rest of the subject. *)
Definition rounds (body : (mstate -> option mstate) -> mstate -> option mstate)
  (greedy : bool) (lo : nat) (hi : option nat)
  (k : mstate -> option mstate) : nat -> nat -> mstate -> option mstate :=
  fix go (fuel cnt : nat) (st0 : mstate) {struct fuel} : option mstate :=
    let stop := if Nat.leb lo cnt then k st0 else None in
    match fuel with
    | O => stop
    | S fuel' =>
        let more :=
          if below hi cnt
          then body (fun st' => if Nat.ltb (pos st0) (pos st')
                                then go fuel' (S cnt) st' else None) st0
          else None in
        if greedy then orelse more stop else orelse stop more
    end.

Fixpoint exec (r : regex) (k : mstate -> option mstate) (st : mstate)
  {struct r} : option mstate :=
  match r with
  | Eps => k st
  | Lit c => one (lit_ok ic c) k st
  | Cls p => one (cls_ok ic p) k st
  | Bol => match m_pre st with [] => k st | _ => None end
  | Eol =>
      match m_suf st with
      | [] => k st
      | [c] => if Chr.eqb c Chr.nl then k st else None
      | _ => None
      end
  | WordB =>
      if xorb (word_at (m_pre st)) (word_at (m_suf st)) then k st else None
  | Seq r1 r2 => exec r1 (exec r2 k) st
  | Alt r1 r2 => orelse (exec r1 k st) (exec r2 k st)
  | Grp n r1 => exec r1 (fun st' => k (set_cap n (consumed st st') st')) st
  | Rep greedy lo hi r1 =>
      rounds (exec r1) greedy lo hi k (List.length (m_suf st)) 0%nat st
  end.

End Exec.

(** A match object: where the match starts and ends, and its groups. *)
Record match_obj : Type := Match {
  m_start : nat;
  m_end : nat;
  m_groups : list (nat * str)
}.

Definition group (n : nat) (m : match_obj) : option str :=
  lookup n (m_groups m).

Definition match_at (ic : bool) (r : regex) (pre suf : str)
  : option match_obj :=
  match exec ic r (fun st => Some st) (MState pre suf []) with
  | Some st => Some (Match (List.length pre) (pos st) (m_caps st))
  | None => None
  end.

(** [re.match(r, x)] *)
Definition rmatch (ic : bool) (r : regex) (x : str) : option match_obj :=
  match_at ic r [] x.

(** [re.search(r, x)]: the leftmost start that matches. *)
Fixpoint search_from (ic : bool) (r : regex) (pre suf : str)
  : option match_obj :=
  match match_at ic r pre suf with
  | Some m => Some m
  | None =>
      match suf with
      | [] => None
      | c :: t => search_from ic r (c :: pre) t
      end
  end.

Definition search (ic : bool) (r : regex) (x : str) : option match_obj :=
  search_from ic r [] x.

(** [re.sub(r, repl, x)] for a pattern [r] that matches no empty string
    (every pattern the script substitutes is of that kind): a match is
    replaced and the scan resumes at its end; where nothing matches, or
    only the empty string, the character is copied. *)
Fixpoint sub_from (ic : bool) (r : regex) (repl : str) (fuel : nat)
  (pre suf : str) : str :=
  match fuel with
  | O => suf
  | S fuel' =>
      match suf with
      | [] => []
      | c :: t =>
          match match_at ic r pre suf with
          | Some m =>
              let n := (m_end m - m_start m)%nat in
              match n with
              | O => c :: sub_from ic r repl fuel' (c :: pre) t
              | _ => repl ++ sub_from ic r repl fuel'
                               (rev (firstn n suf) ++ pre) (skipn n suf)
              end
          | None => c :: sub_from ic r repl fuel' (c :: pre) t
          end
      end
  end.

Definition sub (ic : bool) (r : regex) (repl : str) (x : str) : str :=
  sub_from ic r repl (List.length x) [] x.

(** Pattern syntax. *)
Definition star (r : regex) : regex := Rep true 0 None r.        (* r*  *)
Definition plus (r : regex) : regex := Rep true 1 None r.        (* r+  *)
Definition opt (r : regex) : regex := Rep true 0 (Some 1%nat) r. (* r?  *)
Definition lazy_star (r : regex) : regex := Rep false 0 None r.  (* r*? *)
Definition lazy_plus (r : regex) : regex := Rep false 1 None r.  (* r+? *)
Definition times (lo hi : nat) (r : regex) : regex :=
  Rep true lo (Some hi) r.                                       (* r{lo,hi} *)

Definition dot : regex := Cls (fun c => negb (Chr.eqb c Chr.nl)).   (* . *)
Definition digit : regex := Cls Chr.is_digit.                       (* \d *)
Definition space : regex := Cls Chr.is_space.                       (* \s *)
Definition nonspace : regex := Cls (fun c => negb (Chr.is_space c)). (* \S *)

Fixpoint seq (rs : list regex) : regex :=
  match rs with
  | [] => Eps
  | [r] => r
  | r :: t => Seq r (seq t)
  end.

(** A literal string. *)
Definition lits (x : str) : regex := seq (map Lit x).

End Re.

(** ** The patterns of the script

    Each pattern is given with its source text; [ic] is [re.IGNORECASE]. *)

Module Pat.

Import Re.

Definition chr_in (x : string) : regex :=
  Cls (fun c => existsb (Chr.eqb c) (s x)).

Definition upper_AZ : regex := Cls Chr.is_upper_AZ.   (* [A-Z] *)
Definition lower_az : regex := Cls Chr.is_lower_az.   (* [a-z] *)

(** Source: "[Ss](\d+)" *)
Definition season : regex := seq [chr_in "Ss"; Grp 1 (plus digit)].

(** Source: "[Ee]p?(\d+)" *)
Definition episode : regex :=
  seq [chr_in "Ee"; opt (Lit "p"); Grp 1 (plus digit)].

(** Source: "(?:\n|Transcribed|$)" *)
Definition credit_end : regex :=
  Alt (Lit Chr.nl) (Alt (lits (s "Transcribed")) Eol).

(** Source: "<label>:?\s*(.+?)(?:\n|Transcribed|$)" *)
Definition credit (label : string) : regex :=
  seq [lits (s label); opt (Lit ":"); star space; Grp 1 (lazy_plus dot);
       credit_end].

(** The four writer patterns, each with its source text. *)
Definition writer_patterns : list (str * regex) :=
  [ (s "Written by:?\s*(.+?)(?:\n|Transcribed|$)", credit "Written by");
    (s "Writer:?\s*(.+?)(?:\n|Transcribed|$)", credit "Writer");
    (s "Teleplay by:?\s*(.+?)(?:\n|Transcribed|$)", credit "Teleplay by");
    (s "Story by:?\s*(.+?)(?:\n|Transcribed|$)", credit "Story by") ].

(** Source: "[A-Z][a-z]+(?:\s+[A-Z][a-z]+)*" *)
Definition cap_words : regex :=
  seq [upper_AZ; plus lower_az;
       star (seq [plus space; upper_AZ; plus lower_az])].

(** Source, with W for the pattern of [cap_words]:
    "^( W (?: \s*&\s* W )* ) \s+Transcribed by:" *)
Definition transcribed : regex :=
  seq [Bol;
       Grp 1 (seq [cap_words;
                   star (seq [star space; Lit "&"; star space; cap_words])]);
       plus space; lits (s "Transcribed by:")].

(** Source: "<label>:?\s*(.+?)(?:\n|$)" *)
Definition director (label : string) : regex :=
  seq [lits (s label); opt (Lit ":"); star space; Grp 1 (lazy_plus dot);
       Alt (Lit Chr.nl) Eol].

Definition director_patterns : list regex :=
  [director "Directed by"; director "Director"].

(** Source: "Production Code:?\s*([A-Z0-9\-]+)" *)
Definition production_code : regex :=
  seq [lits (s "Production Code"); opt (Lit ":"); star space;
       Grp 1 (plus (Cls (fun c => Chr.is_upper_AZ c || Chr.is_digit c
                                  || Chr.eqb c "-")))].

(** Source: "\d{1,2}/\d{1,2}" *)
Definition page_token : regex :=
  seq [times 1 2 digit; Lit "/"; times 1 2 digit].

(** Source: "\b(\d{1,2}/\d{1,2})\b" *)
Definition page : regex := seq [WordB; Grp 1 page_token; WordB].

(** Source: "(.*?)\b(\d{1,2}/\d{1,2})\b\s*$" *)
Definition trailing_page : regex :=
  seq [Grp 1 (lazy_star dot); WordB; Grp 2 page_token; WordB; star space;
       Eol].

(** [\s*{re.escape(title)}\s*$]: [re.escape] makes every character of the
    title a literal. *)
Definition title_at_end (title : str) : regex :=
  seq [star space; lits title; star space; Eol].

(** Source: "https?://\S+" *)
Definition url : regex :=
  seq [lits (s "http"); opt (Lit "s"); lits (s "://"); plus nonspace].

(** [re.escape(title)] with each escaped blank replaced by [\s+]. *)
Definition flexible (title : str) : regex :=
  seq (map (fun c => if Chr.eqb c " " then plus space else Lit c) title).

(** Source: "\s*<flexible title>\s*" *)
Definition title_anywhere (title : str) : regex :=
  seq [star space; flexible title; star space].

(** Source: "\s+" *)
Definition spaces : regex := plus space.

(** Source: "\d+/\d+" *)
Definition fraction : regex := seq [plus digit; Lit "/"; plus digit].

(** Source: "^\d{1,2}/\d{1,2}/\d{2,4}" *)
Definition date : regex :=
  seq [Bol; times 1 2 digit; Lit "/"; times 1 2 digit; Lit "/";
       times 2 4 digit].

(** Source: "\[Scene:\s*(.*?)\]" *)
Definition scene_heading : regex :=
  seq [lits (s "[Scene:"); star space; Grp 1 (lazy_star dot); Lit "]"].

(** Source, spaced out: "^( [A-Z][a-z]+ ) : \s* ( .* )" *)
Definition speaker : regex :=
  seq [Bol; Grp 1 (seq [upper_AZ; plus lower_az]); Lit ":"; star space;
       Grp 2 (star dot)].

End Pat.

(** ** Data *)

Record metadata : Type := Metadata {
  episode_title : option str;
  season : option Z;
  episode_number : option Z;
  series_episode_number : option Z;
  writers : list str;
  directors : list str;
  story_by : list str;
  teleplay_by : list str;
  production_code : option str;
  total_pages : option Z;
  file_name : str;           (* file_info.filename *)
  file_path : str            (* file_info.file_path *)
}.

(** A dialogue entry; [page_number] and [cleaned] are keys that are only
    sometimes present ([cleaned] is [True] when present). *)
Record entry : Type := Entry {
  speaker : str;
  line : str;
  line_number : Z;
  page_number : option str;
  cleaned : bool
}.

Record direction : Type := Direction {
  direction_text : str;      (* "direction" *)
  direction_line : Z         (* "line_number" *)
}.

Record scene : Type := Scene {
  scene_name : option str;   (* "scene" *)
  scene_number : Z;
  characters : list str;
  dialogue : list entry;
  page_numbers : list str;
  scene_title : option str;  (* "episode_title" *)
  stage_directions : list direction;
  line_number_start : option Z
}.

(** ** [extract_episode_metadata] *)

Definition opt_bind {A B : Type} (x : option A) (f : A -> option B)
  : option B :=
  match x with Some a => f a | None => None end.

Declare Scope script_scope.

Notation "x <- e ;; k" := (opt_bind e (fun x => k))
  (at level 61, e at next level, right associativity) : script_scope.
Delimit Scope script_scope with script.
Local Open Scope script_scope.

Fixpoint map_opt {A B : Type} (f : A -> option B) (l : list A)
  : option (list B) :=
  match l with
  | [] => Some []
  | a :: t => b <- f a ;; bs <- map_opt f t ;; Some (b :: bs)
  end.

(** [w.strip() for w in text.split('&') if w.strip()] *)
Definition split_names (text : str) : list str :=
  map Py.strip
      (filter (fun w => Py.truthy (Py.strip w)) (Py.split text "&"%char)).

Definition is_continuation (x : str) : bool :=
  Py.truthy x && negb (Py.startswith x (s "["))
  && negb (Py.startswith x (s "Written")).

Definition unbalanced (title : str) : bool :=
  Nat.ltb (Py.count title ")"%char) (Py.count title "("%char).

(** The title found at a line that starts with "the one"; [rest] holds the
    lines after it. *)
Definition combine_title (clean_line : str) (rest : list str) : str :=
  let title := clean_line in
  if Py.endswith title (s "(") || unbalanced title then
    match rest with
    | l1 :: rest' =>
        let next_line := Py.strip l1 in
        if is_continuation next_line then
          let title := title ++ s " " ++ next_line in
          if unbalanced title then
            match rest' with
            | l2 :: _ =>
                let third_line := Py.strip l2 in
                if is_continuation third_line
                then title ++ s " " ++ third_line else title
            | [] => title
            end
          else title
        else title
    | [] => title
    end
  else title.

(** The scan of [lines[:50]] for the title. *)
Fixpoint find_title (n : nat) (lines : list str) : option str :=
  match n, lines with
  | S n', l :: rest =>
      let clean_line := Py.strip l in
      if Py.startswith (Py.lower clean_line) (s "the one")
      then Some (combine_title clean_line rest)
      else find_title n' rest
  | _, _ => None
  end.

(** [extract_episode_title(text)] *)
Fixpoint first_title (n : nat) (lines : list str) : option str :=
  match n, lines with
  | S n', l :: rest =>
      let clean_line := Py.strip l in
      if Py.startswith (Py.lower clean_line) (s "the one")
      then Some clean_line else first_title n' rest
  | _, _ => None
  end.

Definition extract_episode_title (text : str) : option str :=
  first_title 50 (Py.splitlines text).

(** Friends episode counts per season, index 0 unused. *)
Definition season_episodes : list Z :=
  [0; 24; 24; 25; 24; 24; 25; 24; 24; 24; 18].

Definition sumZ (l : list Z) : Z := fold_left Z.add l 0.

(** [l[lo:hi]] for indices that are not negative. *)
Definition slice {A : Type} (l : list A) (lo hi : nat) : list A :=
  skipn lo (firstn hi l).

Definition truthy_int (x : option Z) : bool :=
  match x with Some v => negb (v =? 0) | None => false end.

Definition series_number (season episode : option Z) : option Z :=
  if truthy_int season && truthy_int episode then
    match season, episode with
    | Some se, Some ep =>
        if se <=? Z.of_nat (List.length season_episodes) - 1
        then Some (sumZ (slice season_episodes 1 (Z.to_nat se)) + ep)
        else None
    | _, _ => None
    end
  else None.

(** The group 1 of a search in each of the lines, in order. *)
Definition credits_of (r : Re.regex) (lines : list str) : list str :=
  flat_map (fun l =>
              match Re.search true r l with
              | Some m =>
                  match Re.group 1 m with
                  | Some g => split_names (Py.strip g)
                  | None => []
                  end
              | None => []
              end) lines.

(** The credits found by the writer patterns whose source text passes
    [keep]. *)
Definition routed (keep : str -> bool) (lines : list str) : list str :=
  flat_map (fun p => if keep (Py.lower (fst p)) then credits_of (snd p) lines
                     else [])
           Pat.writer_patterns.

Definition is_teleplay (pattern : str) : bool :=
  Py.contains pattern (s "teleplay").
Definition is_story (pattern : str) : bool :=
  negb (is_teleplay pattern) && Py.contains pattern (s "story").
Definition is_writer (pattern : str) : bool :=
  negb (Py.contains pattern (s "teleplay"))
  && negb (Py.contains pattern (s "story")).

(** The "Name Name Transcribed by:" fallback over the first lines. *)
Fixpoint transcribed_writers (i : nat) (lines : list str) : list str :=
  match lines with
  | [] => []
  | l :: rest =>
      let l' := Py.strip l in
      if Nat.ltb i 3 then
        match Re.rmatch false Pat.transcribed l' with
        | Some m =>
            match Re.group 1 m with
            | Some g => split_names (Py.strip g)
            | None => transcribed_writers (S i) rest
            end
        | None => transcribed_writers (S i) rest
        end
      else transcribed_writers (S i) rest
  end.

Fixpoint first_production_code (lines : list str) : option str :=
  match lines with
  | [] => None
  | l :: rest =>
      match Re.search true Pat.production_code l with
      | Some m => Re.group 1 m
      | None => first_production_code rest
      end
  end.

(** The set of page tokens, one per line at most. *)
Definition page_tokens (lines : list str) : list str :=
  fold_left (fun acc l =>
               match Re.search false Pat.page l with
               | Some m =>
                   match Re.group 1 m with
                   | Some g => Py.set_add g acc
                   | None => acc
                   end
               | None => acc
               end) lines [].

(** [int(p.split('/')[0])] *)
Definition page_numerator (p : str) : option Z :=
  Py.int (hd [] (Py.split p "/"%char)).

Definition maxZ (x : Z) (l : list Z) : Z := fold_left Z.max l x.
Definition minZ (x : Z) (l : list Z) : Z := fold_left Z.min l x.

Definition max_page (pages : list str) : option (option Z) :=
  match pages with
  | [] => Some None
  | _ =>
      nums <- map_opt page_numerator pages ;;
      match nums with
      | n :: ns => Some (Some (maxZ n ns))
      | [] => None
      end
  end.

Definition group_int (r : Re.regex) (x : str) : option (option Z) :=
  match Re.search false r x with
  | Some m =>
      match Re.group 1 m with
      | Some g => v <- Py.int g ;; Some (Some v)
      | None => None
      end
  | None => Some None
  end.

(** [extract_episode_metadata(text, pdf_path)], without the size of the
    file and the date of the extraction, which the environment gives. *)
Definition extract_episode_metadata (text pdf_path : str)
  : option metadata :=
  let lines := Py.splitlines text in
  let title := find_title 50 lines in
  let filename := Py.basename pdf_path in
  se <- group_int Pat.season filename ;;
  ep <- group_int Pat.episode filename ;;
  let first_lines := firstn 10 lines in
  let found := routed is_writer first_lines in
  let writers :=
    match found with
    | [] => transcribed_writers 0 first_lines
    | _ => found
    end in
  let directors :=
    flat_map (fun r => credits_of r first_lines) Pat.director_patterns in
  pages <- max_page (page_tokens lines) ;;
  Some (Metadata title se ep (series_number se ep) writers directors
          (routed is_story first_lines) (routed is_teleplay first_lines)
          (first_production_code first_lines) pages filename pdf_path).

(** ** [clean_line_and_extract_page] *)

Definition clean_line_and_extract_page (text : str) (title : option str)
  : str * option str :=
  let original := Py.strip text in
  let '(raw_before, page_number) :=
    match Re.search false Pat.trailing_page original with
    | Some m =>
        (Py.strip (match Re.group 1 m with Some g => g | None => [] end),
         option_map Py.strip (Re.group 2 m))
    | None => (original, None)
    end in
  let raw_before :=
    match title with
    | Some t =>
        if Py.truthy t then Re.sub true (Pat.title_at_end t) [] raw_before
        else raw_before
    | None => raw_before
    end in
  let raw_before := Py.strip (Re.sub false Pat.url [] raw_before) in
  (raw_before, page_number).

(** ** [parse_friends_script] *)

(** The loop variables of the parser. *)
Record pstate : Type := PState {
  script_data : list scene;
  current_scene : scene;
  current_speaker : option str;
  buffer : str;
  scene_counter : Z
}.

Definition new_scene (name : option str) (number : Z) (title : option str)
  (start : option Z) : scene :=
  Scene name number [] [] [] title [] start.

Definition init_state (md : metadata) : pstate :=
  PState [] (new_scene None 0 (episode_title md) None) None [] 0.

Definition add_direction (d : direction) (sc : scene) : scene :=
  Scene (scene_name sc) (scene_number sc) (characters sc) (dialogue sc)
        (page_numbers sc) (scene_title sc) (stage_directions sc ++ [d])
        (line_number_start sc).

Definition add_character (c : str) (sc : scene) : scene :=
  Scene (scene_name sc) (scene_number sc) (Py.set_add c (characters sc))
        (dialogue sc) (page_numbers sc) (scene_title sc)
        (stage_directions sc) (line_number_start sc).

Definition add_entry (e : entry) (sc : scene) : scene :=
  Scene (scene_name sc) (scene_number sc) (characters sc)
        (dialogue sc ++ [e])
        (match page_number e with
         | Some p => Py.set_add p (page_numbers sc)
         | None => page_numbers sc
         end)
        (scene_title sc) (stage_directions sc) (line_number_start sc).

(** The entry built from the buffer of [speaker], recorded at line
    [lineno]; an empty page number is left out. *)
Definition make_entry (md : metadata) (speaker buf : str) (lineno : Z)
  : entry :=
  let '(cleaned_text, page) :=
    clean_line_and_extract_page (Py.strip buf) (episode_title md) in
  Entry speaker cleaned_text lineno
        (if Py.truthy_opt page then page else None) false.

(** [if current_speaker and buffer: ... current_scene["dialogue"].append] *)
Definition flush (md : metadata) (lineno : Z) (st : pstate) : scene :=
  match current_speaker st with
  | Some sp =>
      if Py.truthy sp && Py.truthy (buffer st)
      then add_entry (make_entry md sp (buffer st) lineno) (current_scene st)
      else current_scene st
  | None => current_scene st
  end.

Definition is_noise (l : str) : bool :=
  (Py.contains l (s "The One Where") || Py.contains l (s "The One with"))
  && Py.contains l (s "http")
  && match Re.search false Pat.fraction l with Some _ => true | None => false end.

Definition is_date (l : str) : bool :=
  match Re.rmatch false Pat.date l with Some _ => true | None => false end.

Definition nonempty {A : Type} (l : list A) : bool :=
  match l with [] => false | _ => true end.

(** One round of the loop over [enumerate(lines)]. *)
Definition parse_line (md : metadata) (st : pstate) (numbered : nat * str)
  : pstate :=
  let '(line_num, raw) := numbered in
  let l := Py.strip raw in
  let lineno := Z.of_nat line_num + 1 in
  if negb (Py.truthy l) then st
  else if is_noise l then st
  else if is_date l then st
  else if Py.startswith l (s "[Scene:") then
    let data :=
      if nonempty (dialogue (current_scene st))
         || nonempty (stage_directions (current_scene st))
      then script_data st ++ [current_scene st] else script_data st in
    let counter := scene_counter st + 1 in
    let name :=
      match Re.search false Pat.scene_heading l with
      | Some m => Re.group 1 m
      | None => None
      end in
    PState data (new_scene name counter (episode_title md) (Some lineno))
           None [] counter
  else if Py.startswith l (s "[") || Py.startswith l (s "(") then
    PState (script_data st)
           (add_direction (Direction l lineno) (current_scene st))
           (current_speaker st) (buffer st) (scene_counter st)
  else
    match Re.rmatch false Pat.speaker l with
    | Some m =>
        match Re.group 1 m, Re.group 2 m with
        | Some name, Some text =>
            PState (script_data st) (add_character name (flush md lineno st))
                   (Some name) text (scene_counter st)
        | _, _ => st
        end
    | None =>
        if Py.truthy_opt (current_speaker st)
        then PState (script_data st) (current_scene st) (current_speaker st)
                    (buffer st ++ s " " ++ l) (scene_counter st)
        else st
    end.

Fixpoint enumerate_from {A : Type} (i : nat) (l : list A) : list (nat * A) :=
  match l with
  | [] => []
  | a :: t => (i, a) :: enumerate_from (S i) t
  end.

(** The state after the loop over all the lines. *)
Definition parse_loop (md : metadata) (lines : list str) : pstate :=
  fold_left (parse_line md) (enumerate_from 0 lines) (init_state md).

(** The final dialogue flush: the last scene is appended inside the
    [if], as in the source. *)
Definition finish (md : metadata) (nlines : nat) (st : pstate)
  : list scene :=
  if Py.truthy_opt (current_speaker st) && Py.truthy (buffer st)
  then script_data st ++ [flush md (Z.of_nat nlines) st]
  else script_data st.

Definition parse_friends_script (raw_text : str) (md : metadata)
  : list scene :=
  let lines := Py.splitlines raw_text in
  finish md (List.length lines) (parse_loop md lines).

(** ** [clean_episode_title_from_dialogue] *)

(** The two substitutions applied to a dialogue line. *)
Definition scrub_line (title : str) (original_line : str) : str :=
  let cleaned_line := Re.sub true (Pat.title_anywhere title) [] original_line in
  Py.strip (Re.sub false Pat.spaces (s " ") cleaned_line).

(** An entry after the scrubber, and whether it was changed. *)
Definition scrub_entry (title : str) (e : entry) : entry * bool :=
  let cleaned_line := scrub_line title (line e) in
  if str_eqb cleaned_line (line e) then (e, false)
  else (Entry (speaker e) cleaned_line (line_number e) (page_number e) true,
        true).

Definition count_true (l : list bool) : Z :=
  Z.of_nat (List.length (filter (fun b => b) l)).

Definition scrub_scene (title : str) (sc : scene) : scene * Z :=
  let r := map (scrub_entry title) (dialogue sc) in
  (Scene (scene_name sc) (scene_number sc) (characters sc) (map fst r)
         (page_numbers sc) (scene_title sc) (stage_directions sc)
         (line_number_start sc),
   count_true (map snd r)).

Definition clean_episode_title_from_dialogue (data : list scene)
  (title : option str) : list scene * Z :=
  match title with
  | Some t =>
      if Py.truthy t then
        let r := map (scrub_scene t) data in
        (map fst r, sumZ (map snd r))
      else (data, 0)
  | None => (data, 0)
  end.

(** ** [calculate_script_statistics] *)

Record char_stat : Type := CharStat {
  total_lines : Z;
  scenes_appeared : Z;
  average_lines_per_scene : Q
}.

Record extreme : Type := Extreme {
  extreme_length : Z;        (* "length" *)
  scene_index : Z
}.

Record statistics : Type := Statistics {
  total_scenes : Z;
  total_dialogue_lines : Z;
  character_stats : list (str * char_stat);
  scene_lengths : list Z;
  average_scene_length : Q;
  longest_scene : option extreme;
  shortest_scene : option extreme;
  page_range : option (Z * Z);     (* start, end *)
  unique_characters : list str;
  speaking_characters : list str
}.

(** The dictionary [character_stats], in insertion order. *)
Definition has_key (c : str) (d : list (str * char_stat)) : bool :=
  existsb (fun kv => str_eqb c (fst kv)) d.

Definition update_key (c : str) (f : char_stat -> char_stat)
  (d : list (str * char_stat)) : list (str * char_stat) :=
  map (fun kv => if str_eqb c (fst kv) then (fst kv, f (snd kv)) else kv) d.

Definition appear (d : list (str * char_stat)) (c : str)
  : list (str * char_stat) :=
  let d' := if has_key c d then d else d ++ [(c, CharStat 0 0 0)] in
  update_key c (fun cs => CharStat (total_lines cs) (scenes_appeared cs + 1)
                                   (average_lines_per_scene cs)) d'.

Definition speak (d : list (str * char_stat)) (e : entry)
  : list (str * char_stat) :=
  update_key (speaker e)
             (fun cs => CharStat (total_lines cs + 1) (scenes_appeared cs)
                                 (average_lines_per_scene cs)) d.

(** [a / b]: Python rounds this quotient to a float; the model keeps the
    exact rational. *)
Definition ratio (a b : Z) : Q := (inject_Z a / inject_Z b)%Q.

Definition with_average (cs : char_stat) : char_stat :=
  if 0 <? scenes_appeared cs
  then CharStat (total_lines cs) (scenes_appeared cs)
                (ratio (total_lines cs) (scenes_appeared cs))
  else cs.

(** [l.index(x)] for an [x] that occurs in [l]. *)
Fixpoint index_of (x : Z) (l : list Z) : Z :=
  match l with
  | [] => 0
  | y :: t => if y =? x then 0 else 1 + index_of x t
  end.

Definition scene_len (sc : scene) : Z := Z.of_nat (List.length (dialogue sc)).

Definition all_pages (data : list scene) : list str :=
  fold_left (fun acc sc => Py.set_update acc (page_numbers sc)) data [].

Definition calculate_script_statistics (data : list scene)
  : option statistics :=
  let lengths := map scene_len data in
  let chars :=
    fold_left (fun d sc =>
                 fold_left speak (dialogue sc)
                           (fold_left appear (characters sc) d)) data [] in
  let unique :=
    fold_left (fun acc sc => Py.set_update acc (characters sc)) data [] in
  let speaking :=
    fold_left (fun acc sc => Py.set_update acc (map speaker (dialogue sc)))
              data [] in
  page_nums <- map_opt page_numerator (all_pages data) ;;
  Some (Statistics
          (Z.of_nat (List.length data))
          (sumZ lengths)
          (map (fun kv => (fst kv, with_average (snd kv))) chars)
          lengths
          (match lengths with
           | [] => 0%Q
           | _ => ratio (sumZ lengths) (Z.of_nat (List.length lengths))
           end)
          (match lengths with
           | [] => None
           | n :: ns => let m := maxZ n ns in
                        Some (Extreme m (index_of m lengths))
           end)
          (match lengths with
           | [] => None
           | n :: ns => let m := minZ n ns in
                        Some (Extreme m (index_of m lengths))
           end)
          (match page_nums with
           | [] => None
           | n :: ns => Some (minZ n ns, maxZ n ns)
           end)
          unique speaking).

(** ** [parse_friends_script_with_metadata] *)

(** [extract_text_from_pdf]: the document is the list of the texts of its
    pages. *)
Definition extract_text_from_pdf (pages : list str) : str :=
  map (fun c => if Chr.eqb c (ascii_of_N 160) then " "%char else c)
      (List.concat pages).

Record parsing_info : Type := ParsingInfo {
  total_lines_processed : Z;
  dialogue_lines_cleaned : Z
}.

Record full_data : Type := FullData {
  fd_metadata : metadata;          (* "metadata" *)
  fd_statistics : statistics;      (* "statistics" *)
  fd_script : list scene;          (* "script" *)
  fd_parsing_info : parsing_info   (* "parsing_info" *)
}.

(** The pipeline once the text is extracted. *)
Definition run_pipeline (text pdf_path : str) : option full_data :=
  md <- extract_episode_metadata text pdf_path ;;
  let data := parse_friends_script text md in
  let '(data, cleaned_count) :=
    clean_episode_title_from_dialogue data (episode_title md) in
  st <- calculate_script_statistics data ;;
  Some (FullData md st data
          (ParsingInfo (Z.of_nat (List.length (Py.splitlines text)))
                       cleaned_count)).

Definition parse_friends_script_with_metadata (pages : list str)
  (pdf_path : str) : option full_data :=
  run_pipeline (extract_text_from_pdf pages) pdf_path.

(** ** The scenario of the specification *)

Definition LF : string := String Chr.nl EmptyString.

Definition scenario : str :=
  s ("Written by: Marta Kauffman & David Crane" ++ LF ++
     "[Scene: Central Perk, everyone is there]" ++ LF ++
     "Ross: Hi guys! 1/22" ++ LF ++
     "Chandler: Could this BE any cooler?" ++ LF ++
     "[Scene: Monica's apartment]" ++ LF ++
     "Joey: How you doin'? 2/22")%string.


(** ** What a pattern matches

    [den r st st'] says that [r] can match from the position [st] to the
    position [st'].  The matcher only returns matches of this kind
    ([exec_sound] below), which is what the general statements about the
    patterns of the script rest on. *)

Module Sem.

Import Re.

Fixpoint iter (R : mstate -> mstate -> Prop) (n : nat) (st st' : mstate)
  : Prop :=
  match n with
  | O => st' = st
  | S n' =>
      exists mid, R st mid /\ (pos st < pos mid)%nat /\ iter R n' mid st'
  end.

Definition within (hi : option nat) (n : nat) : Prop :=
  match hi with Some h => (n <= h)%nat | None => True end.

Section Den.

Variable ic : bool.

Fixpoint den (r : regex) (st st' : mstate) : Prop :=
  match r with
  | Eps => st' = st
  | Lit c =>
      exists x t, m_suf st = x :: t /\ lit_ok ic c x = true
                  /\ st' = advance x t st
  | Cls p =>
      exists x t, m_suf st = x :: t /\ cls_ok ic p x = true
                  /\ st' = advance x t st
  | Bol => m_pre st = [] /\ st' = st
  | Eol => (m_suf st = [] \/ m_suf st = [Chr.nl]) /\ st' = st
  | WordB =>
      xorb (word_at (m_pre st)) (word_at (m_suf st)) = true /\ st' = st
  | Seq r1 r2 => exists mid, den r1 st mid /\ den r2 mid st'
  | Alt r1 r2 => den r1 st st' \/ den r2 st st'
  | Grp n r1 =>
      exists mid, den r1 st mid /\ st' = set_cap n (consumed st mid) mid
  | Rep _ lo hi r1 =>
      exists n, (lo <= n)%nat /\ within hi n /\ iter (den r1) n st st'
  end.

End Den.

(** [st'] is [st] moved forward over the text [w]. *)
Definition moved (w : str) (st st' : mstate) : Prop :=
  m_pre st' = rev w ++ m_pre st /\ m_suf st = w ++ m_suf st'.

End Sem.

(** ** Predicates used in the statements *)

Definition all_digits (x : str) : Prop :=
  Forall (fun c => Chr.is_digit c = true) x.

Definition all_space (x : str) : Prop :=
  Forall (fun c => Chr.is_space c = true) x.

(** A page marker: one or two digits, a slash, one or two digits. *)
Definition is_page_token (p : str) : Prop :=
  exists a b, p = a ++ s "/" ++ b /\ all_digits a /\ all_digits b
              /\ (1 <= List.length a <= 2)%nat
              /\ (1 <= List.length b <= 2)%nat.

(** The kind of a trimmed line, in the order of the tests of the loop. *)
Inductive kind : Type :=
| KSkip                              (* blank, noise or date: skipped *)
| KHeading (name : option str)       (* starts with "[Scene:" *)
| KDirection                         (* starts with "[" or "(" *)
| KSpeaker (name text : str)         (* matches the speaker pattern *)
| KOther.                            (* anything else *)

Definition classify (l : str) : kind :=
  if negb (Py.truthy l) then KSkip
  else if is_noise l then KSkip
  else if is_date l then KSkip
  else if Py.startswith l (s "[Scene:") then
    KHeading match Re.search false Pat.scene_heading l with
             | Some m => Re.group 1 m
             | None => None
             end
  else if Py.startswith l (s "[") || Py.startswith l (s "(") then KDirection
  else
    match Re.rmatch false Pat.speaker l with
    | Some m =>
        match Re.group 1 m, Re.group 2 m with
        | Some name, Some text => KSpeaker name text
        | _, _ => KSkip
        end
    | None => KOther
    end.

(** The line is consumed as a scene heading. *)
Definition is_heading (raw : str) : bool :=
  match classify (Py.strip raw) with KHeading _ => true | _ => false end.

(** The line is consumed as a speaker line, and names this speaker. *)
Definition speaker_line (raw : str) : option str :=
  match classify (Py.strip raw) with KSpeaker name _ => Some name | _ => None end.

(** The number of scene headings among [lines]. *)
Definition headings (lines : list str) : Z :=
  Z.of_nat (List.length (filter is_heading lines)).

(** The scenes that a scene heading leaves in the result. *)
Definition after_heading (st : pstate) : list scene :=
  if nonempty (dialogue (current_scene st))
     || nonempty (stage_directions (current_scene st))
  then script_data st ++ [current_scene st] else script_data st.

(** All the scenes of a state: the emitted ones and the open one. *)
Definition scenes_of (st : pstate) : list scene :=
  script_data st ++ [current_scene st].

(** The number of a scene is the number of headings up to its own, which
    is the line [line_number_start]; the scene opened before any heading
    has the number 0. *)
Definition numbered (lines : list str) (sc : scene) : Prop :=
  match line_number_start sc with
  | None => scene_number sc = 0
  | Some n =>
      exists i raw,
        n = Z.of_nat i + 1 /\ nth_error lines i = Some raw
        /\ is_heading raw = true
        /\ scene_number sc = headings (firstn (S i) lines)
  end.

(** What the loop keeps true of the scene numbers once [i] lines are
    read. *)
Definition numbers_inv (lines : list str) (i : nat) (st : pstate) : Prop :=
  scene_number (current_scene st) = scene_counter st
  /\ scene_counter st = headings (firstn i lines)
  /\ StronglySorted Z.lt (map scene_number (script_data st))
  /\ Forall (fun sc => scene_number sc < scene_counter st) (script_data st)
  /\ Forall (numbered lines) (scenes_of st).

(** Every speaker of a dialogue entry of the scene is one of its
    characters. *)
Definition speakers_in (sc : scene) : Prop :=
  forall e, In e (dialogue sc) -> In (speaker e) (characters sc).

(** The page numbers of the scene are page markers. *)
Definition pages_ok (sc : scene) : Prop :=
  Forall is_page_token (page_numbers sc).

(** What the loop keeps true of characters and pages. *)
Definition chars_inv (st : pstate) : Prop :=
  Forall speakers_in (scenes_of st)
  /\ Forall pages_ok (scenes_of st)
  /\ forall sp, current_speaker st = Some sp ->
                In sp (characters (current_scene st)).

(** No line strictly between the lines [a] and [b] (counted from 0) is a
    speaker line or a scene heading. *)
Definition quiet (lines : list str) (a b : nat) : Prop :=
  forall j raw,
    (a < j < b)%nat -> nth_error lines j = Some raw ->
    speaker_line raw = None /\ is_heading raw = false.

(** The line [start] is a speaker line of [name], and the buffer it opens
    is still pending at the line [stop]. *)
Definition started (lines : list str) (name : str) (start stop : nat)
  : Prop :=
  exists raw,
    nth_error lines start = Some raw /\ speaker_line raw = Some name
    /\ (start < stop)%nat /\ quiet lines start stop.

(** The entry was flushed by the next speaker line, whose number it
    records. *)
Definition mid_flushed (lines : list str) (e : entry) : Prop :=
  exists start stop raw,
    started lines (speaker e) start stop
    /\ nth_error lines stop = Some raw /\ speaker_line raw <> None
    /\ line_number e = Z.of_nat stop + 1.

(** The entry was flushed at the end of the input and records the number
    of lines. *)
Definition end_flushed (lines : list str) (e : entry) : Prop :=
  exists start,
    started lines (speaker e) start (List.length lines)
    /\ line_number e = Z.of_nat (List.length lines).

(** What the loop keeps true of the entries once [i] lines are read. *)
Definition entries_inv (lines : list str) (i : nat) (st : pstate) : Prop :=
  Forall (fun sc => Forall (mid_flushed lines) (dialogue sc)) (scenes_of st)
  /\ forall sp, current_speaker st = Some sp ->
                exists start, started lines sp start i.

(** The leading white space of a string; [Py.lstrip] is the rest. *)
Fixpoint lspace (x : str) : str :=
  match x with
  | c :: t => if Chr.is_space c then c :: lspace t else []
  | [] => []
  end.

(** Every run of white space replaced by one blank; [in_run] tells that
    the characters just before were white space. *)
Fixpoint squeeze (in_run : bool) (x : str) : str :=
  match x with
  | [] => []
  | c :: t =>
      if Chr.is_space c
      then if in_run then squeeze true t else " "%char :: squeeze true t
      else c :: squeeze false t
  end.

(** The only white space of the string is single blanks; [after_space]
    tells that a blank comes just before. *)
Fixpoint tidy (after_space : bool) (x : str) : Prop :=
  match x with
  | [] => True
  | c :: t =>
      if Chr.is_space c
      then c = " "%char /\ after_space = false /\ tidy true t
      else tidy false t
  end.






(** Metadata with nothing found, for the examples. *)
Definition no_metadata : metadata :=
  Metadata None None None None [] [] [] [] None None [] [].

(** A capitalised word: a letter of A-Z, then one or more of a-z. *)
Definition cap_word (x : str) : bool :=
  match x with
  | c :: t => Chr.is_upper_AZ c && nonempty t && forallb Chr.is_lower_az t
  | [] => false
  end.

(** The scene holds a dialogue entry or a stage direction. *)
Definition has_content (sc : scene) : bool :=
  nonempty (dialogue sc) || nonempty (stage_directions sc).

(** A stage direction of [lines]: the trimmed text of the line whose
    number it records, which starts with a bracket or a parenthesis and
    is no scene heading. *)
Definition direction_ok (lines : list str) (d : direction) : Prop :=
  exists i raw,
    direction_line d = Z.of_nat i + 1 /\ nth_error lines i = Some raw
    /\ direction_text d = Py.strip raw
    /\ Py.startswith (Py.strip raw) (s "[Scene:") = false
    /\ Py.startswith (Py.strip raw) (s "[")
       || Py.startswith (Py.strip raw) (s "(") = true.

(** A dialogue entry as the parser builds it. *)
Definition entry_ok (e : entry) : Prop :=
  cap_word (speaker e) = true /\ Py.strip (line e) = line e
  /\ cleaned e = false.

(** The page numbers of the scene are those of its entries. *)
Definition pages_of_entries (sc : scene) : Prop :=
  forall p, In p (page_numbers sc)
            <-> exists e, In e (dialogue sc) /\ page_number e = Some p.

(** A scene as the parser builds it from [lines]. *)
Definition scene_ok (md : metadata) (lines : list str) (sc : scene) : Prop :=
  Forall (fun c => cap_word c = true) (characters sc)
  /\ Forall entry_ok (dialogue sc)
  /\ pages_of_entries sc
  /\ Forall (direction_ok lines) (stage_directions sc)
  /\ scene_title sc = episode_title md.

(** What the loop keeps true of the structure of the scenes. *)
Definition structure_inv (md : metadata) (lines : list str) (st : pstate)
  : Prop :=
  Forall (scene_ok md lines) (scenes_of st)
  /\ Forall (fun sc => has_content sc = true) (script_data st)
  /\ forall sp, current_speaker st = Some sp -> cap_word sp = true.

(** All the dialogue entries of the scenes, in order. *)
Definition all_entries (scenes : list scene) : list entry :=
  flat_map dialogue scenes.

(** The number of speaker lines among [lines]. *)
Definition speaker_lines (lines : list str) : nat :=
  List.length (filter (fun raw => match speaker_line raw with
                                  | Some _ => true
                                  | None => false
                                  end) lines).

Definition pending (st : pstate) : nat :=
  match current_speaker st with Some _ => 1%nat | None => 0%nat end.

(** What the loop keeps true of the number and the order of the entries
    once [i] lines are read. *)
Definition order_inv (lines : list str) (i : nat) (st : pstate) : Prop :=
  (List.length (all_entries (scenes_of st)) + pending st
   <= speaker_lines (firstn i lines))%nat
  /\ Z.of_nat (List.length (script_data st)) <= scene_counter st
  /\ StronglySorted Z.le (map line_number (all_entries (scenes_of st)))
  /\ Forall (fun e => 1 <= line_number e <= Z.of_nat i)
            (all_entries (scenes_of st)).

(** [x] is at the index [i] of [l] and at no smaller index. *)
Definition first_at (l : list Z) (i x : Z) : Prop :=
  0 <= i /\ nth_error l (Z.to_nat i) = Some x
  /\ forall j, (j < Z.to_nat i)%nat -> nth_error l j <> Some x.

(** The statistics of the scenario, for the examples. *)
Definition scenario_scenes : list scene :=
  Eval vm_compute in parse_friends_script scenario no_metadata.

Definition no_statistics : statistics :=
  Statistics 0 0 [] [] 0 None None None [] [].

Definition scenario_statistics : statistics :=
  Eval vm_compute in
    match calculate_script_statistics scenario_scenes with
    | Some st => st
    | None => no_statistics
    end.

(** A record of [character_stats] counts at least one scene. *)
Definition stat_ok (cs : char_stat) : Prop :=
  1 <= scenes_appeared cs /\ 0 <= total_lines cs.

(** The text up to its first newline. *)
Fixpoint first_line (x : str) : str :=
  match x with
  | c :: t => if Chr.eqb c Chr.nl then [] else c :: first_line t
  | [] => []
  end.

(** The state [st'] after a speaker line of [name], read as the line [i]
    (counted from 0) in the state [st]; [text] is what follows the colon.
    The pending buffer is flushed into a dialogue entry of the line
    [i + 1], the speaker is added to the characters of the scene, and
    nothing else changes. *)
Definition after_speaker_line (md : metadata) (st : pstate) (i : nat)
  (name text : str) (st' : pstate) : Prop :=
  let sc := current_scene st in
  let sc' := current_scene st' in
  let r := clean_line_and_extract_page (Py.strip (buffer st))
                                       (episode_title md) in
  let pending := Py.truthy_opt (current_speaker st)
                 && Py.truthy (buffer st) in
  current_speaker st' = Some name
  /\ buffer st' = text
  /\ script_data st' = script_data st
  /\ scene_counter st' = scene_counter st
  /\ (forall c, In c (characters sc') <-> c = name \/ In c (characters sc))
  /\ scene_name sc' = scene_name sc
  /\ scene_number sc' = scene_number sc
  /\ scene_title sc' = scene_title sc
  /\ stage_directions sc' = stage_directions sc
  /\ line_number_start sc' = line_number_start sc
  /\ dialogue sc'
     = dialogue sc
       ++ match current_speaker st with
          | Some sp =>
              if pending
              then [Entry sp (fst r) (Z.of_nat i + 1)
                          (if Py.truthy_opt (snd r) then snd r else None)
                          false]
              else []
          | None => []
          end
  /\ forall p, In p (page_numbers sc')
               <-> In p (page_numbers sc)
                   \/ (pending = true /\ Py.truthy_opt (snd r) = true
                       /\ snd r = Some p).

(** The state [st'] after a scene heading, read as the line [i] (counted
    from 0) in the state [st], that names the scene [name]: the open scene
    is set aside if it holds a dialogue entry or a stage direction, and a
    new, empty scene is opened with the next number. *)
Definition after_heading_line (md : metadata) (st : pstate) (i : nat)
  (name : option str) (st' : pstate) : Prop :=
  current_speaker st' = None
  /\ buffer st' = []
  /\ scene_counter st' = scene_counter st + 1
  /\ script_data st'
     = (if nonempty (dialogue (current_scene st))
           || nonempty (stage_directions (current_scene st))
        then script_data st ++ [current_scene st]
        else script_data st)
  /\ current_scene st'
     = Scene name (scene_counter st + 1) [] [] [] (episode_title md) []
             (Some (Z.of_nat i + 1)).

(** No character of [x] is a newline or a closing bracket. *)
Definition plain_name (x : str) : bool :=
  forallb (fun c => negb (Chr.eqb c Chr.nl) && negb (Chr.eqb "]" c)) x.

(** The number of the entries of [es] spoken by [c], and the number of
    times [c] is listed in [cs]. *)
Definition spoken_by (c : str) (es : list entry) : Z :=
  Z.of_nat (List.length (filter (fun e => str_eqb (speaker e) c) es)).

Definition listed (c : str) (cs : list str) : Z :=
  Z.of_nat (List.length (filter (fun x => str_eqb x c) cs)).

(** The number of the scenes that have [c] among their characters. *)
Definition scenes_listing (c : str) (data : list scene) : Z :=
  Z.of_nat (List.length
              (filter (fun sc => Py.set_mem c (characters sc)) data)).

(** Every speaker of the scene is among its characters. *)
Definition speakers_listed (sc : scene) : bool :=
  forallb (fun e => Py.set_mem (speaker e) (characters sc)) (dialogue sc).

(** The dictionary [d] holds the counts of the characters [cs] and of the
    entries [es] read so far, and has their names as keys. *)
Definition counted (cs : list str) (es : list entry)
  (d : list (str * char_stat)) : Prop :=
  Forall (fun kv => total_lines (snd kv) = spoken_by (fst kv) es
                    /\ scenes_appeared (snd kv) = listed (fst kv) cs) d
  /\ (forall x, In x cs -> In x (map fst d))
  /\ (forall e, In e es -> In (speaker e) (map fst d)).

(** [e'] is [e] after the scrubber: the same entry, or one with another
    text that is marked as cleaned. *)
Definition scrubbed (e e' : entry) : Prop :=
  speaker e' = speaker e /\ line_number e' = line_number e
  /\ page_number e' = page_number e
  /\ (e' = e \/ (line e' <> line e /\ cleaned e' = true)).

(** [sc'] is [sc] after the scrubber: only the dialogue may differ. *)
Definition scrubbed_scene (sc sc' : scene) : Prop :=
  scene_name sc' = scene_name sc /\ scene_number sc' = scene_number sc
  /\ characters sc' = characters sc /\ page_numbers sc' = page_numbers sc
  /\ scene_title sc' = scene_title sc
  /\ stage_directions sc' = stage_directions sc
  /\ line_number_start sc' = line_number_start sc
  /\ Forall2 scrubbed (dialogue sc) (dialogue sc').

(** A text without white space at its ends and with single blanks as its
    only white space. *)
Definition normalised (x : str) : Prop := Py.strip x = x /\ tidy false x.

(** A name of a credit: not empty, without "&", without white space at
    its ends. *)
Definition clean_name (x : str) : Prop :=
  x <> [] /\ ~ In "&"%char x /\ Py.strip x = x.

(** The trimmed line starts with "the one", in any case. *)
Definition starts_title (raw : str) : bool :=
  Py.startswith (Py.lower (Py.strip raw)) (s "the one").

(** [t0] is the first line of [lines] that starts a title, trimmed, and
    this line is among the first [n]. *)
Definition title_at (n : nat) (lines : list str) (t0 : str) : Prop :=
  exists i raw,
    (i < n)%nat /\ nth_error lines i = Some raw /\ t0 = Py.strip raw
    /\ starts_title raw = true
    /\ forall j r, (j < i)%nat -> nth_error lines j = Some r ->
                   starts_title r = false.

(** * Theorems *)

(** ** The matcher *)

Module ReFacts.

Import Re Sem.

Lemma orelse_some (a b : option mstate) (res : mstate) :
  orelse a b = Some res -> a = Some res \/ b = Some res.
Proof.
  destruct a; simpl; intros H; [left | right]; assumption.
Qed.

Lemma one_sound (ok : ascii -> bool) (k : mstate -> option mstate)
  (st res : mstate) :
  one ok k st = Some res ->
  exists x t, m_suf st = x :: t /\ ok x = true
              /\ k (advance x t st) = Some res.
Proof.
  unfold one. destruct (m_suf st) as [|x t]; [discriminate|].
  destruct (ok x) eqn:E; [|discriminate].
  intros H. exists x, t. auto.
Qed.

Section Sound.

Variable ic : bool.

Lemma rounds_sound (r1 : regex) (greedy : bool) (lo : nat) (hi : option nat)
  (k : mstate -> option mstate) (res : mstate)
  (IH : forall k' st,
      exec ic r1 k' st = Some res ->
      exists st', den ic r1 st st' /\ k' st' = Some res) :
  forall fuel cnt st0,
    within hi cnt ->
    rounds (exec ic r1) greedy lo hi k fuel cnt st0 = Some res ->
    exists n st', iter (den ic r1) n st0 st' /\ (lo <= cnt + n)%nat
                  /\ within hi (cnt + n) /\ k st' = Some res.
Proof.
  assert (Hstop : forall cnt st0, within hi cnt ->
            (if Nat.leb lo cnt then k st0 else None) = Some res ->
            exists n st', iter (den ic r1) n st0 st' /\ (lo <= cnt + n)%nat
                          /\ within hi (cnt + n) /\ k st' = Some res).
  { intros cnt st0 Hw H. destruct (Nat.leb lo cnt) eqn:E; [|discriminate].
    apply Nat.leb_le in E. exists 0%nat, st0. rewrite Nat.add_0_r.
    simpl. auto. }
  induction fuel as [|fuel IHf]; intros cnt st0 Hw H; simpl in H.
  - apply Hstop; assumption.
  - assert (Hmore :
      (if below hi cnt
       then exec ic r1 (fun st' => if Nat.ltb (pos st0) (pos st')
                                   then rounds (exec ic r1) greedy lo hi k
                                               fuel (S cnt) st'
                                   else None) st0
       else None) = Some res ->
      exists n st', iter (den ic r1) n st0 st' /\ (lo <= cnt + n)%nat
                    /\ within hi (cnt + n) /\ k st' = Some res).
    { intros Hm. destruct (below hi cnt) eqn:Eb; [|discriminate].
      apply IH in Hm. destruct Hm as (mid & Hden & Hk).
      destruct (Nat.ltb (pos st0) (pos mid)) eqn:El; [|discriminate].
      apply Nat.ltb_lt in El.
      assert (Hw' : within hi (S cnt)).
      { destruct hi as [h|]; simpl in *; [|exact I].
        apply Nat.ltb_lt in Eb. lia. }
      destruct (IHf _ _ Hw' Hk) as (n & st' & Hit & Hlo & Hhi & Hres).
      exists (S n), st'. rewrite Nat.add_succ_r.
      split; [|auto]. simpl. exists mid. auto. }
    destruct greedy; apply orelse_some in H; destruct H as [H|H]; auto.
Qed.

(** Whatever the matcher returns went through a match of the pattern. *)
Lemma exec_sound (r : regex) :
  forall k st res,
    exec ic r k st = Some res ->
    exists st', den ic r st st' /\ k st' = Some res.
Proof.
  induction r as [ |c|p| | | |r1 IH1 r2 IH2|r1 IH1 r2 IH2|g lo hi r1 IH1|n r1 IH1];
    intros k st res H; simpl in H.
  - exists st. simpl. auto.
  - apply one_sound in H. destruct H as (x & t & Hs & Hok & Hk).
    exists (advance x t st). simpl. split; [exists x, t|]; auto.
  - apply one_sound in H. destruct H as (x & t & Hs & Hok & Hk).
    exists (advance x t st). simpl. split; [exists x, t|]; auto.
  - destruct (m_pre st) eqn:E; [|discriminate]. exists st. simpl. auto.
  - exists st. simpl.
    destruct (m_suf st) as [|c [|c' t]] eqn:E; try discriminate; auto.
    destruct (Chr.eqb c Chr.nl) eqn:Ec; [|discriminate].
    apply Ascii.eqb_eq in Ec. subst c. auto.
  - destruct (xorb _ _) eqn:E; [|discriminate]. exists st. simpl. auto.
  - apply IH1 in H. destruct H as (mid & H1 & H).
    apply IH2 in H. destruct H as (st' & H2 & H).
    exists st'. simpl. split; [exists mid|]; auto.
  - apply orelse_some in H. destruct H as [H|H].
    + apply IH1 in H. destruct H as (st' & H1 & H). exists st'. simpl. auto.
    + apply IH2 in H. destruct H as (st' & H1 & H). exists st'. simpl. auto.
  - apply rounds_sound in H; [|intros; apply IH1; assumption|].
    + destruct H as (n & st' & Hit & Hlo & Hhi & Hk).
      exists st'. simpl. split; [exists n|]; auto.
    + destruct hi; simpl; [lia|exact I].
  - apply IH1 in H. destruct H as (mid & H1 & H).
    exists (set_cap n (consumed st mid) mid). simpl.
    split; [exists mid|]; auto.
Qed.

End Sound.

(** *** How a match moves through the subject *)

Lemma moved_refl (st : mstate) : moved [] st st.
Proof. split; reflexivity. Qed.

Lemma moved_trans (w1 w2 : str) (st1 st2 st3 : mstate) :
  moved w1 st1 st2 -> moved w2 st2 st3 -> moved (w1 ++ w2) st1 st3.
Proof.
  intros [P1 S1] [P2 S2]. split.
  - rewrite P2, P1, rev_app_distr, app_assoc. reflexivity.
  - rewrite S1, S2, app_assoc. reflexivity.
Qed.

Lemma moved_advance (x : ascii) (t : str) (st : mstate) :
  m_suf st = x :: t -> moved [x] st (advance x t st).
Proof. intros H. split; simpl; auto. Qed.

Lemma moved_set_cap (w : str) (n : nat) (x : str) (st st' : mstate) :
  moved w st st' -> moved w st (set_cap n x st').
Proof. intros [P S]. split; assumption. Qed.

Lemma moved_pos (w : str) (st st' : mstate) :
  moved w st st' -> pos st' = (List.length w + pos st)%nat.
Proof.
  intros [P _]. unfold pos. rewrite P, length_app, length_rev. reflexivity.
Qed.

Lemma consumed_moved (w : str) (st st' : mstate) :
  moved w st st' -> consumed st st' = w.
Proof.
  intros H. unfold consumed. rewrite (moved_pos _ _ _ H).
  destruct H as [P _]. rewrite P.
  replace (List.length w + pos st - pos st)%nat with (List.length (rev w) + 0)%nat
    by (rewrite length_rev; lia).
  rewrite firstn_app_2. simpl. rewrite app_nil_r. apply rev_involutive.
Qed.

Lemma iter_moved (R : mstate -> mstate -> Prop)
  (HR : forall st st', R st st' -> exists w, moved w st st') (n : nat) :
  forall st st', iter R n st st' -> exists w, moved w st st'.
Proof.
  induction n as [|n IH]; simpl; intros st st' H.
  - subst st'. exists []. apply moved_refl.
  - destruct H as (mid & H1 & _ & H2).
    destruct (HR _ _ H1) as [w1 M1]. destruct (IH _ _ H2) as [w2 M2].
    exists (w1 ++ w2). eapply moved_trans; eassumption.
Qed.

Lemma den_moved (ic : bool) (r : regex) :
  forall st st', den ic r st st' -> exists w, moved w st st'.
Proof.
  induction r as [ |c|p| | | |r1 IH1 r2 IH2|r1 IH1 r2 IH2|g lo hi r1 IH1|n r1 IH1];
    simpl; intros st st' H.
  - subst. exists []. apply moved_refl.
  - destruct H as (x & t & Hs & _ & ->). exists [x]. apply moved_advance, Hs.
  - destruct H as (x & t & Hs & _ & ->). exists [x]. apply moved_advance, Hs.
  - destruct H as [_ ->]. exists []. apply moved_refl.
  - destruct H as [_ ->]. exists []. apply moved_refl.
  - destruct H as [_ ->]. exists []. apply moved_refl.
  - destruct H as (mid & H1 & H2).
    destruct (IH1 _ _ H1) as [w1 M1]. destruct (IH2 _ _ H2) as [w2 M2].
    exists (w1 ++ w2). eapply moved_trans; eassumption.
  - destruct H as [H|H]; [apply IH1 | apply IH2]; assumption.
  - destruct H as (k & _ & _ & H). eapply iter_moved; eassumption.
  - destruct H as (mid & H1 & ->). destruct (IH1 _ _ H1) as [w M].
    exists w. apply moved_set_cap, M.
Qed.

(** Rounds of a class consume characters of the class and capture
    nothing. *)
Lemma iter_cls (ic : bool) (p : ascii -> bool) (n : nat) :
  forall st st',
    iter (den ic (Cls p)) n st st' ->
    exists w, moved w st st' /\ List.length w = n
              /\ Forall (fun x => cls_ok ic p x = true) w
              /\ m_caps st' = m_caps st.
Proof.
  induction n as [|n IH]; simpl; intros st st' H.
  - subst st'. exists []. repeat split; auto.
  - destruct H as (mid & (x & t & Hs & Hok & ->) & _ & H2).
    destruct (IH _ _ H2) as (w & M & L & F & C).
    exists (x :: w). split; [|split; [|split]].
    + apply (moved_trans [x] w _ _ _ (moved_advance _ _ _ Hs) M).
    + simpl. congruence.
    + constructor; assumption.
    + rewrite C. reflexivity.
Qed.

Lemma den_rep_cls (ic g : bool) (lo : nat) (hi : option nat)
  (p : ascii -> bool) (st st' : mstate) :
  den ic (Rep g lo hi (Cls p)) st st' ->
  exists w, moved w st st' /\ (lo <= List.length w)%nat
            /\ within hi (List.length w)
            /\ Forall (fun x => cls_ok ic p x = true) w
            /\ m_caps st' = m_caps st.
Proof.
  simpl. intros (n & Hlo & Hhi & H).
  destruct (iter_cls _ _ _ _ _ H) as (w & M & L & F & C).
  exists w. rewrite L. auto.
Qed.

(** A successful [match_at] and a successful [search] come from a match
    of the pattern at some position of the subject. *)
Lemma match_at_sound (ic : bool) (r : regex) (pre suf : str) (m : match_obj) :
  match_at ic r pre suf = Some m ->
  exists st', den ic r (MState pre suf []) st'
              /\ m = Match (List.length pre) (pos st') (m_caps st').
Proof.
  unfold match_at. intros H.
  destruct (exec ic r _ _) as [st|] eqn:E; [|discriminate].
  apply exec_sound in E. destruct E as (st' & D & K).
  injection K as ->. injection H as <-. exists st. auto.
Qed.

Lemma search_from_sound (ic : bool) (r : regex) (suf : str) :
  forall pre m,
    search_from ic r pre suf = Some m ->
    exists pre' suf',
      rev pre' ++ suf' = rev pre ++ suf /\ match_at ic r pre' suf' = Some m.
Proof.
  induction suf as [|c t IH]; intros pre m H; simpl in H.
  - destruct (match_at ic r pre []) eqn:E; [|discriminate].
    exists pre, []. split; congruence.
  - destruct (match_at ic r pre (c :: t)) eqn:E.
    + exists pre, (c :: t). split; congruence.
    + apply IH in H. destruct H as (pre' & suf' & Hx & Hm).
      exists pre', suf'. split; [|assumption].
      rewrite Hx. simpl. rewrite <- app_assoc. reflexivity.
Qed.

Lemma search_sound (ic : bool) (r : regex) (x : str) (m : match_obj) :
  search ic r x = Some m ->
  exists pre suf st',
    rev pre ++ suf = x /\ den ic r (MState pre suf []) st'
    /\ m_groups m = m_caps st'.
Proof.
  intros H. apply search_from_sound in H.
  destruct H as (pre & suf & Hx & Hm).
  apply match_at_sound in Hm. destruct Hm as (st' & D & ->).
  exists pre, suf, st'. auto.
Qed.

End ReFacts.

(** ** String methods *)

Module PyFacts.

Lemma lstrip_head (x : str) (c : ascii) (t : str) :
  Py.lstrip x = c :: t -> Chr.is_space c = false.
Proof.
  induction x as [|a x IH]; simpl; [discriminate|].
  destruct (Chr.is_space a) eqn:E; [exact IH|].
  intros H. injection H as <- _. exact E.
Qed.

Lemma lstrip_fixed (c : ascii) (t : str) :
  Chr.is_space c = false -> Py.lstrip (c :: t) = c :: t.
Proof. intros H. simpl. rewrite H. reflexivity. Qed.

Lemma rstrip_last (x y : str) (c : ascii) :
  Py.rstrip x = y ++ [c] -> Chr.is_space c = false.
Proof.
  unfold Py.rstrip. intros H.
  apply (f_equal (@rev ascii)) in H.
  rewrite rev_involutive, rev_app_distr in H. simpl in H.
  eapply lstrip_head; eassumption.
Qed.

(** A stripped string does not end with white space. *)
Lemma strip_last (x y : str) (c : ascii) :
  Py.strip x = y ++ [c] -> Chr.is_space c = false.
Proof. unfold Py.strip. apply rstrip_last. Qed.

Lemma rstrip_fixed (y : str) (c : ascii) :
  Chr.is_space c = false -> Py.rstrip (y ++ [c]) = y ++ [c].
Proof.
  intros H. unfold Py.rstrip. rewrite rev_app_distr. simpl.
  rewrite H. simpl. rewrite rev_involutive. reflexivity.
Qed.

(** A string with no white space at either end is its own [strip]. *)
Lemma strip_fixed (x : str) :
  (forall c t, x = c :: t -> Chr.is_space c = false) ->
  (forall y c, x = y ++ [c] -> Chr.is_space c = false) ->
  Py.strip x = x.
Proof.
  intros Hh Hl. unfold Py.strip.
  destruct x as [|c t]; [reflexivity|].
  rewrite (lstrip_fixed c t (Hh _ _ eq_refl)).
  destruct (exists_last (l := c :: t)) as (y & d & E); [discriminate|].
  rewrite E. apply rstrip_fixed. eapply Hl. exact E.
Qed.

Lemma digit_not_space (c : ascii) :
  Chr.is_digit c = true -> Chr.is_space c = false.
Proof.
  unfold Chr.is_digit, Chr.is_space, Chr.between.
  destruct (Chr.code c) as [|q]; intros H;
    repeat (rewrite ?andb_true_iff, ?orb_false_iff, ?andb_false_iff,
              ?N.leb_le, ?N.leb_gt, ?N.eqb_neq in *); lia.
Qed.

End PyFacts.

(** ** The page marker at the end of a buffer *)

Module PageFacts.

Import Re Sem ReFacts.

Lemma lit_exact (c x : ascii) : lit_ok false c x = true -> x = c.
Proof. simpl. intros H. apply Ascii.eqb_eq in H. congruence. Qed.

Lemma den_lit (c : ascii) (st st' : mstate) :
  den false (Lit c) st st' ->
  moved [c] st st' /\ m_caps st' = m_caps st.
Proof.
  simpl. intros (x & t & Hs & Hok & ->). apply lit_exact in Hok. subst x.
  split; [apply moved_advance, Hs | reflexivity].
Qed.

Lemma den_digits (lo hi : nat) (st st' : mstate) :
  den false (times lo hi digit) st st' ->
  exists w, moved w st st' /\ all_digits w
            /\ (lo <= List.length w <= hi)%nat /\ m_caps st' = m_caps st.
Proof.
  intros H. apply den_rep_cls in H.
  destruct H as (w & M & Hlo & Hhi & F & C). exists w. simpl in Hhi. auto.
Qed.

(** What the pattern of a page marker matches is a page marker. *)
Lemma den_page_token (st st' : mstate) :
  den false Pat.page_token st st' ->
  exists tok, moved tok st st' /\ is_page_token tok
              /\ m_caps st' = m_caps st.
Proof.
  unfold Pat.page_token, seq. cbn [den].
  intros (st1 & H1 & st2 & H2 & H3).
  apply den_digits in H1. destruct H1 as (a & Ma & Da & La & Ca).
  apply den_lit in H2. destruct H2 as (Ms & Cs).
  apply den_digits in H3. destruct H3 as (b & Mb & Db & Lb & Cb).
  exists (a ++ s "/" ++ b). split; [|split].
  - eapply moved_trans; [exact Ma|]. eapply moved_trans; eassumption.
  - exists a, b. auto.
  - congruence.
Qed.

Lemma page_token_ends (tok : str) :
  is_page_token tok ->
  (forall c t, tok = c :: t -> Chr.is_space c = false)
  /\ (forall y c, tok = y ++ [c] -> Chr.is_space c = false).
Proof.
  intros (a & b & -> & Da & Db & La & Lb). split.
  - intros c t E. destruct a as [|a0 a]; [simpl in La; lia|].
    injection E as <- _. apply PyFacts.digit_not_space.
    inversion Da; assumption.
  - intros y c E. destruct (exists_last (l := b)) as (b' & d & Eb).
    { intros ->. simpl in Lb. lia. }
    subst b. change (s "/") with ["/"%char] in E.
    rewrite !app_assoc in E. apply app_inj_tail in E. destruct E as [_ <-].
    apply PyFacts.digit_not_space.
    unfold all_digits in Db. rewrite Forall_app in Db.
    destruct Db as [_ Db]. inversion Db; assumption.
Qed.

Lemma strip_page_token (tok : str) : is_page_token tok -> Py.strip tok = tok.
Proof.
  intros H. destruct (page_token_ends _ H). apply PyFacts.strip_fixed; auto.
Qed.

(** A match of the pattern of [clean_line_and_extract_page]: the subject
    is some text, then the marker of group 2, then white space. *)
Lemma trailing_page_sound (x : str) (m : match_obj) :
  search false Pat.trailing_page x = Some m ->
  exists before tok sp,
    x = before ++ tok ++ sp /\ is_page_token tok /\ all_space sp
    /\ group 2 m = Some tok /\ exists g1, group 1 m = Some g1.
Proof.
  intros H. apply search_sound in H.
  destruct H as (pre & suf & st' & Hx & D & G).
  unfold Pat.trailing_page, seq in D. cbn [den] in D.
  destruct D as (st1 & (mid1 & D1 & ->) & st2 & (_ & ->) & st3
                 & (mid3 & D3 & ->) & st4 & (_ & ->) & st5 & D5 & De & ->).
  apply den_rep_cls in D1. destruct D1 as (g1 & M1 & _ & _ & _ & C1).
  apply den_page_token in D3. destruct D3 as (tok & M3 & T & C3).
  apply den_rep_cls in D5. destruct D5 as (sp & M5 & _ & _ & F5 & C5).
  pose proof (consumed_moved _ _ _ M3) as E3.
  pose proof (consumed_moved _ _ _ M1) as E1.
  destruct M1 as [P1 S1]. destruct M3 as [P3 S3]. destruct M5 as [P5 S5].
  simpl in *.
  exists (rev pre ++ g1), tok, (sp ++ m_suf st5). split; [|split; [|split; [|split]]].
  - rewrite <- Hx, S1, S3, S5, <- !app_assoc. reflexivity.
  - exact T.
  - unfold all_space. rewrite Forall_app. split; [exact F5|].
    destruct De as [-> | ->]; repeat constructor.
  - unfold group. rewrite G, C5. simpl. rewrite E3. reflexivity.
  - exists g1. unfold group. rewrite G, C5. simpl. rewrite C3. simpl.
    rewrite E1. reflexivity.
Qed.

(** The page returned by [clean_line_and_extract_page] is a page marker
    at the end of the trimmed text. *)
Lemma clean_line_page (text : str) (title : option str) (cleaned p : str) :
  clean_line_and_extract_page text title = (cleaned, Some p) ->
  is_page_token p /\ exists before, Py.strip text = before ++ p.
Proof.
  intros H. unfold clean_line_and_extract_page in H.
  destruct (Re.search false Pat.trailing_page (Py.strip text)) as [m|] eqn:E.
  - apply trailing_page_sound in E.
    destruct E as (before & tok & sp & Hx & T & F & G2 & g1 & G1).
    rewrite G2 in H. simpl in H. injection H as _ <-.
    rewrite (strip_page_token _ T). split; [exact T|].
    exists before. rewrite Hx. f_equal.
    destruct sp as [|c0 sp0]; [rewrite app_nil_r; reflexivity|].
    exfalso.
    destruct (exists_last (l := c0 :: sp0)) as (y & c & Ey); [discriminate|].
    rewrite Ey in Hx, F. rewrite !app_assoc in Hx.
    apply PyFacts.strip_last in Hx.
    unfold all_space in F. rewrite Forall_app in F. destruct F as [_ F].
    inversion F; congruence.
  - discriminate H.
Qed.

End PageFacts.

(** ** Integers read from matched digits *)

Module IntFacts.

Import Re Sem ReFacts.

Lemma digit_not_sign (c : ascii) :
  Chr.is_digit c = true ->
  Chr.eqb c "-" = false /\ Chr.eqb c "+" = false /\ Chr.eqb c "/" = false.
Proof.
  intros H. unfold Chr.eqb.
  split; [|split]; apply (proj2 (Ascii.eqb_neq _ _)); intros E; subst c;
    discriminate H.
Qed.

Lemma digit_not_int_space (c : ascii) :
  Chr.is_digit c = true -> Py.is_int_space c = false.
Proof.
  unfold Chr.is_digit, Py.is_int_space, Chr.between.
  destruct (Chr.code c) as [|q]; intros H;
    repeat (rewrite ?andb_true_iff, ?orb_false_iff, ?andb_false_iff,
              ?N.leb_le, ?N.leb_gt, ?N.eqb_neq in *); lia.
Qed.

Lemma digits_value_total (w : str) :
  all_digits w ->
  forall acc need, w <> [] \/ need = false ->
    exists v, Py.digits_value acc need w = Some v.
Proof.
  induction 1 as [|c w Hc Hw IH]; intros acc need Hn; simpl.
  - destruct Hn as [Hn | ->]; [congruence | eauto].
  - rewrite Hc. apply IH. right. reflexivity.
Qed.

(** [int] succeeds on a non-empty string of digits. *)
Lemma int_digits (w : str) :
  all_digits w -> w <> [] -> exists v, Py.int w = Some v.
Proof.
  intros Hd Hn. unfold Py.int.
  assert (E : Py.int_strip w = w).
  { unfold Py.int_strip.
    assert (L : forall c t, Chr.is_digit c = true ->
                            Py.int_lstrip (c :: t) = c :: t).
    { intros c t Hc. simpl. rewrite (digit_not_int_space c Hc). reflexivity. }
    destruct w as [|c t]; [congruence|].
    rewrite L by (inversion Hd; assumption).
    destruct (exists_last (l := c :: t)) as (y & d & Ey); [discriminate|].
    rewrite Ey in *. rewrite rev_app_distr.
    change (rev [d] ++ rev y) with (d :: rev y). rewrite L.
    - simpl. rewrite rev_involutive. reflexivity.
    - unfold all_digits in Hd. rewrite Forall_app in Hd.
      destruct Hd as [_ Hd]. inversion Hd; assumption. }
  rewrite E. destruct w as [|c t]; [congruence|].
  assert (Hc : Chr.is_digit c = true) by (inversion Hd; assumption).
  destruct (digit_not_sign c Hc) as (-> & -> & _).
  apply digits_value_total; auto.
Qed.

Lemma den_plus_digit (st st' : mstate) :
  den false (plus digit) st st' ->
  exists w, moved w st st' /\ all_digits w /\ w <> []
            /\ m_caps st' = m_caps st.
Proof.
  intros H. apply den_rep_cls in H.
  destruct H as (w & M & Hlo & _ & F & C). exists w.
  split; [exact M|]. split; [exact F|]. split; [|exact C].
  intros ->. simpl in Hlo. lia.
Qed.

Lemma den_group_digits (st st' : mstate) :
  den false (Grp 1 (plus digit)) st st' ->
  exists w, lookup 1 (m_caps st') = Some w /\ all_digits w /\ w <> [].
Proof.
  cbn [den]. intros (mid & D & ->). apply den_plus_digit in D.
  destruct D as (w & M & Hd & Hn & _). exists w.
  simpl. rewrite (consumed_moved _ _ _ M). auto.
Qed.

(** The first group of the season and of the episode pattern is a
    non-empty string of digits. *)
Lemma season_group (x : str) (m : match_obj) :
  search false Pat.season x = Some m ->
  exists w, group 1 m = Some w /\ all_digits w /\ w <> [].
Proof.
  intros H. apply search_sound in H. destruct H as (pre & suf & st' & _ & D & G).
  unfold Pat.season, seq in D. cbn [den] in D.
  destruct D as (st1 & _ & mid & D & ->).
  unfold group. rewrite G.
  apply (den_group_digits st1). cbn [den]. exists mid. auto.
Qed.

Lemma episode_group (x : str) (m : match_obj) :
  search false Pat.episode x = Some m ->
  exists w, group 1 m = Some w /\ all_digits w /\ w <> [].
Proof.
  intros H. apply search_sound in H. destruct H as (pre & suf & st' & _ & D & G).
  unfold Pat.episode, seq in D. cbn [den] in D.
  destruct D as (st1 & _ & st2 & _ & mid & D & ->).
  unfold group. rewrite G.
  apply (den_group_digits st2). cbn [den]. exists mid. auto.
Qed.

Lemma group_int_total (r : regex) (x : str) :
  (forall m, search false r x = Some m ->
             exists w, group 1 m = Some w /\ all_digits w /\ w <> []) ->
  exists v, group_int r x = Some v.
Proof.
  intros Hg. unfold group_int.
  destruct (search false r x) as [m|]; [|eauto].
  destruct (Hg m eq_refl) as (w & -> & Hd & Hn).
  destruct (int_digits w Hd Hn) as [v ->]. simpl. eauto.
Qed.

Lemma season_int_total (x : str) : exists v, group_int Pat.season x = Some v.
Proof. apply group_int_total. intros m. apply season_group. Qed.

Lemma episode_int_total (x : str) : exists v, group_int Pat.episode x = Some v.
Proof. apply group_int_total. intros m. apply episode_group. Qed.

(** The numerator of a page marker is read without error. *)
Lemma split_from_digits (a : str) :
  all_digits a ->
  forall cur rest,
    Py.split_from "/" cur (a ++ "/"%char :: rest)
    = (rev cur ++ a) :: Py.split_from "/" [] rest.
Proof.
  induction 1 as [|c a Hc Ha IH]; intros cur rest; simpl.
  - rewrite app_nil_r. reflexivity.
  - destruct (digit_not_sign c Hc) as (_ & _ & ->).
    rewrite IH. simpl. rewrite <- app_assoc. reflexivity.
Qed.

Lemma page_numerator_total (tok : str) :
  is_page_token tok -> exists v, page_numerator tok = Some v.
Proof.
  intros (a & b & -> & Da & _ & La & _). unfold page_numerator, Py.split.
  change (s "/" ++ b) with ("/"%char :: b).
  rewrite (split_from_digits a Da). simpl.
  apply int_digits; [exact Da|]. intros ->. simpl in La. lia.
Qed.

Lemma map_opt_total {A B : Type} (f : A -> option B) (l : list A) :
  Forall (fun a => exists b, f a = Some b) l ->
  exists bs, map_opt f l = Some bs /\ List.length bs = List.length l.
Proof.
  induction 1 as [|a l [b Hb] Hl (bs & IH & L)]; simpl.
  - exists []. auto.
  - rewrite Hb, IH. simpl. exists (b :: bs). simpl. auto.
Qed.

Lemma set_add_forall (P : str -> Prop) (x : str) (l : list str) :
  P x -> Forall P l -> Forall P (Py.set_add x l).
Proof.
  intros Hx Hl. unfold Py.set_add. destruct (Py.set_mem x l); [exact Hl|].
  rewrite Forall_app. auto.
Qed.

Lemma page_group (x : str) (m : match_obj) :
  search false Pat.page x = Some m ->
  exists tok, group 1 m = Some tok /\ is_page_token tok.
Proof.
  intros H. apply search_sound in H. destruct H as (pre & suf & st' & _ & D & G).
  unfold Pat.page, seq in D. cbn [den] in D.
  destruct D as (st1 & (_ & ->) & st2 & (mid & D & ->) & _ & ->).
  apply PageFacts.den_page_token in D. destruct D as (tok & M & T & _).
  exists tok. unfold group. rewrite G. simpl.
  rewrite (consumed_moved _ _ _ M). auto.
Qed.

Lemma page_tokens_ok (lines : list str) :
  Forall is_page_token (page_tokens lines).
Proof.
  unfold page_tokens.
  assert (H : forall acc, Forall is_page_token acc ->
            Forall is_page_token
              (fold_left (fun acc l =>
                 match search false Pat.page l with
                 | Some m => match group 1 m with
                             | Some g => Py.set_add g acc
                             | None => acc
                             end
                 | None => acc
                 end) lines acc)).
  { induction lines as [|l lines IH]; intros acc Hacc; simpl; [exact Hacc|].
    apply IH. destruct (search false Pat.page l) as [m|] eqn:E; [|exact Hacc].
    destruct (page_group _ _ E) as (tok & -> & T).
    apply set_add_forall; assumption. }
  apply H. constructor.
Qed.

Lemma max_page_total (pages : list str) :
  Forall is_page_token pages -> exists v, max_page pages = Some v.
Proof.
  intros H. unfold max_page. destruct pages as [|p pages]; [eauto|].
  destruct (map_opt_total page_numerator (p :: pages)) as (bs & -> & L).
  { eapply Forall_impl; [|exact H]. apply page_numerator_total. }
  simpl. destruct bs; [discriminate L | eauto].
Qed.

(** [extract_episode_metadata] raises no exception. *)
Lemma extract_episode_metadata_total (text pdf_path : str) :
  exists md, extract_episode_metadata text pdf_path = Some md.
Proof.
  unfold extract_episode_metadata.
  destruct (season_int_total (Py.basename pdf_path)) as [se ->].
  destruct (episode_int_total (Py.basename pdf_path)) as [ep ->].
  destruct (max_page_total _ (page_tokens_ok (Py.splitlines text))) as [v ->].
  simpl. eauto.
Qed.

(** No credit is found in no line. *)
Lemma routed_nil (keep : str -> bool) : routed keep [] = [].
Proof.
  unfold routed, Pat.writer_patterns. simpl.
  repeat destruct (keep _); reflexivity.
Qed.

End IntFacts.

(** ** The loop of the parser *)

Module ParseFacts.

(** One round of the loop, by the kind of the line. *)
Lemma parse_line_cases (md : metadata) (st : pstate) (i : nat) (raw : str) :
  parse_line md st (i, raw)
  = let lineno := Z.of_nat i + 1 in
    match classify (Py.strip raw) with
    | KSkip => st
    | KHeading name =>
        PState (after_heading st)
               (new_scene name (scene_counter st + 1) (episode_title md)
                          (Some lineno))
               None [] (scene_counter st + 1)
    | KDirection =>
        PState (script_data st)
               (add_direction (Direction (Py.strip raw) lineno)
                              (current_scene st))
               (current_speaker st) (buffer st) (scene_counter st)
    | KSpeaker name text =>
        PState (script_data st) (add_character name (flush md lineno st))
               (Some name) text (scene_counter st)
    | KOther =>
        if Py.truthy_opt (current_speaker st)
        then PState (script_data st) (current_scene st) (current_speaker st)
                    (buffer st ++ s " " ++ Py.strip raw) (scene_counter st)
        else st
    end.
Proof.
  unfold parse_line, classify, after_heading.
  destruct (negb (Py.truthy (Py.strip raw))); [reflexivity|].
  destruct (is_noise (Py.strip raw)); [reflexivity|].
  destruct (is_date (Py.strip raw)); [reflexivity|].
  destruct (Py.startswith (Py.strip raw) (s "[Scene:")); [reflexivity|].
  destruct (Py.startswith (Py.strip raw) (s "[")
            || Py.startswith (Py.strip raw) (s "(")); [reflexivity|].
  destruct (Re.rmatch false Pat.speaker (Py.strip raw)) as [m|]; [|reflexivity].
  destruct (Re.group 1 m), (Re.group 2 m); reflexivity.
Qed.

(** A property of the state that every round preserves holds after the
    loop; [P i] speaks of the state once the first [i] lines are read. *)
Lemma parse_loop_inv (md : metadata) (lines : list str)
  (P : nat -> pstate -> Prop) :
  P 0%nat (init_state md) ->
  (forall i raw st,
     nth_error lines i = Some raw -> P i st ->
     P (S i) (parse_line md st (i, raw))) ->
  P (List.length lines) (parse_loop md lines).
Proof.
  intros H0 Hstep. unfold parse_loop.
  assert (H : forall l p st,
             lines = p ++ l -> P (List.length p) st ->
             P (List.length lines)
               (fold_left (parse_line md)
                          (enumerate_from (List.length p) l) st)).
  { induction l as [|raw l IH]; intros p st E HP; simpl.
    - rewrite E, app_nil_r. exact HP.
    - replace (S (List.length p)) with (List.length (p ++ [raw]))
        by (rewrite length_app; simpl; lia).
      apply IH.
      + rewrite E, <- app_assoc. reflexivity.
      + rewrite length_app. simpl. rewrite Nat.add_1_r. apply Hstep; [|exact HP].
        rewrite E, nth_error_app2, Nat.sub_diag by lia. reflexivity. }
  apply (H lines [] (init_state md)); [reflexivity | exact H0].
Qed.

(** A line that starts with "[Scene:" is no date line. *)
Lemma heading_not_date (l : str) :
  Py.startswith l (s "[Scene:") = true -> is_date l = false.
Proof.
  destruct l as [|c l]; [discriminate|]. intros H.
  change (Chr.eqb "[" c && Py.startswith l (s "Scene:") = true) in H.
  apply andb_true_iff in H. destruct H as [E _].
  apply Ascii.eqb_eq in E. subst c. reflexivity.
Qed.

Lemma heading_truthy (l : str) :
  Py.startswith l (s "[Scene:") = true -> Py.truthy l = true.
Proof. destruct l; [discriminate | reflexivity]. Qed.

Lemma classify_heading (l : str) :
  Py.startswith l (s "[Scene:") = true -> is_noise l = false ->
  exists name, classify l = KHeading name.
Proof.
  intros H N. unfold classify.
  rewrite (heading_truthy _ H), N, (heading_not_date _ H), H. simpl. eauto.
Qed.

(** *** The flush of the buffer *)

Lemma flush_cases (md : metadata) (n : Z) (st : pstate) :
  flush md n st = current_scene st
  \/ exists sp, current_speaker st = Some sp /\ Py.truthy (buffer st) = true
                /\ flush md n st
                   = add_entry (make_entry md sp (buffer st) n)
                               (current_scene st).
Proof.
  unfold flush. destruct (current_speaker st) as [sp|]; [|auto].
  destruct (Py.truthy sp); [|auto].
  destruct (Py.truthy (buffer st)); simpl; eauto.
Qed.

Lemma flush_scene_number (md : metadata) (n : Z) (st : pstate) :
  scene_number (flush md n st) = scene_number (current_scene st).
Proof.
  destruct (flush_cases md n st) as [-> | (sp & _ & _ & ->)]; reflexivity.
Qed.

Lemma flush_start (md : metadata) (n : Z) (st : pstate) :
  line_number_start (flush md n st) = line_number_start (current_scene st).
Proof.
  destruct (flush_cases md n st) as [-> | (sp & _ & _ & ->)]; reflexivity.
Qed.

Lemma flush_characters (md : metadata) (n : Z) (st : pstate) :
  characters (flush md n st) = characters (current_scene st).
Proof.
  destruct (flush_cases md n st) as [-> | (sp & _ & _ & ->)]; reflexivity.
Qed.

Lemma make_entry_speaker (md : metadata) (sp buf : str) (n : Z) :
  speaker (make_entry md sp buf n) = sp.
Proof.
  unfold make_entry. destruct (clean_line_and_extract_page _ _). reflexivity.
Qed.

Lemma make_entry_line_number (md : metadata) (sp buf : str) (n : Z) :
  line_number (make_entry md sp buf n) = n.
Proof.
  unfold make_entry. destruct (clean_line_and_extract_page _ _). reflexivity.
Qed.

(** The scenes returned are the emitted ones, then the open one if the
    final flush happens. *)
Lemma finish_cases (md : metadata) (n : nat) (st : pstate) :
  finish md n st = script_data st
  \/ finish md n st = script_data st ++ [flush md (Z.of_nat n) st].
Proof.
  unfold finish.
  destruct (Py.truthy_opt (current_speaker st) && Py.truthy (buffer st)); auto.
Qed.

(** *** Scene numbers *)

Lemma headings_snoc (l : list str) (raw : str) :
  headings (l ++ [raw])
  = headings l + (if is_heading raw then 1 else 0).
Proof.
  unfold headings. rewrite filter_app, length_app. simpl.
  destruct (is_heading raw); simpl; lia.
Qed.

Lemma firstn_succ_nth (lines : list str) (i : nat) (raw : str) :
  nth_error lines i = Some raw -> firstn (S i) lines = firstn i lines ++ [raw].
Proof.
  revert i. induction lines as [|x lines IH]; intros [|i] H; simpl in *;
    try discriminate.
  - injection H as ->. reflexivity.
  - rewrite (IH _ H). reflexivity.
Qed.

Lemma sorted_snoc (l : list Z) (x : Z) :
  StronglySorted Z.lt l -> Forall (fun y => y < x) l ->
  StronglySorted Z.lt (l ++ [x]).
Proof.
  induction 1 as [|y l Hs IH Hy]; intros Hx; simpl.
  - repeat constructor.
  - inversion Hx; subst. constructor; [auto|].
    rewrite Forall_app. split; [exact Hy | repeat constructor; assumption].
Qed.

Lemma numbers_inv_step (md : metadata) (lines : list str) (i : nat)
  (raw : str) (st : pstate) :
  nth_error lines i = Some raw -> numbers_inv lines i st ->
  numbers_inv lines (S i) (parse_line md st (i, raw)).
Proof.
  intros Hn (Hc & Hh & Hs & Hlt & Hnum).
  assert (Hh' : headings (firstn (S i) lines)
                = scene_counter st + (if is_heading raw then 1 else 0)).
  { rewrite (firstn_succ_nth _ _ _ Hn), headings_snoc, Hh. reflexivity. }
  unfold scenes_of in Hnum. rewrite Forall_app in Hnum.
  destruct Hnum as [Hnd Hnc]. inversion Hnc as [|? ? Hnc' _]; subst.
  rewrite parse_line_cases. unfold is_heading in Hh'. cbv zeta.
  unfold numbers_inv, scenes_of.
  destruct (classify (Py.strip raw)) as [|name| |name text|] eqn:K;
    cbn [script_data current_scene scene_counter].
  - rewrite Hh', Z.add_0_r. repeat split; auto.
    rewrite Forall_app. auto.
  - assert (Ha : Forall (fun sc => scene_number sc < scene_counter st + 1)
                        (after_heading st)).
    { unfold after_heading. destruct (_ || _).
      - rewrite Forall_app. split.
        + eapply Forall_impl; [|exact Hlt]. simpl. intros; lia.
        + repeat constructor. lia.
      - eapply Forall_impl; [|exact Hlt]. simpl. intros; lia. }
    repeat split; auto.
    + unfold after_heading. destruct (_ || _); [|exact Hs].
      rewrite map_app. simpl. apply sorted_snoc; [exact Hs|].
      rewrite Forall_map, Hc. exact Hlt.
    + rewrite Forall_app. split.
      * unfold after_heading. destruct (_ || _); [|exact Hnd].
        rewrite Forall_app. auto.
      * repeat constructor. unfold numbered. simpl.
        exists i, raw. unfold is_heading. rewrite K. repeat split; auto.
  - rewrite Hh', Z.add_0_r. repeat split; auto.
    rewrite Forall_app. split; [exact Hnd|]. repeat constructor. exact Hnc'.
  - rewrite Hh', Z.add_0_r. simpl. rewrite flush_scene_number.
    repeat split; auto.
    rewrite Forall_app. split; [exact Hnd|]. repeat constructor.
    unfold numbered in *. simpl. rewrite flush_scene_number, flush_start.
    exact Hnc'.
  - rewrite Hh', Z.add_0_r.
    destruct (Py.truthy_opt (current_speaker st));
      cbn [script_data current_scene scene_counter];
      repeat split; auto; rewrite Forall_app; auto.
Qed.

Lemma numbers_inv_loop (md : metadata) (lines : list str) :
  numbers_inv lines (List.length lines) (parse_loop md lines).
Proof.
  apply parse_loop_inv.
  - unfold numbers_inv, scenes_of. simpl.
    repeat split; try constructor; try reflexivity. constructor.
  - intros i raw st. apply numbers_inv_step.
Qed.

(** *** Characters and pages *)

Lemma str_eqb_eq (a b : str) : str_eqb a b = true <-> a = b.
Proof.
  unfold str_eqb. destruct (list_eq_dec ascii_dec a b); split; congruence.
Qed.

Lemma set_mem_in (x : str) (l : list str) : Py.set_mem x l = true <-> In x l.
Proof.
  unfold Py.set_mem. rewrite existsb_exists. split.
  - intros (y & Hy & E). apply str_eqb_eq in E. subst. exact Hy.
  - intros H. exists x. split; [exact H | apply str_eqb_eq; reflexivity].
Qed.

Lemma set_add_in (x y : str) (l : list str) :
  In y (Py.set_add x l) <-> y = x \/ In y l.
Proof.
  unfold Py.set_add. destruct (Py.set_mem x l) eqn:E.
  - apply set_mem_in in E. split; [auto|]. intros [-> | H]; assumption.
  - rewrite in_app_iff. simpl. split; intros [H | H]; auto.
    + destruct H as [-> | []]. auto.
Qed.

Lemma set_update_in (y : str) (xs l : list str) :
  In y (Py.set_update l xs) <-> In y l \/ In y xs.
Proof.
  unfold Py.set_update. revert l.
  induction xs as [|x xs IH]; intros l; simpl.
  - tauto.
  - rewrite IH, set_add_in. intuition (subst; auto).
Qed.

(** The union of a field over the scenes, as the statistics build it. *)
Lemma union_in (f : scene -> list str) (y : str) (data : list scene) :
  forall acc,
    In y (fold_left (fun acc sc => Py.set_update acc (f sc)) data acc)
    <-> In y acc \/ exists sc, In sc data /\ In y (f sc).
Proof.
  induction data as [|sc data IH]; intros acc; simpl.
  - split; [auto|]. intros [H | (sc & [] & _)]. exact H.
  - rewrite IH, set_update_in. split.
    + intros [[H | H] | (sc' & H1 & H2)]; eauto.
    + intros [H | (sc' & [-> | H1] & H2)]; eauto.
Qed.

Lemma add_entry_speakers (e : entry) (sc : scene) :
  speakers_in sc -> In (speaker e) (characters sc) ->
  speakers_in (add_entry e sc).
Proof.
  intros H He e'. simpl. rewrite in_app_iff. simpl.
  intros [H' | [<- | []]]; auto.
Qed.

Lemma add_entry_pages (e : entry) (sc : scene) :
  pages_ok sc ->
  (forall p, page_number e = Some p -> is_page_token p) ->
  pages_ok (add_entry e sc).
Proof.
  unfold pages_ok. simpl. intros H He.
  destruct (page_number e) as [p|]; [|exact H].
  apply IntFacts.set_add_forall; auto.
Qed.

Lemma make_entry_page (md : metadata) (sp buf : str) (n : Z) (p : str) :
  page_number (make_entry md sp buf n) = Some p -> is_page_token p.
Proof.
  unfold make_entry.
  destruct (clean_line_and_extract_page _ _) as [c [q|]] eqn:E; simpl.
  - destruct (Py.truthy q); [|discriminate]. intros H. injection H as <-.
    apply (PageFacts.clean_line_page _ _ _ _ E).
  - discriminate.
Qed.

Lemma flush_keeps (md : metadata) (n : Z) (st : pstate) :
  speakers_in (current_scene st) -> pages_ok (current_scene st) ->
  (forall sp, current_speaker st = Some sp ->
              In sp (characters (current_scene st))) ->
  speakers_in (flush md n st) /\ pages_ok (flush md n st).
Proof.
  intros Hs Hp Hc.
  destruct (flush_cases md n st) as [-> | (sp & E & _ & ->)]; [auto|].
  split.
  - apply add_entry_speakers; [exact Hs|].
    rewrite make_entry_speaker. auto.
  - apply add_entry_pages; [exact Hp|]. apply make_entry_page.
Qed.

Lemma Forall_scenes_of (P : scene -> Prop) (st : pstate) :
  Forall P (scenes_of st) <-> Forall P (script_data st) /\ P (current_scene st).
Proof.
  unfold scenes_of. rewrite Forall_app. split; intros [H1 H2]; split; auto.
  inversion H2; assumption.
Qed.

Lemma Forall_after_heading (P : scene -> Prop) (st : pstate) :
  Forall P (script_data st) -> P (current_scene st) ->
  Forall P (after_heading st).
Proof.
  intros H1 H2. unfold after_heading. destruct (_ || _); [|exact H1].
  rewrite Forall_app. auto.
Qed.

Lemma chars_inv_step (md : metadata) (st : pstate) (i : nat) (raw : str) :
  chars_inv st -> chars_inv (parse_line md st (i, raw)).
Proof.
  unfold chars_inv. rewrite !Forall_scenes_of.
  intros ((Hsd & Hsc) & (Hpd & Hpc) & Hc).
  rewrite parse_line_cases. cbv zeta.
  destruct (classify (Py.strip raw)) as [|name| |name text|].
  - auto.
  - cbn [script_data current_scene current_speaker].
    repeat split; try (apply Forall_after_heading; assumption).
    + intros e [].
    + constructor.
    + discriminate.
  - cbn [script_data current_scene current_speaker]. repeat split; auto.
  - cbn [script_data current_scene current_speaker].
    destruct (flush_keeps md (Z.of_nat i + 1) st Hsc Hpc Hc) as [Hfs Hfp].
    repeat split; auto.
    + intros e He. simpl in *. apply set_add_in. right. apply Hfs, He.
    + intros sp E. injection E as <-. simpl. apply set_add_in. auto.
  - destruct (Py.truthy_opt (current_speaker st));
      cbn [script_data current_scene current_speaker]; auto.
Qed.

Lemma chars_inv_loop (md : metadata) (lines : list str) :
  chars_inv (parse_loop md lines).
Proof.
  apply (parse_loop_inv md lines (fun _ => chars_inv)).
  - unfold chars_inv, scenes_of. simpl. repeat split.
    + repeat constructor. intros e [].
    + repeat constructor.
    + discriminate.
  - intros i raw st _. apply chars_inv_step.
Qed.

(** In every scene that the parser returns the speakers are among the
    characters and the page numbers are page markers. *)
Lemma parse_scenes_ok (text : str) (md : metadata) :
  Forall speakers_in (parse_friends_script text md)
  /\ Forall pages_ok (parse_friends_script text md).
Proof.
  unfold parse_friends_script.
  destruct (chars_inv_loop md (Py.splitlines text)) as (Hs & Hp & Hc).
  rewrite Forall_scenes_of in Hs, Hp.
  destruct Hs as [Hsd Hsc]. destruct Hp as [Hpd Hpc].
  destruct (finish_cases md (List.length (Py.splitlines text))
              (parse_loop md (Py.splitlines text))) as [-> | ->]; [auto|].
  destruct (flush_keeps md (Z.of_nat (List.length (Py.splitlines text)))
              _ Hsc Hpc Hc).
  rewrite !Forall_app. repeat split; auto.
Qed.

(** *** The line recorded in an entry *)

Lemma started_next (lines : list str) (name : str) (start i : nat)
  (raw : str) :
  nth_error lines i = Some raw ->
  speaker_line raw = None -> is_heading raw = false ->
  started lines name start i -> started lines name start (S i).
Proof.
  intros Hn Hs Hh (raw0 & H0 & Hs0 & Hlt & Hq).
  exists raw0. split; [exact H0|]. split; [exact Hs0|]. split; [lia|].
  intros j r Hj Hr. destruct (Nat.eq_dec j i) as [-> | Hne].
  - rewrite Hn in Hr. injection Hr as <-. auto.
  - apply (Hq j r); [lia | exact Hr].
Qed.

Lemma flush_entries (md : metadata) (n : Z) (st : pstate)
  (P : entry -> Prop) :
  Forall P (dialogue (current_scene st)) ->
  (forall sp e, current_speaker st = Some sp -> speaker e = sp ->
                line_number e = n -> P e) ->
  Forall P (dialogue (flush md n st)).
Proof.
  intros H He.
  destruct (flush_cases md n st) as [-> | (sp & E & _ & ->)]; [exact H|].
  simpl. rewrite Forall_app. split; [exact H|]. repeat constructor.
  apply (He sp); [exact E | apply make_entry_speaker
                  | apply make_entry_line_number].
Qed.

Lemma entries_inv_step (md : metadata) (lines : list str) (i : nat)
  (raw : str) (st : pstate) :
  nth_error lines i = Some raw -> entries_inv lines i st ->
  entries_inv lines (S i) (parse_line md st (i, raw)).
Proof.
  unfold entries_inv. rewrite !Forall_scenes_of.
  intros Hn ((Hd & Hc) & Hsp).
  assert (Hkeep : speaker_line raw = None -> is_heading raw = false ->
            forall sp, current_speaker st = Some sp ->
                       exists start, started lines sp start (S i)).
  { intros Hs Hh sp E. destruct (Hsp sp E) as [start Hst].
    exists start. eapply started_next; eassumption. }
  rewrite parse_line_cases. cbv zeta.
  unfold speaker_line, is_heading in Hkeep.
  destruct (classify (Py.strip raw)) as [|name| |name text|] eqn:K.
  - auto.
  - cbn [script_data current_scene current_speaker].
    repeat split; [apply Forall_after_heading; assumption | constructor
                   | discriminate].
  - cbn [script_data current_scene current_speaker]. auto.
  - cbn [script_data current_scene current_speaker]. repeat split; auto.
    + simpl. apply flush_entries; [exact Hc|].
      intros sp e E Hes Hel. destruct (Hsp sp E) as [start Hst].
      exists start, i, raw. rewrite Hes.
      split; [exact Hst|]. split; [exact Hn|]. split; [|exact Hel].
      unfold speaker_line. rewrite K. discriminate.
    + intros sp E. injection E as <-. exists i, raw.
      unfold speaker_line. rewrite K.
      split; [exact Hn|]. split; [reflexivity|]. split; [lia|].
      intros j r Hj. lia.
  - destruct (Py.truthy_opt (current_speaker st));
      cbn [script_data current_scene current_speaker]; auto.
Qed.

Lemma entries_inv_loop (md : metadata) (lines : list str) :
  entries_inv lines (List.length lines) (parse_loop md lines).
Proof.
  apply parse_loop_inv.
  - unfold entries_inv, scenes_of. simpl. split; [repeat constructor|].
    discriminate.
  - intros i raw st. apply entries_inv_step.
Qed.

End ParseFacts.

(** ** The scrubber and the statistics on the scenes of the parser *)

Module StatFacts.

Lemma scrub_entry_speaker (t : str) (e : entry) :
  speaker (fst (scrub_entry t e)) = speaker e.
Proof.
  unfold scrub_entry. destruct (str_eqb _ _); reflexivity.
Qed.

Lemma scrub_scene_speakers (t : str) (sc : scene) :
  speakers_in sc -> speakers_in (fst (scrub_scene t sc)).
Proof.
  unfold speakers_in. simpl. intros H e He.
  rewrite map_map in He. apply in_map_iff in He.
  destruct He as (e0 & <- & He0). rewrite scrub_entry_speaker. auto.
Qed.

Lemma scrub_scene_pages (t : str) (sc : scene) :
  pages_ok sc -> pages_ok (fst (scrub_scene t sc)).
Proof. intros H. exact H. Qed.

(** The scrubber keeps the two properties of the scenes. *)
Lemma scrub_keeps (P : scene -> Prop)
  (HP : forall t sc, P sc -> P (fst (scrub_scene t sc)))
  (data : list scene) (title : option str) :
  Forall P data ->
  Forall P (fst (clean_episode_title_from_dialogue data title)).
Proof.
  intros H. unfold clean_episode_title_from_dialogue.
  destruct title as [t|]; [|exact H].
  destruct (Py.truthy t); [|exact H]. simpl.
  rewrite map_map, Forall_map. eapply Forall_impl; [|exact H].
  intros sc. apply HP.
Qed.

Lemma all_pages_ok (data : list scene) :
  Forall pages_ok data -> Forall is_page_token (all_pages data).
Proof.
  intros H. apply Forall_forall. intros p Hp. unfold all_pages in Hp.
  apply (ParseFacts.union_in page_numbers) in Hp.
  destruct Hp as [[] | (sc & Hsc & Hp)].
  rewrite Forall_forall in H. specialize (H sc Hsc).
  unfold pages_ok in H. rewrite Forall_forall in H. auto.
Qed.

(** The statistics raise no exception when the page numbers of the scenes
    are page markers, and their two sets of characters are the unions they
    are built as. *)
Lemma statistics_total (data : list scene) :
  Forall pages_ok data ->
  exists st,
    calculate_script_statistics data = Some st
    /\ unique_characters st
       = fold_left (fun acc sc => Py.set_update acc (characters sc)) data []
    /\ speaking_characters st
       = fold_left (fun acc sc =>
                      Py.set_update acc (map speaker (dialogue sc))) data [].
Proof.
  intros H. unfold calculate_script_statistics.
  destruct (IntFacts.map_opt_total page_numerator (all_pages data))
    as (nums & -> & _).
  { eapply Forall_impl; [|exact (all_pages_ok data H)].
    apply IntFacts.page_numerator_total. }
  cbn [opt_bind]. eexists. split; [reflexivity|]. split; reflexivity.
Qed.

(** Every speaking character is a unique character. *)
Lemma speaking_in_unique (data : list scene) (c : str) :
  Forall speakers_in data ->
  In c (fold_left (fun acc sc =>
                     Py.set_update acc (map speaker (dialogue sc))) data []) ->
  In c (fold_left (fun acc sc => Py.set_update acc (characters sc)) data []).
Proof.
  intros H Hc.
  apply (ParseFacts.union_in (fun sc => map speaker (dialogue sc))) in Hc.
  apply (ParseFacts.union_in characters).
  destruct Hc as [[] | (sc & Hsc & Hc)]. right. exists sc. split; [exact Hsc|].
  apply in_map_iff in Hc. destruct Hc as (e & <- & He).
  rewrite Forall_forall in H. apply (H sc Hsc). exact He.
Qed.

(** The pipeline raises no exception; its scenes are those of the
    scrubber and its statistics those of these scenes. *)
Lemma run_pipeline_total (text pdf_path : str) :
  exists md st,
    extract_episode_metadata text pdf_path = Some md
    /\ let data := fst (clean_episode_title_from_dialogue
                          (parse_friends_script text md) (episode_title md)) in
       calculate_script_statistics data = Some st
       /\ Forall speakers_in data
       /\ exists info, run_pipeline text pdf_path
                       = Some (FullData md st data info).
Proof.
  destruct (IntFacts.extract_episode_metadata_total text pdf_path) as [md E].
  destruct (ParseFacts.parse_scenes_ok text md) as [Hs Hp].
  pose proof (scrub_keeps _ scrub_scene_speakers _ (episode_title md) Hs) as Hs'.
  pose proof (scrub_keeps _ scrub_scene_pages _ (episode_title md) Hp) as Hp'.
  destruct (statistics_total _ Hp') as (st & Est & _).
  exists md, st. split; [exact E|]. cbv zeta. split; [exact Est|].
  split; [exact Hs'|].
  unfold run_pipeline. rewrite E. cbn [opt_bind].
  destruct (clean_episode_title_from_dialogue _ _) as [data n].
  simpl in Est. rewrite Est. cbn [opt_bind]. eexists. reflexivity.
Qed.

End StatFacts.

(** ** Substitutions of the scrubber *)

Module ScrubFacts.

Import Re.

(** Where the pattern is found nowhere, [re.sub] returns its subject. *)
Lemma sub_from_none (ic : bool) (r : regex) (repl : str) (suf : str) :
  forall pre fuel,
    search_from ic r pre suf = None -> sub_from ic r repl fuel pre suf = suf.
Proof.
  induction suf as [|c t IH]; intros pre fuel H.
  - destruct fuel; reflexivity.
  - destruct fuel as [|fuel]; [reflexivity|]. simpl in *.
    destruct (match_at ic r pre (c :: t)); [discriminate|].
    rewrite (IH _ _ H). reflexivity.
Qed.

Lemma sub_none (ic : bool) (r : regex) (repl x : str) :
  search ic r x = None -> sub ic r repl x = x.
Proof. apply sub_from_none. Qed.

(** *** Runs of white space *)

Lemma lspace_lstrip (x : str) : lspace x ++ Py.lstrip x = x.
Proof.
  induction x as [|c t IH]; simpl; [reflexivity|].
  destruct (Chr.is_space c); simpl; [rewrite IH|]; reflexivity.
Qed.

Lemma lstrip_length (x : str) :
  (List.length (Py.lstrip x) <= List.length x)%nat.
Proof.
  induction x as [|c t IH]; simpl; [lia|].
  destruct (Chr.is_space c); simpl; lia.
Qed.

(** A greedy repetition of a class takes the longest run. *)
Lemma greedy_spaces (lo : nat) (suf : str) :
  forall pre caps fuel cnt,
    (List.length suf <= fuel)%nat ->
    rounds (exec false space) true lo None (fun st => Some st) fuel cnt
           (MState pre suf caps)
    = if Nat.leb lo (cnt + List.length (lspace suf))
      then Some (MState (rev (lspace suf) ++ pre) (Py.lstrip suf) caps)
      else None.
Proof.
  induction suf as [|c t IH]; intros pre caps fuel cnt Hf.
  - simpl lspace. simpl Py.lstrip. rewrite Nat.add_0_r.
    destruct fuel; simpl; [reflexivity|].
    destruct (Nat.leb lo cnt); reflexivity.
  - destruct fuel as [|fuel]; [simpl in Hf; lia|].
    simpl in Hf. cbn [rounds]. unfold below.
    change (exec false space ?k ?st) with (one (cls_ok false Chr.is_space) k st).
    unfold one. cbn [m_suf cls_ok]. simpl lspace. simpl Py.lstrip.
    destruct (Chr.is_space c) eqn:E.
    + unfold advance, pos. cbn [m_pre m_caps List.length].
      rewrite (proj2 (Nat.ltb_lt _ _) (Nat.lt_succ_diag_r _)).
      rewrite IH by lia. simpl List.length.
      rewrite Nat.add_succ_r, Nat.add_succ_l.
      simpl rev. rewrite <- app_assoc. simpl app.
      destruct (Nat.leb lo (S (cnt + List.length (lspace t)))) eqn:L;
        [reflexivity|].
      simpl. apply Nat.leb_gt in L.
      destruct (Nat.leb lo cnt) eqn:L'; [|reflexivity].
      apply Nat.leb_le in L'. lia.
    + simpl. rewrite Nat.add_0_r. destruct (Nat.leb lo cnt); reflexivity.
Qed.

(** The pattern of white space matches the longest run at a position. *)
Lemma match_spaces (pre suf : str) :
  match_at false Pat.spaces pre suf
  = match lspace suf with
    | [] => None
    | run => Some (Match (List.length pre)
                         (List.length run + List.length pre) [])
    end.
Proof.
  unfold match_at, Pat.spaces, plus. cbn [exec m_suf].
  rewrite greedy_spaces by lia.
  destruct (lspace suf) as [|c run] eqn:E; [reflexivity|].
  simpl Nat.leb. unfold pos. cbn [m_pre m_caps].
  rewrite length_app, length_rev. reflexivity.
Qed.

Lemma squeeze_run (x : str) : squeeze true x = squeeze false (Py.lstrip x).
Proof.
  induction x as [|c t IH]; simpl; [reflexivity|].
  destruct (Chr.is_space c) eqn:E; [exact IH|]. simpl. rewrite E. reflexivity.
Qed.

Lemma sub_from_spaces (fuel : nat) :
  forall pre suf,
    (List.length suf <= fuel)%nat ->
    sub_from false Pat.spaces (s " ") fuel pre suf = squeeze false suf.
Proof.
  induction fuel as [|fuel IH]; intros pre suf Hf.
  - destruct suf; [reflexivity | simpl in Hf; lia].
  - destruct suf as [|c t]; [reflexivity|]. cbn [sub_from].
    rewrite match_spaces. simpl lspace. simpl squeeze.
    destruct (Chr.is_space c) eqn:E.
    + cbn [m_end m_start].
      replace (List.length (c :: lspace t) + List.length pre
               - List.length pre)%nat
        with (S (List.length (lspace t))) by (cbn [List.length]; lia).
      assert (Hs : skipn (S (List.length (lspace t))) (c :: t) = Py.lstrip t).
      { simpl.
        transitivity (skipn (List.length (lspace t))
                            (lspace t ++ Py.lstrip t));
          [rewrite lspace_lstrip; reflexivity|].
        rewrite skipn_app, skipn_all, Nat.sub_diag. reflexivity. }
      rewrite Hs, IH.
      * rewrite squeeze_run. reflexivity.
      * pose proof (lstrip_length t). simpl in Hf. lia.
    + rewrite IH by (simpl in Hf; lia). reflexivity.
Qed.

(** [re.sub(r'\s+', ' ', x)] replaces every run of white space by one
    blank. *)
Lemma sub_spaces (x : str) :
  sub false Pat.spaces (s " ") x = squeeze false x.
Proof. apply sub_from_spaces. lia. Qed.

(** *** Strings whose white space is single blanks *)

Lemma tidy_squeeze (x : str) : forall b, tidy b (squeeze b x).
Proof.
  induction x as [|c t IH]; intros b; simpl; [exact I|].
  destruct (Chr.is_space c) eqn:E.
  - destruct b; [apply IH|]. simpl. auto.
  - simpl. rewrite E. apply IH.
Qed.


Lemma tidy_weaken (x : str) : tidy true x -> tidy false x.
Proof.
  destruct x as [|c t]; simpl; [auto|].
  destruct (Chr.is_space c); [|auto]. intros (_ & H & _). discriminate H.
Qed.

Lemma tidy_lstrip (x : str) : forall b, tidy b x -> tidy false (Py.lstrip x).
Proof.
  induction x as [|c t IH]; intros b H; simpl in *; [exact I|].
  destruct (Chr.is_space c) eqn:E.
  - destruct H as (_ & _ & H). apply (IH _ H).
  - simpl. rewrite E. exact H.
Qed.

Lemma tidy_prefix (y w : str) : forall b, tidy b (y ++ w) -> tidy b y.
Proof.
  induction y as [|c t IH]; intros b H; simpl in *; [exact I|].
  destruct (Chr.is_space c).
  - destruct H as (H1 & H2 & H). eauto.
  - eauto.
Qed.

(** [rstrip] keeps a prefix. *)
Lemma rstrip_prefix (x : str) : exists w, x = Py.rstrip x ++ w.
Proof.
  exists (rev (lspace (rev x))). unfold Py.rstrip.
  rewrite <- rev_app_distr, lspace_lstrip, rev_involutive. reflexivity.
Qed.

Lemma tidy_strip (x : str) : tidy false x -> tidy false (Py.strip x).
Proof.
  intros H. unfold Py.strip.
  destruct (rstrip_prefix (Py.lstrip x)) as [w E].
  apply (tidy_prefix _ w). rewrite <- E. apply (tidy_lstrip _ _ H).
Qed.

Lemma strip_head (x : str) (c : ascii) (t : str) :
  Py.strip x = c :: t -> Chr.is_space c = false.
Proof.
  unfold Py.strip. intros H.
  destruct (rstrip_prefix (Py.lstrip x)) as [w E]. rewrite H in E.
  simpl in E. eapply PyFacts.lstrip_head. exact E.
Qed.

Lemma strip_idem (x : str) : Py.strip (Py.strip x) = Py.strip x.
Proof.
  apply PyFacts.strip_fixed.
  - intros c t. apply strip_head.
  - intros y c. apply PyFacts.strip_last.
Qed.


(** The line of an entry after the scrubber is the scrubbed line, changed
    or not. *)
Lemma scrub_entry_line (t : str) (e : entry) :
  line (fst (scrub_entry t e)) = scrub_line t (line e).
Proof.
  unfold scrub_entry. destruct (str_eqb _ _) eqn:E; [|reflexivity].
  simpl. symmetry. apply ParseFacts.str_eqb_eq. exact E.
Qed.









End ScrubFacts.

(** ** Further facts about the parser *)

Module MoreFacts.

Import Re Sem ReFacts.

(** The final flush, when it happens, adds an entry of the pending
    speaker. *)
Lemma finish_flushed (md : metadata) (n : nat) (st : pstate) :
  finish md n st = script_data st
  \/ exists sp,
       current_speaker st = Some sp
       /\ finish md n st
          = script_data st
            ++ [add_entry (make_entry md sp (buffer st) (Z.of_nat n))
                          (current_scene st)].
Proof.
  unfold finish, flush. destruct (current_speaker st) as [sp|]; [|auto].
  simpl. destruct (Py.truthy sp); [|auto].
  destruct (Py.truthy (buffer st)); simpl; eauto.
Qed.

(** *** Speaker lines *)

Lemma forallb_Forall {A : Type} (p : A -> bool) (l : list A) :
  Forall (fun x => p x = true) l -> forallb p l = true.
Proof. intros H. apply forallb_forall. apply Forall_forall. exact H. Qed.

(** The first group of the speaker pattern is a capitalised word, and
    the line is this word, a colon and the rest. *)
Lemma speaker_group (l : str) (m : match_obj) :
  rmatch false Pat.speaker l = Some m ->
  exists name,
    group 1 m = Some name /\ cap_word name = true
    /\ exists rest, l = name ++ ":"%char :: rest.
Proof.
  intros H. apply match_at_sound in H. destruct H as (st' & D & ->).
  unfold Pat.speaker, seq, Pat.upper_AZ, Pat.lower_az in D. cbn [den] in D.
  destruct D as (st1 & (_ & ->) & st2 & (mid & (st3 & D1 & D2) & ->)
                 & st4 & D3 & st5 & D4 & mid5 & D5 & ->).
  destruct D1 as (c & t & Hs & Hc & ->).
  apply den_rep_cls in D2. destruct D2 as (w & M2 & Hlo & _ & F & C2).
  apply PageFacts.den_lit in D3. destruct D3 as (M3 & C3).
  apply den_rep_cls in D4. destruct D4 as (sp & M4 & _ & _ & _ & C4).
  apply den_rep_cls in D5. destruct D5 as (g2 & M5 & _ & _ & _ & C5).
  pose proof (moved_trans _ _ _ _ _ (moved_advance _ _ _ Hs) M2) as M12.
  exists ([c] ++ w). unfold group. cbn [m_groups m_caps set_cap lookup].
  rewrite C5, C4, C3. cbn [m_caps set_cap lookup Nat.eqb].
  rewrite (consumed_moved _ _ _ M12). split; [reflexivity|]. split.
  - simpl. simpl in Hc. rewrite Hc. simpl.
    destruct w as [|d w]; [simpl in Hlo; lia|]. simpl.
    apply forallb_Forall in F. simpl in F. exact F.
  - destruct M12 as [_ S12]. destruct M3 as [_ S3]. simpl in S12, S3.
    exists (m_suf st4). simpl. rewrite S12. cbn [m_suf set_cap].
    rewrite S3. reflexivity.
Qed.

Lemma classify_speaker (l name text : str) :
  classify l = KSpeaker name text ->
  cap_word name = true /\ exists rest, l = name ++ ":"%char :: rest.
Proof.
  unfold classify.
  destruct (negb (Py.truthy l)); [discriminate|].
  destruct (is_noise l); [discriminate|].
  destruct (is_date l); [discriminate|].
  destruct (Py.startswith l (s "[Scene:")); [discriminate|].
  destruct (_ || _); [discriminate|].
  destruct (rmatch false Pat.speaker l) as [m|] eqn:E; [|discriminate].
  destruct (speaker_group _ _ E) as (n & -> & Hc & Hr).
  destruct (group 2 m); [|discriminate]. intros H. injection H as <- _. auto.
Qed.

(** *** The structure of the scenes *)

Lemma classify_direction (l : str) :
  classify l = KDirection ->
  Py.startswith l (s "[Scene:") = false
  /\ Py.startswith l (s "[") || Py.startswith l (s "(") = true.
Proof.
  unfold classify.
  destruct (negb (Py.truthy l)); [discriminate|].
  destruct (is_noise l); [discriminate|].
  destruct (is_date l); [discriminate|].
  destruct (Py.startswith l (s "[Scene:")); [discriminate|].
  destruct (_ || _); [auto|].
  destruct (rmatch false Pat.speaker l) as [m|]; [|discriminate].
  destruct (group 1 m), (group 2 m); discriminate.
Qed.

(** The text that [clean_line_and_extract_page] returns is trimmed. *)
Lemma clean_line_trimmed (text : str) (title : option str) :
  Py.strip (fst (clean_line_and_extract_page text title))
  = fst (clean_line_and_extract_page text title).
Proof.
  unfold clean_line_and_extract_page.
  destruct (search false Pat.trailing_page (Py.strip text));
    simpl; apply ScrubFacts.strip_idem.
Qed.

Lemma make_entry_ok (md : metadata) (sp buf : str) (n : Z) :
  cap_word sp = true -> entry_ok (make_entry md sp buf n).
Proof.
  intros H. unfold entry_ok, make_entry.
  pose proof (clean_line_trimmed (Py.strip buf) (episode_title md)) as T.
  destruct (clean_line_and_extract_page _ _) as [c q]. simpl in *. auto.
Qed.

Lemma add_entry_pages_of (e : entry) (sc : scene) :
  pages_of_entries sc -> pages_of_entries (add_entry e sc).
Proof.
  intros Hp p. cbn [add_entry page_numbers dialogue].
  assert (Hin : (exists e', In e' (dialogue sc ++ [e])
                            /\ page_number e' = Some p)
                <-> In p (page_numbers sc) \/ page_number e = Some p).
  { rewrite (Hp p). split.
    - intros (e' & H1 & H2). apply in_app_iff in H1.
      destruct H1 as [H1 | [<- | []]]; eauto.
    - intros [(e' & H1 & H2) | H].
      + exists e'. rewrite in_app_iff. auto.
      + exists e. rewrite in_app_iff. simpl. auto. }
  rewrite Hin. destruct (page_number e) as [q|].
  - rewrite ParseFacts.set_add_in. split.
    + intros [-> | H]; auto.
    + intros [H | H]; [auto | injection H as ->; auto].
  - split; [auto | intros [H | H]; [exact H | discriminate]].
Qed.

Lemma add_entry_ok (md : metadata) (lines : list str) (e : entry)
  (sc : scene) :
  entry_ok e -> scene_ok md lines sc -> scene_ok md lines (add_entry e sc).
Proof.
  intros He (Hc & Hd & Hp & Hs & Ht). unfold scene_ok.
  split; [exact Hc|]. split; [|split; [|split; [exact Hs | exact Ht]]].
  - simpl. rewrite Forall_app. auto.
  - apply add_entry_pages_of, Hp.
Qed.

Lemma flush_ok (md : metadata) (lines : list str) (n : Z) (st : pstate) :
  scene_ok md lines (current_scene st) ->
  (forall sp, current_speaker st = Some sp -> cap_word sp = true) ->
  scene_ok md lines (flush md n st).
Proof.
  intros H Hsp.
  destruct (ParseFacts.flush_cases md n st) as [-> | (sp & E & _ & ->)];
    [exact H|].
  apply add_entry_ok; [|exact H]. apply make_entry_ok. auto.
Qed.

Lemma add_direction_ok (md : metadata) (lines : list str) (d : direction)
  (sc : scene) :
  direction_ok lines d -> scene_ok md lines sc ->
  scene_ok md lines (add_direction d sc).
Proof.
  intros Hd (H1 & H2 & H3 & H4 & H5). unfold scene_ok.
  split; [exact H1|]. split; [exact H2|]. split; [exact H3|].
  split; [|exact H5]. simpl. rewrite Forall_app. auto.
Qed.

Lemma add_character_ok (md : metadata) (lines : list str) (c : str)
  (sc : scene) :
  cap_word c = true -> scene_ok md lines sc ->
  scene_ok md lines (add_character c sc).
Proof.
  intros Hc (H1 & H2 & H3 & H4 & H5). unfold scene_ok.
  split; [|split; [exact H2|split; [exact H3|split; [exact H4|exact H5]]]].
  simpl. apply IntFacts.set_add_forall; assumption.
Qed.

Lemma new_scene_ok (md : metadata) (lines : list str) (name : option str)
  (n : Z) (start : option Z) :
  scene_ok md lines (new_scene name n (episode_title md) start).
Proof.
  unfold scene_ok, new_scene, pages_of_entries. simpl.
  split; [constructor|]. split; [constructor|]. split.
  - intros p. split; [intros [] | intros (e & [] & _)].
  - split; [constructor | reflexivity].
Qed.

Lemma structure_inv_step (md : metadata) (lines : list str) (i : nat)
  (raw : str) (st : pstate) :
  nth_error lines i = Some raw -> structure_inv md lines st ->
  structure_inv md lines (parse_line md st (i, raw)).
Proof.
  unfold structure_inv. rewrite !ParseFacts.Forall_scenes_of.
  intros Hn ((Hd & Hc) & Hne & Hsp).
  rewrite ParseFacts.parse_line_cases. cbv zeta.
  destruct (classify (Py.strip raw)) as [|name| |name text|] eqn:K.
  - auto.
  - cbn [script_data current_scene current_speaker].
    split; [split|split].
    + apply ParseFacts.Forall_after_heading; assumption.
    + apply new_scene_ok.
    + unfold after_heading. fold (has_content (current_scene st)).
      destruct (has_content (current_scene st)) eqn:E; [|exact Hne].
      rewrite Forall_app. auto.
    + discriminate.
  - cbn [script_data current_scene current_speaker].
    split; [split; [exact Hd|]|split; [exact Hne|exact Hsp]].
    apply add_direction_ok; [|exact Hc].
    destruct (classify_direction _ K) as [K1 K2].
    exists i, raw. simpl. auto.
  - cbn [script_data current_scene current_speaker].
    destruct (classify_speaker _ _ _ K) as [Hcap _].
    split; [split; [exact Hd|]|split; [exact Hne|]].
    + apply add_character_ok; [exact Hcap|]. apply flush_ok; assumption.
    + intros sp E. injection E as <-. exact Hcap.
  - destruct (Py.truthy_opt (current_speaker st));
      cbn [script_data current_scene current_speaker]; auto.
Qed.

Lemma structure_inv_loop (md : metadata) (lines : list str) :
  structure_inv md lines (parse_loop md lines).
Proof.
  apply (ParseFacts.parse_loop_inv md lines
           (fun _ => structure_inv md lines)).
  - unfold structure_inv. rewrite ParseFacts.Forall_scenes_of. simpl.
    split; [split; [constructor | apply new_scene_ok]|].
    split; [constructor | discriminate].
  - intros i raw st. apply structure_inv_step.
Qed.

(** The scenes that the parser returns are built as [scene_ok] says and
    none is empty. *)
Lemma parse_structure (text : str) (md : metadata) :
  Forall (fun sc => scene_ok md (Py.splitlines text) sc
                    /\ has_content sc = true)
         (parse_friends_script text md).
Proof.
  unfold parse_friends_script.
  destruct (structure_inv_loop md (Py.splitlines text)) as (Hs & Hne & Hsp).
  rewrite ParseFacts.Forall_scenes_of in Hs. destruct Hs as [Hd Hc].
  assert (Hd' : Forall (fun sc => scene_ok md (Py.splitlines text) sc
                                  /\ has_content sc = true)
                  (script_data (parse_loop md (Py.splitlines text)))).
  { rewrite Forall_forall in *. auto. }
  destruct (finish_flushed md (List.length (Py.splitlines text))
              (parse_loop md (Py.splitlines text)))
    as [-> | (sp & E & ->)]; [exact Hd'|].
  rewrite Forall_app. split; [exact Hd'|]. constructor; [|constructor].
  split.
  - apply add_entry_ok; [|exact Hc]. apply make_entry_ok. eauto.
  - unfold has_content. simpl.
    destruct (dialogue (current_scene (parse_loop md (Py.splitlines text))));
      reflexivity.
Qed.

(** *** The number and the order of the entries *)

Lemma speaker_lines_snoc (l : list str) (raw : str) :
  speaker_lines (l ++ [raw])
  = (speaker_lines l
     + match speaker_line raw with Some _ => 1 | None => 0 end)%nat.
Proof.
  unfold speaker_lines. rewrite filter_app, length_app. simpl.
  destruct (speaker_line raw); simpl; lia.
Qed.

Lemma all_entries_scenes_of (st : pstate) :
  all_entries (scenes_of st)
  = all_entries (script_data st) ++ dialogue (current_scene st).
Proof.
  unfold all_entries, scenes_of. rewrite flat_map_app. simpl.
  rewrite app_nil_r. reflexivity.
Qed.

(** A scene heading loses no entry that was flushed. *)
Lemma all_entries_after_heading (st : pstate) :
  all_entries (after_heading st) = all_entries (scenes_of st).
Proof.
  rewrite all_entries_scenes_of. unfold after_heading.
  destruct (dialogue (current_scene st)) as [|e d] eqn:E; simpl.
  - rewrite app_nil_r.
    destruct (nonempty (stage_directions (current_scene st))); [|reflexivity].
    unfold all_entries. rewrite flat_map_app. simpl. rewrite E.
    rewrite !app_nil_r. reflexivity.
  - unfold all_entries. rewrite flat_map_app. simpl. rewrite E, app_nil_r.
    reflexivity.
Qed.

Lemma sorted_le_snoc (l : list Z) (x : Z) :
  StronglySorted Z.le l -> Forall (fun y => y <= x) l ->
  StronglySorted Z.le (l ++ [x]).
Proof.
  induction 1 as [|y l Hs IH Hy]; intros Hx; simpl.
  - repeat constructor.
  - inversion Hx; subst. constructor; [auto|].
    rewrite Forall_app. split; [exact Hy | repeat constructor; assumption].
Qed.

Lemma sorted_le_prefix (l k : list Z) :
  StronglySorted Z.le (l ++ k) -> StronglySorted Z.le l.
Proof.
  induction l as [|x l IH]; simpl; intros H; [constructor|].
  inversion H; subst. constructor; [auto|].
  rewrite Forall_app in *. tauto.
Qed.

(** The entries after a flush at the line number [n]. *)
Lemma flush_dialogue (md : metadata) (n : Z) (st : pstate) :
  dialogue (flush md n st) = dialogue (current_scene st)
  \/ exists e, current_speaker st <> None /\ line_number e = n
               /\ dialogue (flush md n st)
                  = dialogue (current_scene st) ++ [e].
Proof.
  destruct (ParseFacts.flush_cases md n st) as [-> | (sp & E & _ & ->)];
    [auto|].
  right. exists (make_entry md sp (buffer st) n).
  rewrite ParseFacts.make_entry_line_number, E. simpl.
  repeat split; auto. discriminate.
Qed.

Lemma order_inv_step (md : metadata) (lines : list str) (i : nat)
  (raw : str) (st : pstate) :
  nth_error lines i = Some raw -> order_inv lines i st ->
  order_inv lines (S i) (parse_line md st (i, raw)).
Proof.
  intros Hn (Hcnt & Hsc & Hso & Hrg).
  assert (Hsl : speaker_lines (firstn (S i) lines)
                = (speaker_lines (firstn i lines)
                   + match speaker_line raw with Some _ => 1 | None => 0 end)%nat).
  { rewrite (ParseFacts.firstn_succ_nth _ _ _ Hn). apply speaker_lines_snoc. }
  assert (Hrg' : Forall (fun e => 1 <= line_number e <= Z.of_nat (S i))
                        (all_entries (scenes_of st))).
  { eapply Forall_impl; [|exact Hrg]. simpl. intros e. lia. }
  rewrite ParseFacts.parse_line_cases. cbv zeta.
  unfold order_inv. unfold speaker_line in Hsl. unfold pending in *.
  destruct (classify (Py.strip raw)) as [|name| |name text|] eqn:K.
  - rewrite Hsl, Nat.add_0_r. auto.
  - rewrite !all_entries_scenes_of.
    cbn [script_data current_scene current_speaker scene_counter new_scene
         dialogue].
    rewrite app_nil_r, all_entries_after_heading, Hsl, !Nat.add_0_r.
    split; [|split; [|split]]; auto.
    + clear - Hcnt. lia.
    + clear - Hsc. unfold after_heading. destruct (_ || _); [|lia].
      rewrite length_app. simpl. lia.
  - rewrite !all_entries_scenes_of in *.
    cbn [script_data current_scene current_speaker scene_counter
         add_direction dialogue].
    rewrite Hsl, Nat.add_0_r. auto.
  - rewrite !all_entries_scenes_of in *.
    cbn [script_data current_scene current_speaker scene_counter
         add_character dialogue].
    rewrite Hsl.
    destruct (flush_dialogue md (Z.of_nat i + 1) st)
      as [-> | (e & Hp & He & ->)].
    + split; [|split; [|split]]; auto.
      clear - Hcnt. destruct (current_speaker st); lia.
    + rewrite app_assoc. split; [|split; [|split]]; auto.
      * rewrite length_app. simpl.
        destruct (current_speaker st); [clear - Hcnt; lia | congruence].
      * rewrite map_app. simpl. apply sorted_le_snoc; [exact Hso|].
        rewrite Forall_map. eapply Forall_impl; [|exact Hrg].
        simpl. intros e'. lia.
      * rewrite Forall_app. split; [exact Hrg'|].
        constructor; [lia | constructor].
  - rewrite Hsl, Nat.add_0_r.
    destruct (Py.truthy_opt (current_speaker st));
      unfold scenes_of in *;
      cbn [script_data current_scene current_speaker scene_counter]; auto.
Qed.

Lemma order_inv_loop (md : metadata) (lines : list str) :
  order_inv lines (List.length lines) (parse_loop md lines).
Proof.
  apply ParseFacts.parse_loop_inv.
  - unfold order_inv, scenes_of, all_entries, pending. simpl.
    repeat split; try constructor; lia.
  - intros i raw st. apply order_inv_step.
Qed.

(** *** Lines and white space *)

Lemma parse_line_strip (md : metadata) (st : pstate) (i : nat) (raw : str) :
  parse_line md st (i, Py.strip raw) = parse_line md st (i, raw).
Proof.
  rewrite !ParseFacts.parse_line_cases. rewrite ScrubFacts.strip_idem.
  reflexivity.
Qed.

Lemma parse_fold_strip (md : metadata) (lines : list str) :
  forall i st,
    fold_left (parse_line md) (enumerate_from i (map Py.strip lines)) st
    = fold_left (parse_line md) (enumerate_from i lines) st.
Proof.
  induction lines as [|raw lines IH]; intros i st; [reflexivity|].
  cbn [map enumerate_from fold_left]. rewrite parse_line_strip. apply IH.
Qed.

(** *** Texts without a slash *)

Lemma moved_in (w : str) (st st' : mstate) (c : ascii) :
  moved w st st' -> In c (m_suf st') -> In c (m_suf st).
Proof. intros [_ S] H. rewrite S. apply in_or_app. auto. Qed.

Lemma den_in (ic : bool) (r : regex) (st st' : mstate) (c : ascii) :
  den ic r st st' -> In c (m_suf st') -> In c (m_suf st).
Proof.
  intros D. destruct (den_moved ic r _ _ D) as [w M]. apply (moved_in _ _ _ _ M).
Qed.

(** A match of the pattern of a URL holds a slash. *)
Lemma url_has_slash (x : str) (m : match_obj) :
  search false Pat.url x = Some m -> In "/"%char x.
Proof.
  intros H. apply search_sound in H.
  destruct H as (pre & suf & st' & Hx & D & _).
  rewrite <- Hx. apply in_or_app. right.
  unfold Pat.url, seq in D. cbn [den] in D.
  destruct D as (st1 & D1 & st2 & D2 & st3 & D3 & _).
  change suf with (m_suf (MState pre suf [])).
  apply (den_in _ _ _ _ _ D1). apply (den_in _ _ _ _ _ D2).
  unfold lits, seq in D3. cbn [map den] in D3.
  destruct D3 as (st4 & D4 & st5 & D5 & _).
  apply (den_in _ _ _ _ _ D4).
  apply PageFacts.den_lit in D5. destruct D5 as [[_ S5] _].
  rewrite S5. simpl. auto.
Qed.

(** A match of the pattern of a trailing page holds a slash. *)
Lemma page_has_slash (x : str) (m : match_obj) :
  search false Pat.trailing_page x = Some m -> In "/"%char x.
Proof.
  intros H. apply PageFacts.trailing_page_sound in H.
  destruct H as (before & tok & sp & -> & (a & b & -> & _) & _).
  apply in_or_app. right. apply in_or_app. left.
  apply in_or_app. right. simpl. auto.
Qed.

Lemma search_none_or (ic : bool) (r : regex) (x : str) (P : Prop) :
  (forall m, search ic r x = Some m -> P) -> ~ P -> search ic r x = None.
Proof.
  intros H N. destruct (search ic r x) as [m|] eqn:E; [|reflexivity].
  exfalso. eauto.
Qed.

End MoreFacts.

(** ** Further facts about the statistics *)

Module StatMore.

Lemma fold_add (l : list Z) : forall a, fold_left Z.add l a = a + sumZ l.
Proof.
  unfold sumZ. induction l as [|x l IH]; intros a; simpl; [lia|].
  rewrite IH, (IH x). lia.
Qed.

Lemma sumZ_cons (x : Z) (l : list Z) : sumZ (x :: l) = x + sumZ l.
Proof. unfold sumZ at 1. simpl. apply fold_add. Qed.

Lemma sumZ_app (l k : list Z) : sumZ (l ++ k) = sumZ l + sumZ k.
Proof.
  induction l as [|x l IH]; simpl; [reflexivity|].
  rewrite !sumZ_cons, IH. lia.
Qed.

(** The maximum by [fold_left] bounds its arguments and is one of them. *)
Lemma maxZ_spec (l : list Z) :
  forall x, x <= maxZ x l /\ Forall (fun y => y <= maxZ x l) l
            /\ (maxZ x l = x \/ In (maxZ x l) l).
Proof.
  unfold maxZ. induction l as [|y l IH]; intros x; cbn [fold_left].
  - split; [lia|]. split; [constructor | auto].
  - destruct (IH (Z.max x y)) as (H1 & H2 & H3).
    split; [lia|]. split.
    + constructor; [lia | exact H2].
    + destruct H3 as [H3 | H3]; [|right; right; exact H3]. rewrite H3.
      destruct (Z.max_spec x y) as [[_ ->] | [_ ->]];
        [right; left; reflexivity | left; reflexivity].
Qed.

Lemma minZ_spec (l : list Z) :
  forall x, minZ x l <= x /\ Forall (fun y => minZ x l <= y) l
            /\ (minZ x l = x \/ In (minZ x l) l).
Proof.
  unfold minZ. induction l as [|y l IH]; intros x; cbn [fold_left].
  - split; [lia|]. split; [constructor | auto].
  - destruct (IH (Z.min x y)) as (H1 & H2 & H3).
    split; [lia|]. split.
    + constructor; [lia | exact H2].
    + destruct H3 as [H3 | H3]; [|right; right; exact H3]. rewrite H3.
      destruct (Z.min_spec x y) as [[_ ->] | [_ ->]];
        [left; reflexivity | right; left; reflexivity].
Qed.

(** [index_of] finds the first index of an element of the list. *)
Lemma index_of_spec (x : Z) (l : list Z) :
  In x l -> first_at l (index_of x l) x.
Proof.
  unfold first_at. induction l as [|y l IH]; intros H; [destruct H|].
  cbn [index_of]. destruct (y =? x) eqn:E.
  - apply Z.eqb_eq in E. subst y. split; [lia|]. split; [reflexivity|].
    intros j Hj. simpl in Hj. lia.
  - apply Z.eqb_neq in E. destruct H as [H | H]; [congruence|].
    destruct (IH H) as (H0 & H1 & H2).
    replace (Z.to_nat (1 + index_of x l)) with (S (Z.to_nat (index_of x l)))
      by lia.
    split; [lia|]. split; [exact H1|].
    intros [|j] Hj; cbn [nth_error]; [congruence|]. apply H2. lia.
Qed.

(** The fields of the statistics that do not depend on the pages. *)
Lemma statistics_fields (data : list scene) (st : statistics) :
  calculate_script_statistics data = Some st ->
  total_scenes st = Z.of_nat (List.length data)
  /\ scene_lengths st = map scene_len data
  /\ total_dialogue_lines st = sumZ (map scene_len data)
  /\ average_scene_length st
     = match map scene_len data with
       | [] => 0%Q
       | _ => ratio (sumZ (map scene_len data))
                    (Z.of_nat (List.length (map scene_len data)))
       end
  /\ longest_scene st
     = match map scene_len data with
       | [] => None
       | n :: ns => Some (Extreme (maxZ n ns)
                            (index_of (maxZ n ns) (map scene_len data)))
       end
  /\ shortest_scene st
     = match map scene_len data with
       | [] => None
       | n :: ns => Some (Extreme (minZ n ns)
                            (index_of (minZ n ns) (map scene_len data)))
       end.
Proof.
  unfold calculate_script_statistics.
  destruct (map_opt page_numerator (all_pages data)); [|discriminate].
  cbn [opt_bind]. intros H. injection H as <-. simpl. auto 10.
Qed.

Lemma sum_scene_len (data : list scene) :
  sumZ (map scene_len data) = Z.of_nat (List.length (all_entries data)).
Proof.
  unfold all_entries. induction data as [|sc data IH]; [reflexivity|].
  cbn [map flat_map]. rewrite sumZ_cons, IH, length_app.
  unfold scene_len. lia.
Qed.

(** *** The dictionary of the characters *)

Lemma has_key_mem (c : str) (d : list (str * char_stat)) :
  has_key c d = Py.set_mem c (map fst d).
Proof.
  unfold has_key, Py.set_mem. induction d as [|kv d IH]; simpl; [reflexivity|].
  rewrite IH. reflexivity.
Qed.

Lemma update_key_keys (c : str) (f : char_stat -> char_stat)
  (d : list (str * char_stat)) :
  map fst (update_key c f d) = map fst d.
Proof.
  unfold update_key. rewrite map_map. apply map_ext.
  intros kv. destruct (str_eqb c (fst kv)); reflexivity.
Qed.

Lemma appear_keys (d : list (str * char_stat)) (c : str) :
  map fst (appear d c) = Py.set_add c (map fst d).
Proof.
  unfold appear, Py.set_add. rewrite update_key_keys, has_key_mem.
  destruct (Py.set_mem c (map fst d)); [reflexivity|].
  rewrite map_app. reflexivity.
Qed.

Lemma speak_keys (d : list (str * char_stat)) (e : entry) :
  map fst (speak d e) = map fst d.
Proof. apply update_key_keys. Qed.

Lemma update_key_ok (c : str) (f : char_stat -> char_stat)
  (d : list (str * char_stat)) :
  (forall cs, stat_ok cs -> stat_ok (f cs)) ->
  Forall (fun kv => stat_ok (snd kv)) d ->
  Forall (fun kv => stat_ok (snd kv)) (update_key c f d).
Proof.
  intros Hf H. unfold update_key. rewrite Forall_map.
  eapply Forall_impl; [|exact H]. intros kv Hkv.
  destruct (str_eqb c (fst kv)); simpl; auto.
Qed.

Lemma appear_ok (d : list (str * char_stat)) (c : str) :
  Forall (fun kv => stat_ok (snd kv)) d ->
  Forall (fun kv => stat_ok (snd kv)) (appear d c).
Proof.
  intros H. unfold appear. destruct (has_key c d).
  - apply update_key_ok; [|exact H].
    intros cs [H1 H2]. unfold stat_ok. simpl. lia.
  - unfold update_key. rewrite map_app, Forall_app. split.
    + rewrite Forall_map. eapply Forall_impl; [|exact H]. intros kv [H1 H2].
      destruct (str_eqb c (fst kv)); unfold stat_ok; simpl; lia.
    + simpl. rewrite (proj2 (ParseFacts.str_eqb_eq c c) eq_refl).
      repeat constructor; simpl; lia.
Qed.

Lemma speak_ok (d : list (str * char_stat)) (e : entry) :
  Forall (fun kv => stat_ok (snd kv)) d ->
  Forall (fun kv => stat_ok (snd kv)) (speak d e).
Proof.
  apply update_key_ok. intros cs [H1 H2]. unfold stat_ok. simpl. lia.
Qed.

(** The dictionary built over the scenes has the unique characters as
    its keys, in the same order. *)
Lemma characters_fold (data : list scene) :
  forall d u,
    map fst d = u -> Forall (fun kv => stat_ok (snd kv)) d ->
    let d' := fold_left (fun d sc =>
                fold_left speak (dialogue sc)
                          (fold_left appear (characters sc) d)) data d in
    map fst d'
    = fold_left (fun acc sc => Py.set_update acc (characters sc)) data u
    /\ Forall (fun kv => stat_ok (snd kv)) d'.
Proof.
  induction data as [|sc data IH]; intros d u Hk Hok; [simpl; auto|].
  cbn [fold_left]. apply IH.
  - assert (Ha : forall cs d0,
              map fst (fold_left appear cs d0)
              = Py.set_update (map fst d0) cs).
    { unfold Py.set_update. induction cs as [|c cs IHc]; intros d0;
        [reflexivity|]. simpl. rewrite IHc, appear_keys. reflexivity. }
    assert (Hs : forall es d0, map fst (fold_left speak es d0) = map fst d0).
    { induction es as [|e es IHe]; intros d0; [reflexivity|].
      simpl. rewrite IHe. apply speak_keys. }
    rewrite Hs, Ha, Hk. reflexivity.
  - assert (Ha : forall cs d0, Forall (fun kv => stat_ok (snd kv)) d0 ->
              Forall (fun kv => stat_ok (snd kv)) (fold_left appear cs d0)).
    { induction cs as [|c cs IHc]; intros d0 H0; [exact H0|].
      simpl. apply IHc, appear_ok, H0. }
    assert (Hs : forall es d0, Forall (fun kv => stat_ok (snd kv)) d0 ->
              Forall (fun kv => stat_ok (snd kv)) (fold_left speak es d0)).
    { induction es as [|e es IHe]; intros d0 H0; [exact H0|].
      simpl. apply IHe, speak_ok, H0. }
    apply Hs, Ha, Hok.
Qed.

(** *** The counts of the dictionary *)

Lemma spoken_by_snoc (c : str) (es : list entry) (e : entry) :
  spoken_by c (es ++ [e])
  = spoken_by c es + (if str_eqb (speaker e) c then 1 else 0).
Proof.
  unfold spoken_by. rewrite filter_app, length_app. cbn [filter].
  destruct (str_eqb (speaker e) c); simpl; lia.
Qed.

Lemma listed_snoc (c : str) (cs : list str) (x : str) :
  listed c (cs ++ [x]) = listed c cs + (if str_eqb x c then 1 else 0).
Proof.
  unfold listed. rewrite filter_app, length_app. cbn [filter].
  destruct (str_eqb x c); simpl; lia.
Qed.

Lemma spoken_by_none (c : str) (es : list entry) :
  (forall e, In e es -> speaker e <> c) -> spoken_by c es = 0.
Proof.
  intros H. unfold spoken_by. induction es as [|e es IH]; [reflexivity|].
  cbn [filter]. destruct (str_eqb (speaker e) c) eqn:E.
  - apply ParseFacts.str_eqb_eq in E. exfalso. apply (H e); simpl; auto.
  - apply IH. intros e' He'. apply H. simpl. auto.
Qed.

Lemma listed_none (c : str) (cs : list str) : ~ In c cs -> listed c cs = 0.
Proof.
  intros H. unfold listed. induction cs as [|x cs IH]; [reflexivity|].
  cbn [filter]. destruct (str_eqb x c) eqn:E.
  - apply ParseFacts.str_eqb_eq in E. exfalso. apply H. simpl. auto.
  - apply IH. intros Hc. apply H. simpl. auto.
Qed.

Lemma appear_counted (cs : list str) (es : list entry)
  (d : list (str * char_stat)) (c : str) :
  counted cs es d -> counted (cs ++ [c]) es (appear d c).
Proof.
  intros (Hf & Hc & He). split; [|split].
  - assert (Hupd : forall d0,
              Forall (fun kv => total_lines (snd kv) = spoken_by (fst kv) es
                                /\ scenes_appeared (snd kv) + (if str_eqb c (fst kv) then 1 else 0)
                                   = listed (fst kv) (cs ++ [c])) d0 ->
              Forall (fun kv => total_lines (snd kv) = spoken_by (fst kv) es
                                /\ scenes_appeared (snd kv)
                                   = listed (fst kv) (cs ++ [c]))
                     (update_key c
                        (fun r => CharStat (total_lines r)
                                           (scenes_appeared r + 1)
                                           (average_lines_per_scene r)) d0)).
    { intros d0 H0. unfold update_key. rewrite Forall_map.
      eapply Forall_impl; [|exact H0]. intros kv [H1 H2].
      destruct (str_eqb c (fst kv));
        cbn [fst snd total_lines scenes_appeared]; split; auto; lia. }
    assert (Hold : Forall (fun kv =>
                     total_lines (snd kv) = spoken_by (fst kv) es
                     /\ scenes_appeared (snd kv) + (if str_eqb c (fst kv) then 1 else 0)
                        = listed (fst kv) (cs ++ [c])) d).
    { eapply Forall_impl; [|exact Hf]. intros kv [H1 H2].
      split; [exact H1|]. rewrite listed_snoc, H2. reflexivity. }
    unfold appear. destruct (has_key c d) eqn:Ek; apply Hupd; [exact Hold|].
    rewrite Forall_app. split; [exact Hold|]. constructor; [|constructor].
    assert (Hn : ~ In c (map fst d)).
    { intros Hin. apply ParseFacts.set_mem_in in Hin.
      rewrite <- has_key_mem in Hin. congruence. }
    cbn [fst snd total_lines scenes_appeared]. split.
    + symmetry. apply spoken_by_none. intros e Hin <-. apply Hn, He, Hin.
    + rewrite listed_snoc, listed_none by (intros Hin; apply Hn, Hc, Hin).
      reflexivity.
  - intros x Hx. rewrite appear_keys. apply ParseFacts.set_add_in.
    apply in_app_or in Hx. destruct Hx as [Hx | [<- | []]]; auto.
  - intros e Hin. rewrite appear_keys. apply ParseFacts.set_add_in. auto.
Qed.

Lemma speak_counted (cs : list str) (es : list entry)
  (d : list (str * char_stat)) (e : entry) :
  counted cs es d -> In (speaker e) (map fst d) ->
  counted cs (es ++ [e]) (speak d e).
Proof.
  intros (Hf & Hc & He) Hin. split; [|split].
  - unfold speak, update_key. rewrite Forall_map.
    eapply Forall_impl; [|exact Hf]. intros kv [H1 H2].
    destruct (str_eqb (speaker e) (fst kv)) eqn:E;
      cbn [fst snd total_lines scenes_appeared];
      rewrite spoken_by_snoc, E; split; auto; lia.
  - intros x Hx. rewrite speak_keys. auto.
  - intros e' He'. rewrite speak_keys.
    apply in_app_or in He'. destruct He' as [He' | [<- | []]]; auto.
Qed.

Lemma fold_appear_counted (es : list entry) (chars : list str) :
  forall cs d, counted cs es d ->
               counted (cs ++ chars) es (fold_left appear chars d).
Proof.
  induction chars as [|c chars IH]; intros cs d H; cbn [fold_left].
  - rewrite app_nil_r. exact H.
  - replace (cs ++ c :: chars) with ((cs ++ [c]) ++ chars)
      by (rewrite <- app_assoc; reflexivity).
    apply IH, appear_counted, H.
Qed.

Lemma fold_speak_keys (ents : list entry) :
  forall d, map fst (fold_left speak ents d) = map fst d.
Proof.
  induction ents as [|e ents IH]; intros d; [reflexivity|].
  cbn [fold_left]. rewrite IH. apply speak_keys.
Qed.

Lemma fold_speak_counted (cs : list str) (ents : list entry) :
  forall es d,
    counted cs es d ->
    (forall e, In e ents -> In (speaker e) (map fst d)) ->
    counted cs (es ++ ents) (fold_left speak ents d).
Proof.
  induction ents as [|e ents IH]; intros es d H Hin; cbn [fold_left].
  - rewrite app_nil_r. exact H.
  - replace (es ++ e :: ents) with ((es ++ [e]) ++ ents)
      by (rewrite <- app_assoc; reflexivity).
    apply IH.
    + apply speak_counted; [exact H|]. apply Hin. simpl. auto.
    + intros e' He'. rewrite speak_keys. apply Hin. simpl. auto.
Qed.

Lemma speakers_listed_in (sc : scene) :
  speakers_listed sc = true ->
  forall e, In e (dialogue sc) -> In (speaker e) (characters sc).
Proof.
  unfold speakers_listed. rewrite forallb_forall. intros H e He.
  apply ParseFacts.set_mem_in, H, He.
Qed.

(** The dictionary built over scenes whose speakers are listed holds the
    exact counts. *)
Lemma scenes_counted (data : list scene) :
  forall cs es d,
    counted cs es d ->
    forallb speakers_listed data = true ->
    counted (cs ++ flat_map characters data) (es ++ all_entries data)
            (fold_left (fun d sc =>
                          fold_left speak (dialogue sc)
                                    (fold_left appear (characters sc) d))
                       data d).
Proof.
  unfold all_entries.
  induction data as [|sc data IH]; intros cs es d H Hl; cbn [fold_left flat_map].
  - rewrite !app_nil_r. exact H.
  - cbn [forallb] in Hl. apply andb_prop in Hl. destruct Hl as [Hsc Hl].
    rewrite !app_assoc. apply IH; [|exact Hl].
    pose proof (fold_appear_counted es (characters sc) cs d H) as H1.
    apply fold_speak_counted; [exact H1|].
    intros e He. destruct H1 as (_ & Hc & _). apply Hc.
    apply in_or_app. right. apply speakers_listed_in; assumption.
Qed.

Lemma with_average_keys (d : list (str * char_stat)) :
  map fst (map (fun kv => (fst kv, with_average (snd kv))) d) = map fst d.
Proof. rewrite map_map. reflexivity. Qed.

Lemma statistics_counts (data : list scene) (st : statistics) :
  forallb speakers_listed data = true ->
  calculate_script_statistics data = Some st ->
  counted (flat_map characters data) (all_entries data) (character_stats st).
Proof.
  intros Hl. unfold calculate_script_statistics.
  destruct (map_opt page_numerator (all_pages data)); [|discriminate].
  cbn [opt_bind]. intros H. injection H as <-. cbn [character_stats].
  assert (H0 : counted [] [] []).
  { split; [constructor|]. split; intros x []. }
  destruct (scenes_counted data [] [] [] H0 Hl) as (Hf & Hc & He).
  cbn [app] in Hf, Hc, He.
  split; [|split].
  - rewrite Forall_map.
    eapply Forall_impl; [|exact Hf]. intros kv [H1 H2].
    unfold with_average. destruct (0 <? scenes_appeared (snd kv)); simpl; auto.
  - intros x Hx. rewrite with_average_keys. auto.
  - intros e Hin. rewrite with_average_keys. auto.
Qed.

(** *** The lines of the characters add up *)

Lemma sumZ_map_add {A : Type} (f g : A -> Z) (l : list A) :
  sumZ (map (fun x => f x + g x) l) = sumZ (map f l) + sumZ (map g l).
Proof.
  induction l as [|x l IH]; [reflexivity|].
  cbn [map]. rewrite !sumZ_cons, IH. lia.
Qed.

Lemma sumZ_indicator (x : str) (keys : list str) :
  NoDup keys -> In x keys ->
  sumZ (map (fun c => if str_eqb x c then 1 else 0) keys) = 1.
Proof.
  induction keys as [|k keys IH]; intros Hn Hin; [destruct Hin|].
  cbn [map]. rewrite sumZ_cons. inversion Hn as [|? ? Hk Hn']. subst.
  assert (Hz : forall l, ~ In x l ->
            sumZ (map (fun c => if str_eqb x c then 1 else 0) l) = 0).
  { induction l as [|y l IHl]; intros Hl; [reflexivity|].
    cbn [map]. rewrite sumZ_cons, IHl by (intros H; apply Hl; simpl; auto).
    destruct (str_eqb x y) eqn:E; [|reflexivity].
    apply ParseFacts.str_eqb_eq in E. exfalso. apply Hl. simpl. auto. }
  destruct (str_eqb x k) eqn:E.
  - apply ParseFacts.str_eqb_eq in E. subst k. rewrite Hz by exact Hk. lia.
  - destruct Hin as [-> | Hin].
    + rewrite (proj2 (ParseFacts.str_eqb_eq x x) eq_refl) in E. discriminate.
    + rewrite IH by assumption. lia.
Qed.

(** Over distinct names that include every speaker, the numbers of
    entries spoken add up to the number of entries. *)
Lemma spoken_sum (keys : list str) (es : list entry) :
  NoDup keys -> (forall e, In e es -> In (speaker e) keys) ->
  sumZ (map (fun c => spoken_by c es) keys) = Z.of_nat (List.length es).
Proof.
  intros Hn. induction es as [|e es IH]; intros Hin.
  - unfold spoken_by. cbn [filter List.length]. clear.
    induction keys as [|k keys IHk]; [reflexivity|].
    cbn [map]. rewrite sumZ_cons, IHk. reflexivity.
  - rewrite (map_ext _ (fun c => (if str_eqb (speaker e) c then 1 else 0)
                                 + spoken_by c es)).
    + rewrite (sumZ_map_add (fun c => if str_eqb (speaker e) c then 1 else 0)
                            (fun c => spoken_by c es)).
      rewrite (sumZ_indicator (speaker e) keys Hn)
        by (apply Hin; simpl; auto).
      rewrite IH by (intros; apply Hin; simpl; auto).
      cbn [List.length]. lia.
    + intros c. unfold spoken_by. cbn [filter].
      destruct (str_eqb (speaker e) c); cbn [List.length]; lia.
Qed.

Lemma set_add_nodup (x : str) (l : list str) :
  NoDup l -> NoDup (Py.set_add x l).
Proof.
  intros H. unfold Py.set_add. destruct (Py.set_mem x l) eqn:E; [exact H|].
  assert (Hx : ~ In x l).
  { intros Hin. apply ParseFacts.set_mem_in in Hin. congruence. }
  clear E. induction H as [|y l Hy Hl IH]; simpl.
  - constructor; [intros [] | constructor].
  - constructor.
    + rewrite in_app_iff. simpl. intros [H | [H | []]]; [auto|].
      apply Hx. simpl. auto.
    + apply IH. intros H. apply Hx. simpl. auto.
Qed.

Lemma set_update_nodup (xs : list str) :
  forall l, NoDup l -> NoDup (Py.set_update l xs).
Proof.
  unfold Py.set_update. induction xs as [|x xs IH]; intros l H; [exact H|].
  cbn [fold_left]. apply IH, set_add_nodup, H.
Qed.

Lemma unique_nodup (data : list scene) :
  forall l, NoDup l ->
            NoDup (fold_left (fun acc sc => Py.set_update acc (characters sc))
                             data l).
Proof.
  induction data as [|sc data IH]; intros l H; [exact H|].
  cbn [fold_left]. apply IH, set_update_nodup, H.
Qed.

(** Where every speaker is listed, the lines of the characters add up to
    the number of the dialogue lines. *)
Lemma statistics_sum (data : list scene) (st : statistics) :
  forallb speakers_listed data = true ->
  calculate_script_statistics data = Some st ->
  sumZ (map (fun kv => total_lines (snd kv)) (character_stats st))
  = total_dialogue_lines st.
Proof.
  intros Hl Hst.
  destruct (statistics_counts _ _ Hl Hst) as (Hf & _ & He).
  destruct (statistics_fields _ _ Hst) as (_ & _ & -> & _).
  rewrite sum_scene_len.
  assert (Hn : NoDup (map fst (character_stats st))).
  { revert Hst. unfold calculate_script_statistics.
    destruct (map_opt page_numerator (all_pages data)); [|discriminate].
    cbn [opt_bind]. intros H. injection H as <-. cbn [character_stats].
    rewrite with_average_keys.
    destruct (characters_fold data [] [] eq_refl (Forall_nil _)) as [Hk _].
    cbv zeta in Hk. rewrite Hk. apply unique_nodup. constructor. }
  rewrite <- (spoken_sum _ _ Hn He), map_map.
  f_equal. apply map_ext_in. intros kv Hkv.
  rewrite Forall_forall in Hf. apply (Hf kv Hkv).
Qed.

(** The dictionary [character_stats] of the statistics. *)
Lemma statistics_characters (data : list scene) (st : statistics) :
  calculate_script_statistics data = Some st ->
  map fst (character_stats st) = unique_characters st
  /\ Forall (fun kv =>
               stat_ok (snd kv)
               /\ average_lines_per_scene (snd kv)
                  = ratio (total_lines (snd kv)) (scenes_appeared (snd kv)))
            (character_stats st).
Proof.
  unfold calculate_script_statistics.
  destruct (map_opt page_numerator (all_pages data)); [|discriminate].
  cbn [opt_bind]. intros H. injection H as <-.
  cbn [character_stats unique_characters].
  destruct (characters_fold data [] [] eq_refl (Forall_nil _)) as [Hk Hok].
  cbv zeta in Hk, Hok. split.
  - rewrite map_map. simpl. exact Hk.
  - rewrite Forall_map. eapply Forall_impl; [|exact Hok].
    intros kv [H1 H2]. unfold with_average. simpl.
    destruct (0 <? scenes_appeared (snd kv)) eqn:E.
    + simpl. split; [split; assumption | reflexivity].
    + apply Z.ltb_ge in E. lia.
Qed.

(** *** The average lies between the extremes *)

Lemma sumZ_bounds (lo hi : Z) (l : list Z) :
  Forall (fun y => lo <= y <= hi) l ->
  Z.of_nat (List.length l) * lo <= sumZ l <= Z.of_nat (List.length l) * hi.
Proof.
  induction 1 as [|y l Hy _ IH]; [unfold sumZ; simpl; lia|].
  rewrite sumZ_cons. cbn [List.length]. lia.
Qed.

Lemma ratio_bounds (a k lo hi : Z) :
  0 < k -> k * lo <= a <= k * hi ->
  (inject_Z lo <= ratio a k <= inject_Z hi)%Q.
Proof.
  intros Hk [H1 H2].
  assert (Hq : (0 < inject_Z k)%Q).
  { change (inject_Z 0 < inject_Z k)%Q. rewrite <- Zlt_Qlt. exact Hk. }
  unfold ratio. split.
  - apply Qle_shift_div_l; [exact Hq|].
    rewrite <- inject_Z_mult, <- Zle_Qle. lia.
  - apply Qle_shift_div_r; [exact Hq|].
    rewrite <- inject_Z_mult, <- Zle_Qle. lia.
Qed.

(** The unique characters of the statistics, as they are collected. *)
Lemma statistics_unique (data : list scene) (st : statistics) :
  calculate_script_statistics data = Some st ->
  unique_characters st
  = fold_left (fun acc sc => Py.set_update acc (characters sc)) data [].
Proof.
  unfold calculate_script_statistics.
  destruct (map_opt page_numerator (all_pages data)); [|discriminate].
  cbn [opt_bind]. intros H. injection H as <-. reflexivity.
Qed.

End StatMore.

(** ** Further facts about the scrubber *)

Module ScrubMore.

Lemma count_true_cons (b : bool) (l : list bool) :
  count_true (b :: l) = (if b then 1 else 0) + count_true l.
Proof. unfold count_true. destruct b; simpl List.length; lia. Qed.

Lemma count_true_range (l : list bool) :
  0 <= count_true l <= Z.of_nat (List.length l).
Proof.
  induction l as [|b l IH]; [unfold count_true; simpl; lia|].
  rewrite count_true_cons. simpl List.length. destruct b; lia.
Qed.

Lemma scrub_entry_spec (t : str) (e : entry) :
  scrubbed e (fst (scrub_entry t e))
  /\ (snd (scrub_entry t e) = false <-> fst (scrub_entry t e) = e).
Proof.
  unfold scrub_entry, scrubbed.
  destruct (str_eqb (scrub_line t (line e)) (line e)) eqn:E; simpl.
  - repeat split; auto.
  - assert (N : scrub_line t (line e) <> line e).
    { intros H. apply ParseFacts.str_eqb_eq in H. congruence. }
    repeat split; auto; try discriminate.
    intros H. apply (f_equal line) in H. simpl in H. contradiction.
Qed.

Lemma scrub_entries_spec (t : str) (d : list entry) :
  let r := map (scrub_entry t) d in
  Forall2 scrubbed d (map fst r)
  /\ 0 <= count_true (map snd r) <= Z.of_nat (List.length d)
  /\ (count_true (map snd r) = 0 <-> map fst r = d).
Proof.
  cbv zeta. induction d as [|e d (IH1 & IH2 & IH3)].
  - simpl. repeat split; auto; try constructor; unfold count_true; simpl; lia.
  - cbn [map]. rewrite count_true_cons.
    destruct (scrub_entry_spec t e) as (H1 & H2).
    pose proof (count_true_range (map snd (map (scrub_entry t) d))) as R.
    split; [constructor; assumption|]. split.
    + simpl List.length. destruct (snd (scrub_entry t e)); lia.
    + split.
      * intros H. destruct (snd (scrub_entry t e)) eqn:E; [lia|].
        f_equal; [apply H2; reflexivity | apply IH3; lia].
      * intros H. injection H as He Hd. apply H2 in He. rewrite He.
        apply IH3 in Hd. lia.
Qed.

Lemma scrub_scene_spec (t : str) (sc : scene) :
  scrubbed_scene sc (fst (scrub_scene t sc))
  /\ 0 <= snd (scrub_scene t sc) <= Z.of_nat (List.length (dialogue sc))
  /\ (snd (scrub_scene t sc) = 0 <-> fst (scrub_scene t sc) = sc).
Proof.
  destruct (scrub_entries_spec t (dialogue sc)) as (H1 & H2 & H3).
  cbv zeta in *. unfold scrub_scene, scrubbed_scene. cbn [fst snd].
  split; [|split; [exact H2|]].
  - simpl. repeat split; auto.
  - rewrite H3. split.
    + intros H. rewrite H. destruct sc; reflexivity.
    + intros H. apply (f_equal dialogue) in H. exact H.
Qed.

Lemma sumZ_range (l : list Z) (b : list Z) :
  Forall2 (fun x y => 0 <= x <= y) l b ->
  0 <= sumZ l <= sumZ b /\ (sumZ l = 0 <-> Forall (fun x => x = 0) l).
Proof.
  induction 1 as [|x y l b Hxy H (IH1 & IH2)].
  - split; [unfold sumZ; simpl; lia|]. split; [constructor | reflexivity].
  - rewrite !StatMore.sumZ_cons. split; [lia|]. split.
    + intros Hs. constructor; [lia | apply IH2; lia].
    + intros Hs. inversion Hs; subst. apply IH2 in H3. lia.
Qed.

(** The scrubber on all the scenes. *)
Lemma scrub_scenes_spec (t : str) (data : list scene) :
  let r := map (scrub_scene t) data in
  Forall2 scrubbed_scene data (map fst r)
  /\ 0 <= sumZ (map snd r) <= Z.of_nat (List.length (all_entries data))
  /\ (sumZ (map snd r) = 0 <-> map fst r = data).
Proof.
  cbv zeta.
  assert (H2 : Forall2 (fun x y => 0 <= x <= y)
                 (map snd (map (scrub_scene t) data))
                 (map scene_len data)).
  { induction data as [|sc data IH]; [constructor|]. cbn [map].
    constructor; [|exact IH]. apply scrub_scene_spec. }
  destruct (sumZ_range _ _ H2) as (R1 & R2).
  rewrite StatMore.sum_scene_len in R1.
  split; [|split; [exact R1|]].
  - clear. induction data as [|sc data IH]; [constructor|]. cbn [map].
    constructor; [apply scrub_scene_spec | exact IH].
  - rewrite R2. clear. induction data as [|sc data IH]; cbn [map].
    + split; [reflexivity | constructor].
    + destruct (scrub_scene_spec t sc) as (_ & _ & H3). split.
      * intros H. inversion H; subst. f_equal; [apply H3 | apply IH]; auto.
      * intros H. injection H as Hs Hd.
        constructor; [apply H3 | apply IH]; assumption.
Qed.

Lemma Forall2_same {A : Type} (R : A -> A -> Prop) (l : list A) :
  (forall x, R x x) -> Forall2 R l l.
Proof. intros H. induction l; constructor; auto. Qed.

(** A scrubbed line is normalised. *)
Lemma scrub_line_normalised (t x : str) : normalised (scrub_line t x).
Proof.
  unfold normalised, scrub_line. rewrite ScrubFacts.sub_spaces. split.
  - apply ScrubFacts.strip_idem.
  - apply ScrubFacts.tidy_strip, ScrubFacts.tidy_squeeze.
Qed.

(** The scrubber keeps the shape of the scenes and counts at most one
    change per entry. *)
Lemma scrubber_bounds (data : list scene) (title : option str) :
  let r := clean_episode_title_from_dialogue data title in
  Forall2 scrubbed_scene data (fst r)
  /\ 0 <= snd r <= Z.of_nat (List.length (all_entries data)).
Proof.
  cbv zeta.
  assert (Hid : Forall2 scrubbed_scene data data
                /\ 0 <= 0 <= Z.of_nat (List.length (all_entries data))).
  { split; [|lia].
    apply Forall2_same. intros sc. unfold scrubbed_scene.
    repeat split; auto. apply Forall2_same.
    intros e. unfold scrubbed. auto. }
  unfold clean_episode_title_from_dialogue.
  destruct title as [t|]; [|exact Hid].
  destruct (Py.truthy t); [|exact Hid].
  destruct (scrub_scenes_spec t data) as (H1 & H2 & _). auto.
Qed.

End ScrubMore.

(** ** Further facts about the metadata *)

Module MetaMore.

Import Re Sem ReFacts.

(** *** Numbers *)

Lemma digit_value (c : ascii) :
  Chr.is_digit c = true -> 0 <= Z.of_N (Chr.code c - 48) <= 9.
Proof.
  unfold Chr.is_digit, Chr.between. generalize (Chr.code c). intros n H.
  apply andb_true_iff in H. destruct H as [H1 H2].
  apply N.leb_le in H1, H2. lia.
Qed.

Lemma digits_value_nonneg (w : str) :
  all_digits w ->
  forall acc need v,
    0 <= acc -> Py.digits_value acc need w = Some v -> 0 <= v.
Proof.
  induction 1 as [|c w Hc Hw IH]; intros acc need v Ha H; simpl in H.
  - destruct need; [discriminate | injection H as <-; exact Ha].
  - rewrite Hc in H.
    apply (IH (10 * acc + Z.of_N (Chr.code c - 48)) false v); [|exact H].
    pose proof (digit_value c Hc). lia.
Qed.

(** On a non-empty string of digits [int] reads the digits. *)
Lemma int_digits_eq (w : str) :
  all_digits w -> w <> [] -> Py.int w = Py.digits_value 0 true w.
Proof.
  intros Hd Hn. unfold Py.int.
  assert (L : forall c t, Chr.is_digit c = true ->
                          Py.int_lstrip (c :: t) = c :: t).
  { intros c t Hc. simpl. rewrite (IntFacts.digit_not_int_space c Hc).
    reflexivity. }
  assert (E : Py.int_strip w = w).
  { unfold Py.int_strip. destruct w as [|c t]; [congruence|].
    rewrite L by (inversion Hd; assumption).
    destruct (exists_last (l := c :: t)) as (y & d & Ey); [discriminate|].
    rewrite Ey in *. rewrite rev_app_distr.
    change (rev [d] ++ rev y) with (d :: rev y). rewrite L.
    - simpl. rewrite rev_involutive. reflexivity.
    - unfold all_digits in Hd. rewrite Forall_app in Hd.
      destruct Hd as [_ Hd]. inversion Hd; assumption. }
  rewrite E. destruct w as [|c t]; [congruence|].
  assert (Hc : Chr.is_digit c = true) by (inversion Hd; assumption).
  destruct (IntFacts.digit_not_sign c Hc) as (-> & -> & _). reflexivity.
Qed.

Lemma int_digits_nonneg (w : str) (v : Z) :
  all_digits w -> w <> [] -> Py.int w = Some v -> 0 <= v.
Proof.
  intros Hd Hn H. rewrite (int_digits_eq w Hd Hn) in H.
  apply (digits_value_nonneg w Hd 0 true v); [lia | exact H].
Qed.

Lemma digits_value_upper (w : str) :
  all_digits w ->
  forall acc need v,
    0 <= acc -> Py.digits_value acc need w = Some v ->
    v < (acc + 1) * 10 ^ Z.of_nat (List.length w).
Proof.
  induction 1 as [|c w Hc Hw IH]; intros acc need v Ha H.
  - simpl in H. destruct need; [discriminate|]. injection H as <-.
    simpl. lia.
  - assert (E : Py.digits_value acc need (c :: w)
                = Py.digits_value (10 * acc + Z.of_N (Chr.code c - 48))
                                  false w).
    { simpl. rewrite Hc. reflexivity. }
    rewrite E in H. pose proof (digit_value c Hc) as Hv.
    apply IH in H; [|lia].
    replace (Z.of_nat (List.length (c :: w)))
      with (Z.succ (Z.of_nat (List.length w)))
      by (simpl List.length; lia).
    rewrite Z.pow_succ_r by lia.
    assert (Hp : 0 < 10 ^ Z.of_nat (List.length w))
      by (apply Z.pow_pos_nonneg; lia).
    nia.
Qed.

(** One or two digits read as a number up to 99. *)
Lemma int_two_digits (w : str) (v : Z) :
  all_digits w -> (1 <= List.length w <= 2)%nat ->
  Py.int w = Some v -> 0 <= v <= 99.
Proof.
  intros Hd Hl H.
  assert (Hn : w <> []) by (intros ->; simpl in Hl; lia).
  split; [eapply int_digits_nonneg; eassumption|].
  rewrite (int_digits_eq w Hd Hn) in H.
  apply (digits_value_upper w Hd) in H; [|lia].
  assert (Hp : 10 ^ Z.of_nat (List.length w) <= 100).
  { destruct (List.length w) as [|[|[|k]]]; simpl; lia. }
  lia.
Qed.

Lemma group_int_nonneg (r : regex) (x : str) (v : Z) :
  (forall m, search false r x = Some m ->
             exists w, group 1 m = Some w /\ all_digits w /\ w <> []) ->
  group_int r x = Some (Some v) -> 0 <= v.
Proof.
  intros Hg. unfold group_int.
  destruct (search false r x) as [m|]; [|discriminate].
  destruct (Hg m eq_refl) as (w & -> & Hd & Hn).
  destruct (Py.int w) as [u|] eqn:E; [|discriminate]. simpl.
  intros H. injection H as <-. eapply int_digits_nonneg; eassumption.
Qed.

Lemma page_numerator_range (tok : str) (v : Z) :
  is_page_token tok -> page_numerator tok = Some v -> 0 <= v <= 99.
Proof.
  intros (a & b & -> & Da & _ & La & _). unfold page_numerator, Py.split.
  change (s "/" ++ b) with ("/"%char :: b).
  rewrite (IntFacts.split_from_digits a Da). simpl.
  apply int_two_digits; assumption.
Qed.

Lemma map_opt_forall {A B : Type} (f : A -> option B) (P : A -> Prop)
  (Q : B -> Prop) (l : list A) (bs : list B) :
  (forall a b, P a -> f a = Some b -> Q b) ->
  Forall P l -> map_opt f l = Some bs -> Forall Q bs.
Proof.
  intros Hf H. revert bs. induction H as [|a l Ha Hl IH]; intros bs E;
    simpl in E.
  - injection E as <-. constructor.
  - destruct (f a) as [b|] eqn:Eb; [|discriminate]. simpl in E.
    destruct (map_opt f l) as [bs'|]; [|discriminate]. simpl in E.
    injection E as <-. constructor; eauto.
Qed.

Lemma maxZ_range (lo hi x : Z) (l : list Z) :
  lo <= x <= hi -> Forall (fun y => lo <= y <= hi) l ->
  lo <= maxZ x l <= hi.
Proof.
  intros Hx Hl. destruct (StatMore.maxZ_spec l x) as (_ & _ & [-> | H]);
    [exact Hx|].
  rewrite Forall_forall in Hl. apply Hl, H.
Qed.

Lemma minZ_range (lo hi x : Z) (l : list Z) :
  lo <= x <= hi -> Forall (fun y => lo <= y <= hi) l ->
  lo <= minZ x l <= hi.
Proof.
  intros Hx Hl. destruct (StatMore.minZ_spec l x) as (_ & _ & [-> | H]);
    [exact Hx|].
  rewrite Forall_forall in Hl. apply Hl, H.
Qed.

Lemma max_page_range (pages : list str) (v : Z) :
  Forall is_page_token pages -> max_page pages = Some (Some v) ->
  0 <= v <= 99.
Proof.
  intros H. unfold max_page. destruct pages as [|p pages]; [discriminate|].
  destruct (map_opt page_numerator (p :: pages)) as [nums|] eqn:E;
    [|discriminate].
  apply (map_opt_forall _ _ (fun y => 0 <= y <= 99) _ _
           page_numerator_range H) in E.
  simpl. destruct nums as [|n ns]; [discriminate|].
  intros Hv. injection Hv as <-. inversion E; subst.
  apply maxZ_range; assumption.
Qed.

(** *** Names of credits *)

Lemma lstrip_in (c : ascii) (x : str) : In c (Py.lstrip x) -> In c x.
Proof.
  induction x as [|a x IH]; simpl; [auto|].
  destruct (Chr.is_space a); auto.
Qed.

Lemma strip_in (c : ascii) (x : str) : In c (Py.strip x) -> In c x.
Proof.
  unfold Py.strip, Py.rstrip. intros H. apply in_rev in H.
  apply lstrip_in in H. apply in_rev in H. apply lstrip_in in H. exact H.
Qed.

Lemma split_from_parts (c : ascii) (x : str) :
  forall cur part,
    ~ In c cur -> In part (Py.split_from c cur x) -> ~ In c part.
Proof.
  induction x as [|a x IH]; intros cur part Hc H; simpl in H.
  - destruct H as [<- | []]. rewrite <- in_rev. exact Hc.
  - destruct (Chr.eqb a c) eqn:E.
    + destruct H as [<- | H]; [rewrite <- in_rev; exact Hc|].
      apply (IH [] part); auto.
    + apply (IH (a :: cur) part); [|exact H].
      intros [-> | H']; [|auto].
      unfold Chr.eqb in E. rewrite Ascii.eqb_refl in E. discriminate.
Qed.

(** The names that [split_names] returns are clean. *)
Lemma split_names_clean (text : str) : Forall clean_name (split_names text).
Proof.
  unfold split_names. rewrite Forall_map. apply Forall_forall.
  intros w Hw. apply filter_In in Hw. destruct Hw as [Hin Ht].
  unfold clean_name. split; [|split].
  - destruct (Py.strip w); [discriminate | discriminate].
  - intros H. apply strip_in in H.
    apply (split_from_parts "&"%char text [] w); auto.
  - apply ScrubFacts.strip_idem.
Qed.

Lemma flat_map_forall {A B : Type} (P : B -> Prop) (f : A -> list B)
  (l : list A) :
  (forall a, Forall P (f a)) -> Forall P (flat_map f l).
Proof.
  intros H. induction l as [|a l IH]; simpl; [constructor|].
  rewrite Forall_app. auto.
Qed.

Lemma credits_of_clean (r : regex) (lines : list str) :
  Forall clean_name (credits_of r lines).
Proof.
  unfold credits_of. apply flat_map_forall. intros l.
  destruct (search true r l) as [m|]; [|constructor].
  destruct (group 1 m); [apply split_names_clean | constructor].
Qed.

Lemma routed_clean (keep : str -> bool) (lines : list str) :
  Forall clean_name (routed keep lines).
Proof.
  unfold routed. apply flat_map_forall. intros pat.
  destruct (keep _); [apply credits_of_clean | constructor].
Qed.

Lemma transcribed_clean (lines : list str) :
  forall i, Forall clean_name (transcribed_writers i lines).
Proof.
  induction lines as [|l lines IH]; intros i; simpl; [constructor|].
  destruct (Nat.ltb i 3); [|apply IH].
  destruct (rmatch false Pat.transcribed (Py.strip l)) as [m|]; [|apply IH].
  destruct (group 1 m); [apply split_names_clean | apply IH].
Qed.

(** *** Titles *)

Lemma combine_title_prefix (clean_line : str) (rest : list str) :
  exists more, combine_title clean_line rest = clean_line ++ more.
Proof.
  unfold combine_title.
  destruct (_ || _); [|exists []; rewrite app_nil_r; reflexivity].
  destruct rest as [|l1 rest]; [exists []; rewrite app_nil_r; reflexivity|].
  destruct (is_continuation (Py.strip l1));
    [|exists []; rewrite app_nil_r; reflexivity].
  destruct (unbalanced _); [|eexists; reflexivity].
  destruct rest as [|l2 rest]; [eexists; reflexivity|].
  destruct (is_continuation (Py.strip l2)); [|eexists; reflexivity].
  eexists. rewrite <- !app_assoc. reflexivity.
Qed.

(** The two scans for the title stop at the same line. *)
Lemma titles_scan (n : nat) :
  forall lines,
    match first_title n lines with
    | None =>
        find_title n lines = None
        /\ forall i raw, (i < n)%nat -> nth_error lines i = Some raw ->
                         starts_title raw = false
    | Some t0 =>
        (exists more, find_title n lines = Some (t0 ++ more))
        /\ title_at n lines t0
    end.
Proof.
  induction n as [|n IH]; intros lines.
  - simpl. split; [reflexivity|]. intros i raw Hi. lia.
  - destruct lines as [|l rest].
    + simpl. split; [reflexivity|]. intros [|i] raw _ H; discriminate H.
    + cbn [first_title find_title]. fold (starts_title l).
      destruct (starts_title l) eqn:E.
      * split.
        { destruct (combine_title_prefix (Py.strip l) rest) as [more ->].
          exists more. reflexivity. }
        exists 0%nat, l. split; [lia|]. split; [reflexivity|].
        split; [reflexivity|]. split; [exact E|]. intros j r Hj. lia.
      * specialize (IH rest). destruct (first_title n rest) as [t0|].
        -- destruct IH as (Hf & i & raw & Hi & Hn & Ht & Hs & Hb).
           split; [exact Hf|]. exists (S i), raw.
           split; [lia|]. split; [exact Hn|]. split; [exact Ht|].
           split; [exact Hs|].
           intros [|j] r Hj Hr; simpl in Hr.
           ++ injection Hr as <-. exact E.
           ++ apply (Hb j r); [lia | exact Hr].
        -- destruct IH as (Hf & Hb). split; [exact Hf|].
           intros [|i] raw Hi Hr; simpl in Hr.
           ++ injection Hr as <-. exact E.
           ++ apply (Hb i raw); [lia | exact Hr].
Qed.

End MetaMore.

(** ** Further facts about the pipeline *)

Module PipeMore.

(** The range of the pages of the statistics. *)
Lemma statistics_page_range (data : list scene) (st : statistics)
  (a b : Z) :
  Forall pages_ok data ->
  calculate_script_statistics data = Some st ->
  page_range st = Some (a, b) -> 0 <= a <= b /\ b <= 99.
Proof.
  intros Hp. unfold calculate_script_statistics.
  destruct (map_opt page_numerator (all_pages data)) as [nums|] eqn:E;
    [|discriminate].
  apply (MetaMore.map_opt_forall _ _ (fun y => 0 <= y <= 99) _ _
           MetaMore.page_numerator_range (StatFacts.all_pages_ok data Hp))
    in E.
  cbn [opt_bind]. intros H. injection H as <-. cbn [page_range].
  destruct nums as [|n ns]; [discriminate|]. intros H. injection H as <- <-.
  inversion E; subst.
  pose proof (MetaMore.minZ_range 0 99 n ns) as Hmin.
  pose proof (MetaMore.maxZ_range 0 99 n ns) as Hmax.
  destruct (StatMore.minZ_spec ns n) as (M1 & _).
  destruct (StatMore.maxZ_spec ns n) as (M2 & _).
  specialize (Hmin H1 H2). specialize (Hmax H1 H2). lia.
Qed.

Lemma Forall2_length_entries (data data' : list scene) :
  Forall2 scrubbed_scene data data' ->
  List.length (all_entries data') = List.length (all_entries data).
Proof.
  unfold all_entries. induction 1 as [|sc sc' d d' Hs H IH]; [reflexivity|].
  simpl. rewrite !length_app, IH. f_equal.
  destruct Hs as (_ & _ & _ & _ & _ & _ & _ & Hd).
  symmetry. eapply Forall2_length. exact Hd.
Qed.

(** *** The characters of a scene are distinct *)

Lemma characters_nodup_step (md : metadata) (st : pstate) (i : nat)
  (raw : str) :
  Forall (fun sc => NoDup (characters sc)) (scenes_of st) ->
  Forall (fun sc => NoDup (characters sc))
         (scenes_of (parse_line md st (i, raw))).
Proof.
  rewrite !ParseFacts.Forall_scenes_of. intros [Hd Hc].
  rewrite ParseFacts.parse_line_cases. cbv zeta.
  destruct (classify (Py.strip raw)) as [|name| |name text|].
  - auto.
  - cbn [script_data current_scene]. split.
    + apply ParseFacts.Forall_after_heading; assumption.
    + constructor.
  - cbn [script_data current_scene]. auto.
  - cbn [script_data current_scene add_character characters].
    split; [exact Hd|]. apply StatMore.set_add_nodup.
    rewrite ParseFacts.flush_characters. exact Hc.
  - destruct (Py.truthy_opt (current_speaker st));
      cbn [script_data current_scene]; auto.
Qed.

Lemma parse_characters_nodup (text : str) (md : metadata) :
  Forall (fun sc => NoDup (characters sc)) (parse_friends_script text md).
Proof.
  unfold parse_friends_script.
  assert (H : Forall (fun sc => NoDup (characters sc))
                (scenes_of (parse_loop md (Py.splitlines text)))).
  { apply (ParseFacts.parse_loop_inv md (Py.splitlines text)
             (fun _ st => Forall (fun sc => NoDup (characters sc))
                                 (scenes_of st))).
    - rewrite ParseFacts.Forall_scenes_of. split; constructor.
    - intros i raw st _. apply characters_nodup_step. }
  rewrite ParseFacts.Forall_scenes_of in H. destruct H as [Hd Hc].
  destruct (MoreFacts.finish_flushed md (List.length (Py.splitlines text))
                (parse_loop md (Py.splitlines text)))
    as [-> | (sp & _ & ->)]; [exact Hd|].
  rewrite Forall_app. split; [exact Hd|].
  constructor; [exact Hc | constructor].
Qed.

Lemma listed_app (c : str) (l k : list str) :
  listed c (l ++ k) = listed c l + listed c k.
Proof. unfold listed. rewrite filter_app, length_app. lia. Qed.

Lemma listed_nodup (c : str) (l : list str) :
  NoDup l -> listed c l = if Py.set_mem c l then 1 else 0.
Proof.
  intros H. destruct (Py.set_mem c l) eqn:E.
  - apply ParseFacts.set_mem_in in E. apply in_split in E.
    destruct E as (l1 & l2 & ->). apply NoDup_remove_2 in H.
    rewrite in_app_iff in H.
    change (c :: l2) with ([c] ++ l2). rewrite !listed_app.
    rewrite (StatMore.listed_none c l1), (StatMore.listed_none c l2) by tauto.
    unfold listed. cbn [filter].
    rewrite (proj2 (ParseFacts.str_eqb_eq c c) eq_refl). reflexivity.
  - apply StatMore.listed_none. intros Hin.
    apply ParseFacts.set_mem_in in Hin. congruence.
Qed.

(** With distinct characters in each scene, a name is listed as often as
    there are scenes that list it. *)
Lemma listed_scenes (c : str) (data : list scene) :
  Forall (fun sc => NoDup (characters sc)) data ->
  listed c (flat_map characters data) = scenes_listing c data.
Proof.
  unfold scenes_listing. induction 1 as [|sc data Hsc _ IH]; [reflexivity|].
  cbn [flat_map filter]. rewrite listed_app, IH, (listed_nodup _ _ Hsc).
  destruct (Py.set_mem c (characters sc)); cbn [List.length]; lia.
Qed.

Lemma speakers_in_listed (data : list scene) :
  Forall speakers_in data -> forallb speakers_listed data = true.
Proof.
  intros H. apply forallb_forall. intros sc Hsc.
  rewrite Forall_forall in H. specialize (H sc Hsc).
  unfold speakers_listed. apply forallb_forall. intros e He.
  apply ParseFacts.set_mem_in, H, He.
Qed.

Lemma scrub_scene_characters (t : str) (sc : scene) :
  NoDup (characters sc) -> NoDup (characters (fst (scrub_scene t sc))).
Proof. intros H. exact H. Qed.

End PipeMore.

(** ** The matcher finds the matches that exist *)

Module ReMore.

Import Re Sem ReFacts.

Lemma iter_bound (R : mstate -> mstate -> Prop)
  (HR : forall st st', R st st' -> exists w, moved w st st') (n : nat) :
  forall st st', iter R n st st' -> (n <= List.length (m_suf st))%nat.
Proof.
  induction n as [|n IH]; simpl; intros st st' H; [lia|].
  destruct H as (mid & H1 & Hlt & H2).
  specialize (IH _ _ H2). destruct (HR _ _ H1) as [w M].
  pose proof (moved_pos _ _ _ M) as Hp. destruct M as [_ Hs].
  rewrite Hs, length_app. lia.
Qed.

Lemma rounds_O (body : (mstate -> option mstate) -> mstate -> option mstate)
  (greedy : bool) (lo : nat) (hi : option nat) (k : mstate -> option mstate)
  (cnt : nat) (st0 : mstate) :
  rounds body greedy lo hi k 0 cnt st0
  = if Nat.leb lo cnt then k st0 else None.
Proof. reflexivity. Qed.

Lemma rounds_S (body : (mstate -> option mstate) -> mstate -> option mstate)
  (greedy : bool) (lo : nat) (hi : option nat) (k : mstate -> option mstate)
  (fuel cnt : nat) (st0 : mstate) :
  rounds body greedy lo hi k (S fuel) cnt st0
  = let stop := if Nat.leb lo cnt then k st0 else None in
    let more :=
      if below hi cnt
      then body (fun st' => if Nat.ltb (pos st0) (pos st')
                            then rounds body greedy lo hi k fuel (S cnt) st'
                            else None) st0
      else None in
    if greedy then orelse more stop else orelse stop more.
Proof. reflexivity. Qed.

Section Complete.

Variable ic : bool.

Lemma rounds_complete (r1 : regex) (greedy : bool) (lo : nat) (hi : option nat)
  (k : mstate -> option mstate)
  (IH : forall k' st st',
      den ic r1 st st' -> k' st' <> None -> exec ic r1 k' st <> None) :
  forall n fuel cnt st0 st',
    iter (den ic r1) n st0 st' -> (n <= fuel)%nat ->
    (lo <= cnt + n)%nat -> within hi (cnt + n) -> k st' <> None ->
    rounds (exec ic r1) greedy lo hi k fuel cnt st0 <> None.
Proof.
  induction n as [|n IHn]; intros fuel cnt st0 st' Hit Hf Hlo Hhi Hk.
  - simpl in Hit. subst st'. rewrite Nat.add_0_r in Hlo.
    apply Nat.leb_le in Hlo.
    destruct fuel as [|fuel]; [rewrite rounds_O, Hlo; exact Hk|].
    rewrite rounds_S. cbv zeta. rewrite Hlo. unfold orelse.
    destruct greedy.
    + destruct (if below hi cnt then _ else None); [discriminate | exact Hk].
    + destruct (k st0); [discriminate | congruence].
  - destruct fuel as [|fuel]; [lia|].
    destruct Hit as (mid & H1 & Hlt & H2). rewrite rounds_S. cbv zeta.
    assert (Hb : below hi cnt = true).
    { destruct hi as [h|]; simpl in *; [apply Nat.ltb_lt; lia | reflexivity]. }
    rewrite Hb.
    assert (Hm : exec ic r1
                   (fun st' => if Nat.ltb (pos st0) (pos st')
                               then rounds (exec ic r1) greedy lo hi k
                                           fuel (S cnt) st'
                               else None) st0 <> None).
    { apply (IH _ _ mid H1). apply Nat.ltb_lt in Hlt. rewrite Hlt.
      apply (IHn fuel (S cnt) mid st' H2); [lia | lia | | exact Hk].
      replace (S cnt + n)%nat with (cnt + S n)%nat by lia. exact Hhi. }
    unfold orelse. destruct greedy.
    + destruct (exec ic r1 _ st0); [discriminate | congruence].
    + destruct (if Nat.leb lo cnt then k st0 else None);
        [discriminate | exact Hm].
Qed.

(** Where the pattern has a match that the continuation accepts, the
    matcher returns a result. *)
Lemma exec_complete (r : regex) :
  forall k st st',
    den ic r st st' -> k st' <> None -> exec ic r k st <> None.
Proof.
  induction r as [ |c|p| | | |r1 IH1 r2 IH2|r1 IH1 r2 IH2|g lo hi r1 IH1|n r1 IH1];
    intros k st st' D K; simpl in D; cbn [exec].
  - subst st'. exact K.
  - destruct D as (x & t & Hs & Hok & ->). unfold one. rewrite Hs, Hok.
    exact K.
  - destruct D as (x & t & Hs & Hok & ->). unfold one. rewrite Hs, Hok.
    exact K.
  - destruct D as [Hp ->]. rewrite Hp. exact K.
  - destruct D as [[Hs | Hs] ->]; rewrite Hs; [exact K|].
    unfold Chr.eqb. rewrite Ascii.eqb_refl. exact K.
  - destruct D as [Hx ->]. rewrite Hx. exact K.
  - destruct D as (mid & D1 & D2).
    apply (IH1 _ _ mid D1). apply (IH2 _ _ _ D2 K).
  - unfold orelse. destruct (exec ic r1 k st) eqn:E; [discriminate|].
    destruct D as [D | D]; [|apply (IH2 _ _ _ D K)].
    exfalso. apply (IH1 _ _ _ D K). exact E.
  - destruct D as (n & Hlo & Hhi & Hit).
    apply (rounds_complete r1 g lo hi k IH1 n _ 0%nat st st' Hit);
      [|lia | exact Hhi | exact K].
    apply (iter_bound _ (den_moved ic r1) n st st' Hit).
  - destruct D as (mid & D1 & ->). apply (IH1 _ _ mid D1). exact K.
Qed.

Lemma match_at_complete (r : regex) (pre suf : str) (st' : mstate) :
  den ic r (MState pre suf []) st' -> match_at ic r pre suf <> None.
Proof.
  intros D. unfold match_at.
  pose proof (exec_complete r (fun st => Some st) _ _ D) as H.
  destruct (exec ic r _ _); [discriminate|].
  exfalso. apply H; [discriminate | reflexivity].
Qed.

Lemma search_from_complete (r : regex) (mid : str) :
  forall pre suf,
    match_at ic r (rev mid ++ pre) suf <> None ->
    search_from ic r pre (mid ++ suf) <> None.
Proof.
  induction mid as [|c mid IH]; intros pre suf H.
  - simpl in *. destruct suf; simpl;
      destruct (match_at ic r pre _); congruence.
  - cbn [app search_from].
    destruct (match_at ic r pre (c :: mid ++ suf)); [discriminate|].
    apply IH. simpl in H. rewrite <- app_assoc in H. exact H.
Qed.

(** [re.search] finds a match when the pattern matches somewhere. *)
Lemma search_complete (r : regex) (before suf : str) (st' : mstate) :
  den ic r (MState (rev before) suf []) st' ->
  search ic r (before ++ suf) <> None.
Proof.
  intros D. unfold search. apply search_from_complete.
  rewrite app_nil_r. eapply match_at_complete. exact D.
Qed.

Lemma iter_cls_intro (p : ascii -> bool) (w : str) :
  forall pre rest caps,
    Forall (fun x => cls_ok ic p x = true) w ->
    iter (den ic (Cls p)) (List.length w)
         (MState pre (w ++ rest) caps) (MState (rev w ++ pre) rest caps).
Proof.
  induction w as [|x w IH]; intros pre rest caps H; [reflexivity|].
  inversion H as [|? ? Hx Hw]. subst.
  cbn [List.length iter]. exists (MState (x :: pre) (w ++ rest) caps).
  split; [exists x, (w ++ rest); auto|].
  split; [unfold pos; simpl; lia|].
  cbn [rev]. rewrite <- app_assoc. apply IH, Hw.
Qed.

End Complete.

(** *** The page marker at the end of a line *)

Lemma digit_is_word (c : ascii) : Chr.is_digit c = true -> Chr.is_word c = true.
Proof. intros H. unfold Chr.is_word. rewrite H. reflexivity. Qed.

Lemma den_digits_intro (lo hi : nat) (w pre rest : str)
  (caps : list (nat * str)) :
  all_digits w -> (lo <= List.length w <= hi)%nat ->
  den false (times lo hi digit) (MState pre (w ++ rest) caps)
      (MState (rev w ++ pre) rest caps).
Proof.
  intros Hd Hl. unfold times, digit. cbn [den].
  exists (List.length w). split; [lia|]. split; [simpl; lia|].
  apply iter_cls_intro. exact Hd.
Qed.

Lemma den_page_token_intro (tok pre rest : str) (caps : list (nat * str)) :
  is_page_token tok ->
  den false Pat.page_token (MState pre (tok ++ rest) caps)
      (MState (rev tok ++ pre) rest caps).
Proof.
  intros (a & b & -> & Da & Db & La & Lb).
  unfold Pat.page_token, seq. cbn [den].
  exists (MState (rev a ++ pre) (s "/" ++ b ++ rest) caps). split.
  { rewrite <- !app_assoc. apply den_digits_intro; assumption. }
  exists (MState ("/"%char :: rev a ++ pre) (b ++ rest) caps). split.
  { exists "/"%char, (b ++ rest). auto. }
  replace (rev (a ++ s "/" ++ b) ++ pre)
    with (rev b ++ "/"%char :: rev a ++ pre).
  - apply den_digits_intro; assumption.
  - rewrite !rev_app_distr. simpl. rewrite <- !app_assoc. reflexivity.
Qed.

Lemma token_head_word (tok rest : str) :
  is_page_token tok -> word_at (tok ++ rest) = true.
Proof.
  intros (a & b & -> & Da & _ & La & _).
  destruct a as [|c a]; [simpl in La; lia|]. simpl.
  apply digit_is_word. inversion Da; assumption.
Qed.

Lemma token_last_word (tok rest : str) :
  is_page_token tok -> word_at (rev tok ++ rest) = true.
Proof.
  intros (a & b & -> & _ & Db & _ & Lb).
  destruct (exists_last (l := b)) as (b' & d & ->).
  { intros ->. simpl in Lb. lia. }
  rewrite !rev_app_distr. simpl.
  apply digit_is_word. unfold all_digits in Db. rewrite Forall_app in Db.
  destruct Db as [_ Db]. inversion Db; assumption.
Qed.

(** A page marker that ends the subject and starts at a word boundary is
    a match of the pattern of [clean_line_and_extract_page]. *)
Lemma trailing_page_found (before tok : str) :
  is_page_token tok -> word_at (rev before) = false ->
  search false Pat.trailing_page (before ++ tok) <> None.
Proof.
  intros T Hb.
  set (st0 := MState (rev before) tok []).
  set (st1 := set_cap 1 (consumed st0 st0) st0).
  set (st2 := MState (rev tok ++ rev before) [] (m_caps st1)).
  set (st3 := set_cap 2 (consumed st1 st2) st2).
  apply (search_complete false Pat.trailing_page before tok st3).
  unfold Pat.trailing_page, seq. cbn [den]. fold st0.
  exists st1. split.
  { exists st0. split; [|reflexivity]. exists 0%nat. simpl. auto. }
  exists st1. split.
  { split; [|reflexivity]. cbn [st1 st0 set_cap m_pre m_suf].
    rewrite Hb. rewrite <- (app_nil_r tok), (token_head_word _ _ T).
    reflexivity. }
  exists st3. split.
  { exists st2. split; [|reflexivity].
    pose proof (den_page_token_intro tok (rev before) [] (m_caps st1) T) as D.
    rewrite app_nil_r in D. exact D. }
  exists st3. split.
  { split; [|reflexivity]. cbn [st3 st2 set_cap m_pre m_suf].
    rewrite (token_last_word _ _ T). reflexivity. }
  exists st3. split.
  { exists 0%nat. simpl. auto. }
  split; [left; reflexivity | reflexivity].
Qed.

(** A match of the pattern: as [trailing_page_sound], with the word
    boundary before the marker. *)
Lemma trailing_page_boundary (x : str) (m : match_obj) :
  search false Pat.trailing_page x = Some m ->
  exists before tok sp,
    x = before ++ tok ++ sp /\ is_page_token tok /\ all_space sp
    /\ group 2 m = Some tok /\ word_at (rev before) = false.
Proof.
  intros H. apply search_sound in H.
  destruct H as (pre & suf & st' & Hx & D & G).
  unfold Pat.trailing_page, seq in D. cbn [den] in D.
  destruct D as (st1 & (mid1 & D1 & ->) & st2 & (Hw & ->) & st3
                 & (mid3 & D3 & ->) & st4 & (_ & ->) & st5 & D5 & De & ->).
  apply den_rep_cls in D1. destruct D1 as (g1 & M1 & _ & _ & _ & C1).
  apply PageFacts.den_page_token in D3. destruct D3 as (tok & M3 & T & C3).
  apply den_rep_cls in D5. destruct D5 as (sp & M5 & _ & _ & F5 & C5).
  pose proof (consumed_moved _ _ _ M3) as E3.
  destruct M1 as [P1 S1]. destruct M3 as [P3 S3]. destruct M5 as [P5 S5].
  simpl in *.
  exists (rev pre ++ g1), tok, (sp ++ m_suf st5).
  split; [|split; [|split; [|split]]].
  - rewrite <- Hx, S1, S3, S5, <- !app_assoc. reflexivity.
  - exact T.
  - unfold all_space. rewrite Forall_app. split; [exact F5|].
    destruct De as [-> | ->]; repeat constructor.
  - unfold group. rewrite G, C5. simpl. rewrite E3. reflexivity.
  - rewrite rev_app_distr, rev_involutive, <- P1.
    rewrite S3, (token_head_word _ _ T) in Hw.
    destruct (word_at (m_pre mid1)); [discriminate | reflexivity].
Qed.

Lemma clean_line_page_boundary (text : str) (title : option str) (p : str) :
  snd (clean_line_and_extract_page text title) = Some p ->
  is_page_token p
  /\ exists before, Py.strip text = before ++ p
                    /\ word_at (rev before) = false.
Proof.
  intros H. unfold clean_line_and_extract_page in H.
  destruct (Re.search false Pat.trailing_page (Py.strip text)) as [m|] eqn:E.
  - apply trailing_page_boundary in E.
    destruct E as (before & tok & sp & Hx & T & F & G2 & Hb).
    rewrite G2 in H. simpl in H. injection H as <-.
    rewrite (PageFacts.strip_page_token _ T). split; [exact T|].
    exists before. split; [|exact Hb]. rewrite Hx. f_equal.
    destruct sp as [|c0 sp0]; [rewrite app_nil_r; reflexivity|].
    exfalso.
    destruct (exists_last (l := c0 :: sp0)) as (y & c & Ey); [discriminate|].
    rewrite Ey in Hx, F. rewrite !app_assoc in Hx.
    apply PyFacts.strip_last in Hx.
    unfold all_space in F. rewrite Forall_app in F. destruct F as [_ F].
    inversion F; congruence.
  - discriminate H.
Qed.

Lemma split_at_slash (u u' v v' : str) :
  all_digits u -> all_digits u' ->
  u ++ "/"%char :: v = u' ++ "/"%char :: v' -> u = u' /\ v = v'.
Proof.
  revert u'. induction u as [|c u IH]; intros [|c' u'] Hu Hu' E; simpl in E.
  - injection E as <-. auto.
  - injection E as <- _. inversion Hu'; discriminate.
  - injection E as -> _. inversion Hu; discriminate.
  - injection E as <- E. inversion Hu; inversion Hu'; subst.
    destruct (IH u') as [-> ->]; auto.
Qed.

(** At most one page marker ends a text and starts at a word boundary. *)
Lemma token_suffix_unique (before p before' p' : str) :
  is_page_token p -> is_page_token p' ->
  before ++ p = before' ++ p' ->
  word_at (rev before) = false -> word_at (rev before') = false ->
  p = p'.
Proof.
  intros (a & b & -> & Da & Db & La & Lb) (a' & b' & -> & Da' & Db' & La' & Lb')
         E Hb Hb'.
  apply (f_equal (@rev ascii)) in E.
  rewrite !rev_app_distr in E. simpl in E. rewrite <- !app_assoc in E.
  simpl in E.
  apply split_at_slash in E; [|apply Forall_rev; assumption ..].
  destruct E as [Eb E].
  apply (f_equal (@rev ascii)) in Eb. rewrite !rev_involutive in Eb.
  subst b'. f_equal.
  destruct a as [|a1 [|a2 [|a3 a]]]; try (simpl in La; lia);
    destruct a' as [|a1' [|a2' [|a3' a']]]; try (simpl in La'; lia);
    simpl in E.
  - injection E as -> _. reflexivity.
  - injection E as _ E. rewrite E in Hb. simpl in Hb.
    inversion Da' as [|? ? H1 H2]. subst.
    rewrite (digit_is_word _ H1) in Hb. discriminate.
  - injection E as _ E. rewrite <- E in Hb'. simpl in Hb'.
    inversion Da as [|? ? H1 H2]. subst.
    rewrite (digit_is_word _ H1) in Hb'. discriminate.
  - injection E as -> -> _. reflexivity.
Qed.

End ReMore.

(** ** Speaker lines *)

Module SpeakerMore.

Import Re Sem ReFacts.

Lemma exec_cls (ic : bool) (p : ascii -> bool) (k : mstate -> option mstate)
  (st : mstate) :
  exec ic (Cls p) k st = one (cls_ok ic p) k st.
Proof. reflexivity. Qed.

(** A greedy repetition of a class takes all the characters of the class
    when the continuation accepts the position after them. *)
Lemma rounds_cls_greedy (ic : bool) (p : ascii -> bool) (lo : nat)
  (k : mstate -> option mstate) (rest : str) (caps : list (nat * str)) :
  match rest with c :: _ => cls_ok ic p c = false | [] => True end ->
  forall w fuel cnt pre,
    (List.length w <= fuel)%nat ->
    Forall (fun x => cls_ok ic p x = true) w ->
    (lo <= cnt + List.length w)%nat ->
    k (MState (rev w ++ pre) rest caps) <> None ->
    rounds (exec ic (Cls p)) true lo None k fuel cnt
           (MState pre (w ++ rest) caps)
    = k (MState (rev w ++ pre) rest caps).
Proof.
  intros Hr. induction w as [|x w IH]; intros fuel cnt pre Hf Hw Hlo Hk.
  - cbn [app rev List.length] in *. rewrite Nat.add_0_r in Hlo.
    apply Nat.leb_le in Hlo.
    destruct fuel as [|fuel]; [rewrite ReMore.rounds_O, Hlo; reflexivity|].
    rewrite ReMore.rounds_S. cbv zeta. rewrite Hlo.
    cbn [below]. rewrite exec_cls. unfold one. cbn [m_suf].
    destruct rest as [|c rest']; [reflexivity|]. rewrite Hr. reflexivity.
  - destruct fuel as [|fuel]; [simpl in Hf; lia|].
    inversion Hw as [|? ? Hx Hw']. subst.
    rewrite ReMore.rounds_S. cbv zeta. cbn [below]. rewrite exec_cls.
    unfold one. cbn [m_suf app]. rewrite Hx. unfold advance.
    cbn [m_pre m_caps].
    assert (Hp : Nat.ltb (pos (MState pre (x :: w ++ rest) caps))
                         (pos (MState (x :: pre) (w ++ rest) caps)) = true).
    { apply Nat.ltb_lt. unfold pos. simpl. lia. }
    rewrite Hp.
    assert (E : rev (x :: w) ++ pre = rev w ++ x :: pre).
    { cbn [rev]. rewrite <- app_assoc. reflexivity. }
    rewrite E in *.
    rewrite (IH fuel (S cnt) (x :: pre));
      [|simpl in Hf; lia | exact Hw' | simpl in Hlo; lia | exact Hk].
    unfold orelse. destruct (k _); [reflexivity | congruence].
Qed.

Lemma exec_cls_greedy (ic : bool) (p : ascii -> bool) (lo : nat)
  (k : mstate -> option mstate) (w rest pre : str) (caps : list (nat * str)) :
  match rest with c :: _ => cls_ok ic p c = false | [] => True end ->
  Forall (fun x => cls_ok ic p x = true) w ->
  (lo <= List.length w)%nat ->
  k (MState (rev w ++ pre) rest caps) <> None ->
  exec ic (Rep true lo None (Cls p)) k (MState pre (w ++ rest) caps)
  = k (MState (rev w ++ pre) rest caps).
Proof.
  intros Hr Hw Hlo Hk. cbn [exec m_suf].
  apply rounds_cls_greedy; auto. rewrite length_app. lia.
Qed.

Lemma lstrip_split (x : str) :
  exists sp, x = sp ++ Py.lstrip x /\ all_space sp
             /\ match Py.lstrip x with
                | c :: _ => Chr.is_space c = false
                | [] => True
                end.
Proof.
  induction x as [|c x IH]; [exists []; repeat split; constructor|].
  cbn [Py.lstrip]. destruct (Chr.is_space c) eqn:E.
  - destruct IH as (sp & Hx & Hs & Hh). exists (c :: sp).
    split; [simpl; congruence|]. split; [constructor; assumption | exact Hh].
  - exists []. split; [reflexivity|]. split; [constructor | exact E].
Qed.

Lemma first_line_split (x : str) :
  exists tail, x = first_line x ++ tail
               /\ Forall (fun c => negb (Chr.eqb c Chr.nl) = true)
                         (first_line x)
               /\ match tail with
                  | c :: _ => negb (Chr.eqb c Chr.nl) = false
                  | [] => True
                  end.
Proof.
  induction x as [|c x IH]; [exists []; repeat split; constructor|].
  cbn [first_line]. destruct (Chr.eqb c Chr.nl) eqn:E.
  - exists (c :: x). split; [reflexivity|]. split; [constructor|].
    rewrite E. reflexivity.
  - destruct IH as (tail & Hx & Hf & Ht). exists tail.
    split; [simpl; congruence|]. split; [|exact Ht].
    constructor; [rewrite E; reflexivity | exact Hf].
Qed.

Lemma cap_word_parts (name : str) :
  cap_word name = true ->
  exists c t, name = c :: t /\ Chr.is_upper_AZ c = true /\ t <> []
              /\ Forall (fun x => Chr.is_lower_az x = true) t.
Proof.
  destruct name as [|c t]; [discriminate|]. simpl. intros H.
  apply andb_prop in H. destruct H as [H H3].
  apply andb_prop in H. destruct H as [H1 H2].
  exists c, t. split; [reflexivity|]. split; [exact H1|]. split.
  - destruct t; [discriminate | discriminate].
  - apply Forall_forall. rewrite forallb_forall in H3. exact H3.
Qed.

Lemma exec_seq (ic : bool) (r1 r2 : regex) (k : mstate -> option mstate)
  (st : mstate) :
  exec ic (Seq r1 r2) k st = exec ic r1 (exec ic r2 k) st.
Proof. reflexivity. Qed.

Lemma exec_grp (ic : bool) (n : nat) (r : regex)
  (k : mstate -> option mstate) (st : mstate) :
  exec ic (Grp n r) k st
  = exec ic r (fun st' => k (set_cap n (consumed st st') st')) st.
Proof. reflexivity. Qed.

(** A greedy run of [space] before a continuation that accepts: the
    leading white space is skipped. *)
Lemma exec_leading_space (x : str) :
  exists sp,
    forall k pre caps,
      k (MState (rev sp ++ pre) (Py.lstrip x) caps) <> None ->
      exec false (star space) k (MState pre x caps)
      = k (MState (rev sp ++ pre) (Py.lstrip x) caps).
Proof.
  destruct (lstrip_split x) as (sp & Hx & Hsp & Hh). exists sp.
  intros k pre caps Hk.
  pose proof (exec_cls_greedy false Chr.is_space 0 k sp (Py.lstrip x) pre caps
                Hh Hsp (Nat.le_0_l _) Hk) as H.
  rewrite <- Hx in H. exact H.
Qed.

(** The second group, a greedy run of [dot], at the end of the pattern:
    the group is the text up to the first newline. *)
Lemma exec_rest_of_line (x : str) :
  exists tail,
    forall pre caps,
      exec false (Grp 2 (star dot)) (fun st => Some st) (MState pre x caps)
      = Some (set_cap 2 (first_line x)
                      (MState (rev (first_line x) ++ pre) tail caps)).
Proof.
  destruct (first_line_split x) as (tail & Hx & Hf & Ht). exists tail.
  intros pre caps. rewrite exec_grp.
  set (st := MState pre x caps).
  pose proof (exec_cls_greedy false (fun c => negb (Chr.eqb c Chr.nl)) 0
                (fun st' => Some (set_cap 2 (consumed st st') st'))
                (first_line x) tail pre caps Ht Hf (Nat.le_0_l _)) as H.
  rewrite <- Hx in H. fold st in H. unfold star, dot.
  rewrite H by discriminate. f_equal. f_equal.
  apply consumed_moved. split; [reflexivity | exact Hx].
Qed.

(** The speaker pattern on a capitalised word, a colon and a rest: the
    first group is the word, the second the first line of the rest without
    its leading white space. *)
Lemma speaker_match (name rest : str) :
  cap_word name = true ->
  exists m,
    rmatch false Pat.speaker (name ++ ":"%char :: rest) = Some m
    /\ group 1 m = Some name
    /\ group 2 m = Some (first_line (Py.lstrip rest)).
Proof.
  intros Hc. destruct (cap_word_parts _ Hc) as (c & t & -> & Hu & Ht & Hl).
  destruct (exec_leading_space rest) as (sp & Hsp).
  destruct (exec_rest_of_line (Py.lstrip rest)) as (tail & Hline).
  set (g2 := first_line (Py.lstrip rest)) in *.
  set (st0 := MState [] ((c :: t) ++ ":"%char :: rest) []).
  set (st1 := MState (rev t ++ [c]) (":"%char :: rest) []).
  set (caps1 := [(1%nat, c :: t)]).
  set (fin := set_cap 2 g2
                (MState (rev g2 ++ rev sp ++ ":"%char :: rev t ++ [c])
                        tail caps1)).
  set (tl := Seq (Lit ":") (Seq (star space) (Grp 2 (star dot)))).
  assert (M1 : moved (c :: t) st0 st1).
  { split; simpl; [|reflexivity]. rewrite <- app_assoc. reflexivity. }
  assert (E2 : exec false tl (fun st => Some st)
                 (set_cap 1 (consumed st0 st1) st1) = Some fin).
  { rewrite (consumed_moved _ _ _ M1). unfold tl.
    rewrite exec_seq. cbn [exec]. unfold one at 1.
    cbn [set_cap st1 m_suf m_pre m_caps lit_ok].
    unfold Chr.eqb at 1. rewrite Ascii.eqb_refl. unfold advance.
    cbn [m_pre m_caps]. fold caps1.
    change (exec false (star space)
              (exec false (Grp 2 (star dot)) (fun st => Some st))
              (MState (":"%char :: rev t ++ [c]) rest caps1) = Some fin).
    rewrite Hsp; rewrite Hline; [reflexivity | discriminate]. }
  assert (E1 : exec false (Seq Pat.upper_AZ (plus Pat.lower_az))
                 (fun st' => exec false tl (fun st => Some st)
                                  (set_cap 1 (consumed st0 st') st')) st0
               = Some fin).
  { rewrite exec_seq. unfold Pat.upper_AZ at 1. rewrite exec_cls.
    unfold one. cbn [st0 m_suf app cls_ok]. rewrite Hu. unfold advance.
    cbn [m_pre m_caps]. fold st0. unfold plus, Pat.lower_az.
    rewrite exec_cls_greedy; cbv beta; fold st1.
    - exact E2.
    - reflexivity.
    - exact Hl.
    - destruct t; [congruence | simpl; lia].
    - change (exec false tl (fun st => Some st)
                   (set_cap 1 (consumed st0 st1) st1) <> None).
      rewrite E2. discriminate. }
  assert (E0 : exec false Pat.speaker (fun st => Some st) st0 = Some fin).
  { exact E1. }
  unfold rmatch, match_at. fold st0. rewrite E0.
  eexists. split; [reflexivity|]. unfold group. split; reflexivity.
Qed.

Lemma upper_not_digit (c : ascii) :
  Chr.is_upper_AZ c = true -> Chr.is_digit c = false.
Proof.
  unfold Chr.is_digit, Chr.is_upper_AZ, Chr.between.
  destruct (Chr.code c) as [|q]; intros H;
    repeat (rewrite ?andb_true_iff, ?orb_false_iff, ?andb_false_iff,
              ?N.leb_le, ?N.leb_gt, ?N.eqb_neq in *); lia.
Qed.

(** A date line starts with a digit. *)
Lemma date_starts_with_digit (l : str) :
  is_date l = true -> exists c t, l = c :: t /\ Chr.is_digit c = true.
Proof.
  unfold is_date. destruct (rmatch false Pat.date l) as [m|] eqn:E;
    [|discriminate]. intros _.
  apply match_at_sound in E. destruct E as (st' & D & _).
  unfold Pat.date, seq in D. cbn [den] in D.
  destruct D as (st1 & (_ & ->) & st2 & D2 & _).
  apply PageFacts.den_digits in D2.
  destruct D2 as (w & [_ Hs] & Hd & Hl & _). simpl in Hs.
  destruct w as [|c w]; [simpl in Hl; lia|].
  exists c, (w ++ m_suf st2). split; [exact Hs|]. inversion Hd; assumption.
Qed.

Lemma upper_not_bracket (c : ascii) :
  Chr.is_upper_AZ c = true ->
  Chr.eqb "[" c = false /\ Chr.eqb "(" c = false.
Proof.
  intros H. unfold Chr.eqb. split.
  - destruct (Ascii.eqb "[" c) eqn:E; [|reflexivity].
    apply Ascii.eqb_eq in E. subst c. discriminate H.
  - destruct (Ascii.eqb "(" c) eqn:E; [|reflexivity].
    apply Ascii.eqb_eq in E. subst c. discriminate H.
Qed.

(** A capitalised word, a colon and a rest is a speaker line unless it is
    noise. *)
Lemma classify_name_colon (name rest : str) :
  cap_word name = true ->
  is_noise (name ++ ":"%char :: rest) = false ->
  classify (name ++ ":"%char :: rest)
  = KSpeaker name (first_line (Py.lstrip rest)).
Proof.
  intros Hc Hn. destruct (speaker_match name rest Hc) as (m & Em & G1 & G2).
  destruct (cap_word_parts _ Hc) as (c & t & E & Hu & _ & _).
  unfold classify. rewrite Hn, Em, G1, G2.
  destruct (upper_not_bracket _ Hu) as [B1 B2].
  assert (Hd : is_date (name ++ ":"%char :: rest) = false).
  { destruct (is_date _) eqn:Ed; [|reflexivity].
    apply date_starts_with_digit in Ed. destruct Ed as (d & u & El & Hdig).
    rewrite E in El. injection El as <- _.
    rewrite (upper_not_digit _ Hu) in Hdig. discriminate. }
  rewrite Hd. subst name. cbn [app Py.truthy negb Py.startswith s
                               list_ascii_of_string].
  rewrite B1, B2. reflexivity.
Qed.

Lemma classify_speaker_not_noise (l name text : str) :
  classify l = KSpeaker name text -> is_noise l = false.
Proof.
  unfold classify.
  destruct (negb (Py.truthy l)); [discriminate|].
  destruct (is_noise l); [discriminate | reflexivity].
Qed.

End SpeakerMore.

(** ** Scene headings *)

Module HeadingMore.

Import Re Sem ReFacts.

(** A lazy repetition of a class stops at the first position that the
    continuation accepts. *)
Lemma rounds_cls_lazy (ic : bool) (p : ascii -> bool)
  (k : mstate -> option mstate) (rest : str) (caps : list (nat * str)) :
  forall w fuel cnt pre,
    (List.length w <= fuel)%nat ->
    Forall (fun x => cls_ok ic p x = true) w ->
    (forall w1 x w2, w = w1 ++ x :: w2 ->
                     k (MState (rev w1 ++ pre) (x :: w2 ++ rest) caps) = None) ->
    k (MState (rev w ++ pre) rest caps) <> None ->
    rounds (exec ic (Cls p)) false 0 None k fuel cnt
           (MState pre (w ++ rest) caps)
    = k (MState (rev w ++ pre) rest caps).
Proof.
  induction w as [|x w IH]; intros fuel cnt pre Hf Hw Hn Hk.
  - cbn [app rev] in *.
    destruct fuel as [|fuel]; [rewrite ReMore.rounds_O; reflexivity|].
    rewrite ReMore.rounds_S. cbv zeta. cbn [Nat.leb]. unfold orelse.
    destruct (k _); [reflexivity | congruence].
  - destruct fuel as [|fuel]; [simpl in Hf; lia|].
    inversion Hw as [|? ? Hx Hw']. subst.
    rewrite ReMore.rounds_S. cbv zeta. cbn [Nat.leb below].
    pose proof (Hn [] x w eq_refl) as H0. cbn [rev app] in H0.
    cbn [app]. rewrite H0. cbn [orelse].
    rewrite SpeakerMore.exec_cls. unfold one. cbn [m_suf]. rewrite Hx.
    unfold advance. cbn [m_pre m_caps].
    assert (Hp : Nat.ltb (pos (MState pre (x :: w ++ rest) caps))
                         (pos (MState (x :: pre) (w ++ rest) caps)) = true).
    { apply Nat.ltb_lt. unfold pos. simpl. lia. }
    rewrite Hp.
    assert (E : rev (x :: w) ++ pre = rev w ++ x :: pre).
    { cbn [rev]. rewrite <- app_assoc. reflexivity. }
    rewrite E in *.
    apply (IH fuel (S cnt) (x :: pre)); [simpl in Hf; lia | exact Hw' | | exact Hk].
    intros w1 y w2 Ew. specialize (Hn (x :: w1) y w2).
    cbn [rev app] in Hn. rewrite <- app_assoc in Hn. apply Hn.
    rewrite Ew. reflexivity.
Qed.

Lemma exec_cls_lazy (ic : bool) (p : ascii -> bool)
  (k : mstate -> option mstate) (w rest pre : str) (caps : list (nat * str)) :
  Forall (fun x => cls_ok ic p x = true) w ->
  (forall w1 x w2, w = w1 ++ x :: w2 ->
                   k (MState (rev w1 ++ pre) (x :: w2 ++ rest) caps) = None) ->
  k (MState (rev w ++ pre) rest caps) <> None ->
  exec ic (Rep false 0 None (Cls p)) k (MState pre (w ++ rest) caps)
  = k (MState (rev w ++ pre) rest caps).
Proof.
  intros Hw Hn Hk. cbn [exec m_suf].
  apply rounds_cls_lazy; auto. rewrite length_app. lia.
Qed.

Lemma plain_name_spec (name : str) :
  plain_name name = true ->
  Forall (fun c => negb (Chr.eqb c Chr.nl) = true) name
  /\ Forall (fun c => Chr.eqb "]" c = false) name.
Proof.
  unfold plain_name. rewrite forallb_forall. intros H.
  split; apply Forall_forall; intros c Hc; specialize (H c Hc);
    apply andb_prop in H; destruct H as [H1 H2]; [exact H1|].
  destruct (Chr.eqb "]" c); [discriminate | reflexivity].
Qed.

(** The name of a scene: what stands between the white space after
    "[Scene:" and the first closing bracket. *)
Lemma heading_match (x name rest : str) :
  Py.lstrip x = name ++ "]"%char :: rest -> plain_name name = true ->
  exists m,
    search false Pat.scene_heading (s "[Scene:" ++ x) = Some m
    /\ group 1 m = Some name.
Proof.
  intros Hx Hp. destruct (plain_name_spec _ Hp) as [Hnl Hbr].
  destruct (SpeakerMore.exec_leading_space x) as (sp & Hsp).
  set (pre0 := rev (s "[Scene:")).
  set (st2 := MState (rev sp ++ pre0) (name ++ "]"%char :: rest) []).
  set (st3 := MState (rev name ++ rev sp ++ pre0) ("]"%char :: rest) []).
  set (fin := MState ("]"%char :: rev name ++ rev sp ++ pre0) rest
                     [(1%nat, name)]).
  assert (M : moved name st2 st3).
  { split; reflexivity. }
  assert (E3 : exec false (Seq (Grp 1 (lazy_star dot)) (Lit "]"))
                 (fun st => Some st) st2 = Some fin).
  { rewrite SpeakerMore.exec_seq, SpeakerMore.exec_grp.
    unfold lazy_star, dot.
    assert (Hk : exec false (Lit "]") (fun st => Some st)
                   (set_cap 1 (consumed st2 st3) st3) = Some fin).
    { rewrite (consumed_moved _ _ _ M). cbn [exec]. unfold one.
      cbn [set_cap st3 m_suf m_pre m_caps lit_ok]. unfold Chr.eqb.
      rewrite Ascii.eqb_refl. reflexivity. }
    unfold st2 at 2.
    rewrite exec_cls_lazy; cbv beta; fold st3.
    - exact Hk.
    - exact Hnl.
    - intros w1 c w2 Ew. cbn [exec]. unfold one. cbn [set_cap m_suf lit_ok].
      rewrite Ew, Forall_app in Hbr. destruct Hbr as [_ Hbr].
      inversion Hbr as [|? ? Hc _]. subst. rewrite Hc. reflexivity.
    - change (exec false (Lit "]") (fun st => Some st)
                   (set_cap 1 (consumed st2 st3) st3) <> None).
      rewrite Hk. discriminate. }
  assert (E1 : exec false Pat.scene_heading (fun st => Some st)
                 (MState [] (s "[Scene:" ++ x) []) = Some fin).
  { unfold Pat.scene_heading.
    change (exec false (star space)
              (exec false (Seq (Grp 1 (lazy_star dot)) (Lit "]"))
                    (fun st => Some st))
              (MState pre0 x []) = Some fin).
    rewrite Hsp; rewrite Hx; fold st2; rewrite E3;
      [reflexivity | discriminate]. }
  assert (E0 : search false Pat.scene_heading (s "[Scene:" ++ x)
               = Some (Match 0 (pos fin) (m_caps fin))).
  { unfold search.
    change (s "[Scene:" ++ x) with ("["%char :: s "Scene:" ++ x).
    cbn [search_from]. unfold match_at.
    change ("["%char :: s "Scene:" ++ x) with (s "[Scene:" ++ x).
    rewrite E1. reflexivity. }
  rewrite E0. eexists. split; [reflexivity|]. reflexivity.
Qed.

(** A heading without a closing bracket has no name. *)
Lemma heading_without_bracket (l : str) :
  ~ In "]"%char l -> search false Pat.scene_heading l = None.
Proof.
  intros Hn. apply (MoreFacts.search_none_or _ _ _ (In "]"%char l)); [|exact Hn].
  intros m H. apply search_sound in H.
  destruct H as (pre & suf & st' & Hl & D & _).
  rewrite <- Hl. apply in_or_app. right.
  unfold Pat.scene_heading in D.
  change (exists st1, den false (lits (s "[Scene:")) (MState pre suf []) st1
          /\ exists st2, den false (star space) st1 st2
          /\ exists st3, den false (Grp 1 (lazy_star dot)) st2 st3
          /\ den false (Lit "]") st3 st') in D.
  destruct D as (st1 & D1 & st2 & D2 & st3 & D3 & D4).
  change suf with (m_suf (MState pre suf [])).
  apply (MoreFacts.den_in _ _ _ _ _ D1). apply (MoreFacts.den_in _ _ _ _ _ D2).
  apply (MoreFacts.den_in _ _ _ _ _ D3).
  cbn [den] in D4. destruct D4 as (c & u & Hs & Hok & _).
  apply PageFacts.lit_exact in Hok. subst c. rewrite Hs. left. reflexivity.
Qed.

Lemma startswith_prefix (p x : str) : Py.startswith (p ++ x) p = true.
Proof.
  induction p as [|c p IH]; [destruct x; reflexivity|].
  cbn [app Py.startswith]. unfold Chr.eqb. rewrite Ascii.eqb_refl. exact IH.
Qed.

Lemma classify_scene_heading (x : str) :
  is_noise (s "[Scene:" ++ x) = false ->
  classify (s "[Scene:" ++ x)
  = KHeading match search false Pat.scene_heading (s "[Scene:" ++ x) with
             | Some m => group 1 m
             | None => None
             end.
Proof.
  intros Hn. unfold classify. rewrite Hn.
  pose proof (startswith_prefix (s "[Scene:") x) as Hs.
  rewrite (ParseFacts.heading_not_date _ Hs), Hs. reflexivity.
Qed.

End HeadingMore.

(** ** The title in a dialogue line *)

Module TitleFacts.

Import Re Sem ReFacts.









(** *** The title pattern and [occurs] *)





(** *** Normalising the white space creates no occurrence *)








(** *** A substitution whose first match runs to the end *)









(** *** The scrubber on a line whose title trails *)






End TitleFacts.

(** ** Claims *)

(** C1 (as the code has it).  On the six-line scenario, whatever the path,
    the pipeline raises no error and yields the writers Marta Kauffman and
    David Crane, 2 pages in total and 2 scenes, numbered 1 and 2.  Scene 1
    has one dialogue entry, of Ross, the characters Ross and Chandler and
    the page numbers ["1/22"]: the line of Chandler is still in the buffer
    when the second heading arrives and is dropped there.  Scene 2 has one
    entry, of Joey, and the page numbers ["2/22"].  The statistics count 2
    dialogue lines and 2 scenes. *)
Theorem scenario_result (pdf_path : str) :
  exists r,
    run_pipeline scenario pdf_path = Some r
    /\ writers (fd_metadata r) = [s "Marta Kauffman"; s "David Crane"]
    /\ total_pages (fd_metadata r) = Some 2
    /\ map scene_number (fd_script r) = [1; 2]
    /\ map (fun sc => map speaker (dialogue sc)) (fd_script r)
       = [[s "Ross"]; [s "Joey"]]
    /\ map (fun sc => map line (dialogue sc)) (fd_script r)
       = [[s "Hi guys!"]; [s "How you doin'?"]]
    /\ map characters (fd_script r) = [[s "Ross"; s "Chandler"]; [s "Joey"]]
    /\ map page_numbers (fd_script r) = [[s "1/22"]; [s "2/22"]]
    /\ total_dialogue_lines (fd_statistics r) = 2
    /\ total_scenes (fd_statistics r) = 2.
Proof.
  unfold run_pipeline, extract_episode_metadata.
  destruct (IntFacts.season_int_total (Py.basename pdf_path)) as [se ->].
  destruct (IntFacts.episode_int_total (Py.basename pdf_path)) as [ep ->].
  cbn [opt_bind].
  eexists. split; [vm_compute; reflexivity|].
  repeat split; reflexivity.
Qed.

(** C1, counterexample: on the scenario the first scene has a single
    dialogue entry and the statistics count 2 dialogue lines, not 2 entries
    and 3 lines. *)
Lemma scenario_counterexample :
  option_map (fun r => (map (fun sc => map speaker (dialogue sc))
                            (fd_script r),
                        total_dialogue_lines (fd_statistics r)))
             (run_pipeline scenario (s "script.pdf"))
  = Some ([[s "Ross"]; [s "Joey"]], 2).
Proof. vm_compute. reflexivity. Qed.

(** C2 (as the code has it).  For every input the scene numbers of the
    emitted scenes increase strictly in the order of emission, and the
    number of an emitted scene is the number of "[Scene:" headings consumed
    up to and including its own, 0 for the scene that is open before the
    first heading: a heading whose scene is discarded still takes a
    number. *)
Theorem scene_numbers_increase (text : str) (md : metadata) :
  let scenes := parse_friends_script text md in
  StronglySorted Z.lt (map scene_number scenes)
  /\ Forall (numbered (Py.splitlines text)) scenes.
Proof.
  cbv zeta. unfold parse_friends_script.
  destruct (ParseFacts.numbers_inv_loop md (Py.splitlines text))
    as (Hc & _ & Hs & Hlt & Hnum).
  unfold scenes_of in Hnum. rewrite Forall_app in Hnum.
  destruct Hnum as [Hnd Hnc]. inversion Hnc as [|? ? Hnc' _]; subst.
  destruct (ParseFacts.finish_cases md (List.length (Py.splitlines text))
              (parse_loop md (Py.splitlines text))) as [-> | ->].
  - auto.
  - split.
    + rewrite map_app. simpl. apply ParseFacts.sorted_snoc; [exact Hs|].
      rewrite ParseFacts.flush_scene_number, Hc, Forall_map. exact Hlt.
    + rewrite Forall_app. split; [exact Hnd|]. repeat constructor.
      unfold numbered in *.
      rewrite ParseFacts.flush_scene_number, ParseFacts.flush_start.
      exact Hnc'.
Qed.

(** C2, counterexample: after a heading whose scene is discarded the first
    emitted scene has the number 2, and a scene emitted for what precedes
    the first heading has the number 0. *)
Lemma scene_numbers_counterexample :
  map scene_number
    (parse_friends_script
       (s ("[Scene: Central Perk]" ++ LF ++ "[Scene: Monica's apartment]"
           ++ LF ++ "Ross: Hi")%string) no_metadata) = [2]
  /\ map scene_number
       (parse_friends_script
          (s ("(Opening credits)" ++ LF ++ "[Scene: Central Perk]"
              ++ LF ++ "Ross: Hi")%string) no_metadata) = [0; 1].
Proof. split; vm_compute; reflexivity. Qed.

(** C3 (as the code has it).  For every input the pipeline raises no error
    and every speaking character of the statistics is one of their unique
    characters.  The converse fails: a character whose only line is dropped
    at a scene heading is in [unique_characters] alone. *)
Theorem speaking_characters_included (text pdf_path : str) :
  exists r,
    run_pipeline text pdf_path = Some r
    /\ incl (speaking_characters (fd_statistics r))
            (unique_characters (fd_statistics r)).
Proof.
  destruct (StatFacts.run_pipeline_total text pdf_path)
    as (md & st & _ & Est & Hs & info & ->).
  eexists. split; [reflexivity|]. simpl.
  assert (Hp : Forall pages_ok
                 (fst (clean_episode_title_from_dialogue
                         (parse_friends_script text md) (episode_title md)))).
  { apply (StatFacts.scrub_keeps _ StatFacts.scrub_scene_pages).
    apply ParseFacts.parse_scenes_ok. }
  destruct (StatFacts.statistics_total _ Hp) as (st' & Est' & Hu & Hk).
  rewrite Est in Est'. injection Est' as <-. rewrite Hu, Hk.
  intros c. apply StatFacts.speaking_in_unique, Hs.
Qed.

(** C3, counterexample: Joey speaks last in the first scene, the heading
    of the second scene drops the line, and Joey is a unique character but
    no speaking character. *)
Lemma speaking_characters_counterexample :
  option_map
    (fun r => (unique_characters (fd_statistics r),
               speaking_characters (fd_statistics r)))
    (run_pipeline
       (s ("[Scene: Central Perk]" ++ LF ++ "Ross: Hi" ++ LF ++ "Joey: Yo"
           ++ LF ++ "[Scene: Monica's apartment]" ++ LF ++ "Ross: Bye")%string)
       (s "script.pdf"))
  = Some ([s "Ross"; s "Joey"], [s "Ross"]).
Proof. vm_compute. reflexivity. Qed.

(** C4, the code at the failing inputs: a last scene that holds a dialogue
    entry, or a stage direction, is not emitted when the input ends with
    no pending buffer. *)
Lemma final_scene_not_emitted :
  parse_friends_script
    (s ("[Scene: Central Perk]" ++ LF ++ "Ross: Hi" ++ LF ++ "Joey:")%string)
    no_metadata = []
  /\ dialogue (current_scene
       (parse_loop no_metadata
          [s "[Scene: Central Perk]"; s "Ross: Hi"; s "Joey:"]))
     = [Entry (s "Ross") (s "Hi") 3 None false]
  /\ parse_friends_script
       (s ("[Scene: Central Perk]" ++ LF ++ "(They leave.)")%string)
       no_metadata = [].
Proof. repeat split; vm_compute; reflexivity. Qed.

(** C5 (as the code has it).  Every dialogue entry that the parser emits
    was started by a speaker line of its speaker and records the number of
    the line that flushed it: the next speaker line, when no scene heading
    comes first, or the number of lines of the input for the entry flushed
    at the end.  The lines in between, the continuation lines among them,
    are neither recorded nor the start of an entry. *)
Theorem entry_records_flushing_line (text : str) (md : metadata) :
  Forall (fun sc =>
            Forall (fun e => mid_flushed (Py.splitlines text) e
                             \/ end_flushed (Py.splitlines text) e)
                   (dialogue sc))
         (parse_friends_script text md).
Proof.
  unfold parse_friends_script.
  destruct (ParseFacts.entries_inv_loop md (Py.splitlines text)) as (Hs & Hsp).
  rewrite ParseFacts.Forall_scenes_of in Hs. destruct Hs as [Hd Hc].
  assert (Hd' : Forall (fun sc =>
              Forall (fun e => mid_flushed (Py.splitlines text) e
                               \/ end_flushed (Py.splitlines text) e)
                     (dialogue sc))
            (script_data (parse_loop md (Py.splitlines text)))).
  { eapply Forall_impl; [|exact Hd]. intros sc H.
    eapply Forall_impl; [|exact H]. auto. }
  destruct (ParseFacts.finish_cases md (List.length (Py.splitlines text))
              (parse_loop md (Py.splitlines text))) as [-> | ->];
    [exact Hd'|].
  rewrite Forall_app. split; [exact Hd'|]. repeat constructor.
  apply ParseFacts.flush_entries.
  - eapply Forall_impl; [|exact Hc]. auto.
  - intros sp e E Hes Hel. right. destruct (Hsp sp E) as [start Hst].
    exists start. rewrite Hes. auto.
Qed.

(** C5, counterexample: of three lines, the first a speaker line of Ross,
    the second one of Joey and the third a continuation, the entry of Ross
    records line 2 and the entry of Joey line 3. *)
Lemma entry_line_counterexample :
  map (fun sc => map (fun e => (speaker e, line_number e)) (dialogue sc))
      (parse_friends_script
         (s ("Ross: Hi" ++ LF ++ "Joey: Yo" ++ LF ++ "and more")%string)
         no_metadata)
  = [[(s "Ross", 2); (s "Joey", 3)]]
  /\ map speaker_line [s "Ross: Hi"; s "Joey: Yo"; s "and more"]
     = [Some (s "Ross"); Some (s "Joey"); None].
Proof. split; vm_compute; reflexivity. Qed.

(** C6.  When a line that starts with "[Scene:" is consumed (it is not
    skipped as a noise line), the state after it has no speaker, an empty
    buffer and a new scene without dialogue, and the result holds the
    scenes already emitted plus, if it had dialogue or stage directions,
    the scene that was open, exactly as it was: nothing is flushed from
    the pending buffer. *)
Theorem heading_drops_buffer (md : metadata) (st : pstate) (i : nat)
  (raw : str) :
  Py.startswith (Py.strip raw) (s "[Scene:") = true ->
  is_noise (Py.strip raw) = false ->
  let st' := parse_line md st (i, raw) in
  current_speaker st' = None /\ buffer st' = []
  /\ dialogue (current_scene st') = []
  /\ script_data st' = after_heading st.
Proof.
  intros H N st'. subst st'. rewrite ParseFacts.parse_line_cases.
  destruct (ParseFacts.classify_heading _ H N) as [name ->].
  simpl. auto.
Qed.

Lemma heading_drops_buffer_witness :
  let ross := Entry (s "Ross") (s "Hi guys!") 4 (Some (s "1/22")) false in
  let open := Scene (Some (s "Central Perk")) 1 [s "Ross"; s "Chandler"]
                    [ross] [s "1/22"] None [] (Some 2) in
  let st := PState [] open (Some (s "Chandler"))
                   (s "Could this BE any cooler?") 1 in
  let st' := parse_line no_metadata st
                        (4%nat, s "[Scene: Monica's apartment]") in
  current_speaker st' = None /\ buffer st' = []
  /\ dialogue (current_scene st') = []
  /\ script_data st' = [open].
Proof.
  apply (heading_drops_buffer no_metadata
           (PState []
              (Scene (Some (s "Central Perk")) 1 [s "Ross"; s "Chandler"]
                 [Entry (s "Ross") (s "Hi guys!") 4 (Some (s "1/22")) false]
                 [s "1/22"] None [] (Some 2))
              (Some (s "Chandler")) (s "Could this BE any cooler?") 1)
           4%nat (s "[Scene: Monica's apartment]"));
    vm_compute; reflexivity.
Defined.




(** C8.  Cleaning "Hello there 12/22" gives the text "Hello there" and the
    page "12/22"; cleaning "No page here" gives the text unchanged and no
    page.  In general, whenever a page is returned it is a marker of one or
    two digits, a slash and one or two digits that ends the trimmed text. *)
Theorem clean_line_page_at_end :
  clean_line_and_extract_page (s "Hello there 12/22") None
  = (s "Hello there", Some (s "12/22"))
  /\ clean_line_and_extract_page (s "No page here") None
     = (s "No page here", None)
  /\ forall text title cleaned p,
       clean_line_and_extract_page text title = (cleaned, Some p) ->
       is_page_token p /\ exists before, Py.strip text = before ++ p.
Proof.
  split; [vm_compute; reflexivity|]. split; [vm_compute; reflexivity|].
  exact PageFacts.clean_line_page.
Qed.

Lemma clean_line_page_at_end_witness :
  is_page_token (s "12/22")
  /\ exists before, Py.strip (s "Hello there 12/22") = before ++ s "12/22".
Proof.
  apply (proj2 (proj2 clean_line_page_at_end)
           (s "Hello there 12/22") None (s "Hello there") (s "12/22")).
  vm_compute. reflexivity.
Defined.

(** C9 (as the code has it).  Whatever the text and the path, the metadata
    are extracted without error, and the series episode number is present
    exactly when a season and an episode number were found in the file
    name, neither is zero, and the season is at most 10, the last index of
    the table; its value is then the sum of the table entries before the
    season plus the episode number.  Season 1 episode 5 gives 5, season 3
    episode 1 gives 49, and season 11 leaves the field absent. *)
Theorem series_episode_number_spec :
  (forall text pdf_path,
     exists md,
       extract_episode_metadata text pdf_path = Some md
       /\ series_episode_number md
          = match season md, episode_number md with
            | Some se, Some ep =>
                if negb (se =? 0) && negb (ep =? 0) && (se <=? 10)
                then Some (sumZ (firstn (Z.to_nat se) season_episodes) + ep)
                else None
            | _, _ => None
            end)
  /\ option_map series_episode_number
       (extract_episode_metadata [] (s "Raw_Data/S1_Scripts/S1_Ep5.pdf"))
     = Some (Some 5)
  /\ option_map series_episode_number
       (extract_episode_metadata [] (s "Raw_Data/S3_Scripts/S3_Ep1.pdf"))
     = Some (Some 49)
  /\ option_map (fun md => (season md, series_episode_number md))
       (extract_episode_metadata [] (s "Raw_Data/S11_Scripts/S11_Ep1.pdf"))
     = Some (Some 11, None).
Proof.
  split; [|repeat split; vm_compute; reflexivity].
  intros text pdf_path. unfold extract_episode_metadata.
  destruct (IntFacts.season_int_total (Py.basename pdf_path)) as [se ->].
  destruct (IntFacts.episode_int_total (Py.basename pdf_path)) as [ep ->].
  destruct (IntFacts.max_page_total _
              (IntFacts.page_tokens_ok (Py.splitlines text))) as [v ->].
  cbn [opt_bind]. eexists. split; [reflexivity|].
  cbn [series_episode_number season episode_number].
  unfold series_number, truthy_int.
  destruct se as [se|]; [|reflexivity].
  destruct ep as [ep|]; [|rewrite andb_false_r; reflexivity].
  change (Z.of_nat (List.length season_episodes) - 1) with 10.
  destruct (negb (se =? 0) && negb (ep =? 0)); [|reflexivity]. simpl andb.
  destruct (se <=? 10) eqn:E; [|reflexivity].
  apply Z.leb_le in E. do 2 f_equal.
  assert (Hn : (Z.to_nat se <= 10)%nat) by lia.
  destruct (Z.to_nat se) as [|[|[|[|[|[|[|[|[|[|[|k]]]]]]]]]]];
    try reflexivity; lia.
Qed.

(** C9, counterexample: the file name S1_Ep0.pdf gives season 1, which is
    within the table, and episode number 0, and yet no series episode
    number. *)
Lemma series_episode_number_counterexample :
  option_map (fun md => (season md, episode_number md,
                         series_episode_number md))
    (extract_episode_metadata [] (s "Raw_Data/S1_Scripts/S1_Ep0.pdf"))
  = Some (Some 1, Some 0, None).
Proof. vm_compute. reflexivity. Qed.

(** C10.  On the empty text the pipeline raises no error, whatever the
    path: the parser returns no scene, the statistics are [total_scenes =
    0], [average_scene_length = 0] and every other field zero, empty or
    absent, no line was processed or cleaned, and the fields of the
    metadata that are read from the text are empty or absent. *)
Theorem empty_input_defaults (pdf_path : str) (md0 : metadata) :
  parse_friends_script [] md0 = []
  /\ calculate_script_statistics []
     = Some (Statistics 0 0 [] [] 0 None None None [] [])
  /\ exists md,
       run_pipeline [] pdf_path
       = Some (FullData md (Statistics 0 0 [] [] 0 None None None [] []) []
                        (ParsingInfo 0 0))
       /\ episode_title md = None /\ writers md = [] /\ directors md = []
       /\ story_by md = [] /\ teleplay_by md = []
       /\ production_code md = None /\ total_pages md = None.
Proof.
  split; [reflexivity|]. split; [reflexivity|].
  unfold run_pipeline, extract_episode_metadata.
  destruct (IntFacts.season_int_total (Py.basename pdf_path)) as [se ->].
  destruct (IntFacts.episode_int_total (Py.basename pdf_path)) as [ep ->].
  change (Py.splitlines []) with (@nil str).
  cbn [opt_bind firstn page_tokens fold_left max_page find_title].
  rewrite !IntFacts.routed_nil.
  cbn [transcribed_writers first_production_code].
  eexists. split; [reflexivity|]. repeat split; reflexivity.
Qed.

(** ** Further properties of the code *)

(** X1.  No scene that the parser returns is empty: each holds a dialogue
    entry or a stage direction. *)
Theorem emitted_scenes_have_content (text : str) (md : metadata) :
  Forall (fun sc => dialogue sc <> [] \/ stage_directions sc <> [])
         (parse_friends_script text md).
Proof.
  eapply Forall_impl; [|apply (MoreFacts.parse_structure text md)].
  intros sc [_ H]. unfold has_content in H.
  destruct (dialogue sc); [|left; discriminate].
  destruct (stage_directions sc); [discriminate | right; discriminate].
Qed.

(** X2.  In every scene that the parser returns, each character and the
    speaker of each dialogue entry is a capitalised word (a letter of A-Z
    followed by one or more letters of a-z), and the speaker of each entry
    is one of the characters of its scene. *)
Theorem speakers_are_capitalised_words (text : str) (md : metadata) :
  Forall (fun sc =>
            Forall (fun c => cap_word c = true) (characters sc)
            /\ Forall (fun e => cap_word (speaker e) = true
                                /\ In (speaker e) (characters sc))
                      (dialogue sc))
         (parse_friends_script text md).
Proof.
  pose proof (MoreFacts.parse_structure text md) as H1.
  destruct (ParseFacts.parse_scenes_ok text md) as [H2 _].
  rewrite Forall_forall in *. intros sc Hsc.
  destruct (H1 sc Hsc) as [(Hc & He & _) _]. split; [exact Hc|].
  rewrite Forall_forall in *. intros e Hin. split.
  - apply (He e Hin).
  - apply (H2 sc Hsc e Hin).
Qed.

(** X3.  In every scene that the parser returns, the page numbers are
    exactly the page numbers of the dialogue entries of the scene, and each
    is a marker of one or two digits, a slash and one or two digits. *)
Theorem page_numbers_are_those_of_entries (text : str) (md : metadata) :
  Forall (fun sc =>
            (forall p, In p (page_numbers sc)
                       <-> exists e, In e (dialogue sc)
                                     /\ page_number e = Some p)
            /\ Forall is_page_token (page_numbers sc))
         (parse_friends_script text md).
Proof.
  pose proof (MoreFacts.parse_structure text md) as H1.
  destruct (ParseFacts.parse_scenes_ok text md) as [_ H2].
  rewrite Forall_forall in *. intros sc Hsc.
  destruct (H1 sc Hsc) as [(_ & _ & Hp & _) _]. split; [exact Hp|].
  apply (H2 sc Hsc).
Qed.

(** X4.  Every stage direction of a scene that the parser returns is the
    trimmed text of the line whose 1-based number it records; this text
    starts with "[" or "(" and not with "[Scene:". *)
Theorem stage_directions_record_their_line (text : str) (md : metadata) :
  Forall (fun sc => Forall (direction_ok (Py.splitlines text))
                           (stage_directions sc))
         (parse_friends_script text md).
Proof.
  eapply Forall_impl; [|apply (MoreFacts.parse_structure text md)].
  intros sc [(_ & _ & _ & H & _) _]. exact H.
Qed.

(** X5.  The parser returns at most one dialogue entry per speaker line of
    the input and at most one scene more than there are scene headings. *)
Theorem entries_and_scenes_are_bounded (text : str) (md : metadata) :
  let lines := Py.splitlines text in
  let scenes := parse_friends_script text md in
  (List.length (all_entries scenes) <= speaker_lines lines)%nat
  /\ Z.of_nat (List.length scenes) <= headings lines + 1.
Proof.
  cbv zeta. unfold parse_friends_script.
  destruct (MoreFacts.order_inv_loop md (Py.splitlines text))
    as (Hcnt & Hsc & _ & _).
  destruct (ParseFacts.numbers_inv_loop md (Py.splitlines text))
    as (_ & Hh & _).
  rewrite firstn_all in Hcnt, Hh. rewrite Hh in Hsc.
  rewrite MoreFacts.all_entries_scenes_of, length_app in Hcnt.
  destruct (MoreFacts.finish_flushed md (List.length (Py.splitlines text))
              (parse_loop md (Py.splitlines text)))
    as [-> | (sp & E & ->)].
  - split; lia.
  - unfold pending in Hcnt. rewrite E in Hcnt.
    unfold all_entries in *. rewrite flat_map_app, !length_app. simpl.
    rewrite app_nil_r, length_app. simpl. split; lia.
Qed.

(** X6.  The line numbers recorded in the dialogue entries that the parser
    returns never decrease in the order of emission, and each lies between
    1 and the number of lines of the input. *)
Theorem entry_line_numbers_are_ordered (text : str) (md : metadata) :
  let entries := all_entries (parse_friends_script text md) in
  StronglySorted Z.le (map line_number entries)
  /\ Forall (fun e => 1 <= line_number e
                      <= Z.of_nat (List.length (Py.splitlines text)))
            entries.
Proof.
  cbv zeta. unfold parse_friends_script.
  destruct (MoreFacts.order_inv_loop md (Py.splitlines text))
    as (_ & _ & Hso & Hrg).
  rewrite MoreFacts.all_entries_scenes_of in Hso, Hrg.
  rewrite map_app in Hso. rewrite Forall_app in Hrg. destruct Hrg as [Hr1 Hr2].
  destruct (MoreFacts.finish_flushed md (List.length (Py.splitlines text))
              (parse_loop md (Py.splitlines text)))
    as [-> | (sp & E & ->)].
  - split; [|exact Hr1]. eapply MoreFacts.sorted_le_prefix. exact Hso.
  - unfold all_entries in *. rewrite flat_map_app. simpl.
    rewrite app_nil_r, app_assoc. split.
    + rewrite map_app. simpl. rewrite ParseFacts.make_entry_line_number.
      apply MoreFacts.sorted_le_snoc; [rewrite map_app; exact Hso|].
      rewrite Forall_map, Forall_app. split.
      * eapply Forall_impl; [|exact Hr1]. simpl. intros e. lia.
      * eapply Forall_impl; [|exact Hr2]. simpl. intros e. lia.
    + rewrite !Forall_app. split; [split; assumption|].
      constructor; [|constructor].
      rewrite ParseFacts.make_entry_line_number.
      assert (Hp : (1 <= List.length (Py.splitlines text))%nat).
      { destruct (ParseFacts.entries_inv_loop md (Py.splitlines text))
          as (_ & Hst).
        destruct (Hst sp E) as (start & raw & Hn & _ & Hlt & _). lia. }
      lia.
Qed.

(** X7.  When the statistics are computed, [scene_lengths] holds the
    number of dialogue entries of each scene; for no scene there is no
    longest and no shortest scene; otherwise the longest scene has the
    greatest length and the shortest the least, each with the index of the
    first scene of that length. *)
Theorem extremes_are_first_extreme (data : list scene) (st : statistics) :
  calculate_script_statistics data = Some st ->
  scene_lengths st = map scene_len data
  /\ match data with
     | [] => longest_scene st = None /\ shortest_scene st = None
     | _ :: _ =>
         exists hi lo,
           longest_scene st = Some hi /\ shortest_scene st = Some lo
           /\ first_at (scene_lengths st) (scene_index hi) (extreme_length hi)
           /\ Forall (fun n => n <= extreme_length hi) (scene_lengths st)
           /\ first_at (scene_lengths st) (scene_index lo) (extreme_length lo)
           /\ Forall (fun n => extreme_length lo <= n) (scene_lengths st)
     end.
Proof.
  intros H. apply StatMore.statistics_fields in H.
  destruct H as (_ & Hl & _ & _ & Hhi & Hlo). rewrite Hl.
  split; [reflexivity|]. destruct data as [|sc data]; [auto|].
  cbn [map] in *. set (n := scene_len sc) in *.
  set (ns := map scene_len data) in *.
  destruct (StatMore.maxZ_spec ns n) as (M1 & M2 & M3).
  destruct (StatMore.minZ_spec ns n) as (N1 & N2 & N3).
  eexists. eexists. split; [exact Hhi|]. split; [exact Hlo|].
  cbn [scene_index extreme_length]. split; [|split; [|split]].
  - apply StatMore.index_of_spec. destruct M3 as [-> | M3]; simpl; auto.
  - constructor; assumption.
  - apply StatMore.index_of_spec. destruct N3 as [-> | N3]; simpl; auto.
  - constructor; assumption.
Qed.

Lemma extremes_are_first_extreme_witness :
  scene_lengths scenario_statistics = map scene_len scenario_scenes
  /\ exists hi lo,
       longest_scene scenario_statistics = Some hi
       /\ shortest_scene scenario_statistics = Some lo
       /\ first_at (scene_lengths scenario_statistics)
                   (scene_index hi) (extreme_length hi)
       /\ Forall (fun n => n <= extreme_length hi)
                 (scene_lengths scenario_statistics)
       /\ first_at (scene_lengths scenario_statistics)
                   (scene_index lo) (extreme_length lo)
       /\ Forall (fun n => extreme_length lo <= n)
                 (scene_lengths scenario_statistics).
Proof.
  apply (extremes_are_first_extreme scenario_scenes scenario_statistics).
  vm_compute. reflexivity.
Defined.

(** X8.  When the statistics are computed, [total_scenes] is the number of
    scenes and [total_dialogue_lines] the number of all their dialogue
    entries, which is the sum of [scene_lengths].  The average scene
    length is 0 for no scene, so that nothing is divided by zero, and it
    lies between the length of the shortest scene and the length of the
    longest.  (Python rounds the quotient to the nearest float, which
    keeps these bounds, as they are integers.) *)
Theorem totals_and_average (data : list scene) (st : statistics) :
  calculate_script_statistics data = Some st ->
  total_scenes st = Z.of_nat (List.length data)
  /\ total_dialogue_lines st = Z.of_nat (List.length (all_entries data))
  /\ total_dialogue_lines st = sumZ (scene_lengths st)
  /\ (data = [] -> average_scene_length st = 0%Q)
  /\ forall lo hi,
       shortest_scene st = Some lo -> longest_scene st = Some hi ->
       (inject_Z (extreme_length lo) <= average_scene_length st
        <= inject_Z (extreme_length hi))%Q.
Proof.
  intros H. apply StatMore.statistics_fields in H.
  destruct H as (Hn & Hl & Ht & Ha & Hhi & Hlo).
  split; [exact Hn|]. split; [rewrite Ht; apply StatMore.sum_scene_len|].
  split; [rewrite Ht, Hl; reflexivity|]. split.
  - intros ->. exact Ha.
  - intros lo hi Elo Ehi. rewrite Ha. rewrite Elo in Hlo. rewrite Ehi in Hhi.
    destruct (map scene_len data) as [|n ns] eqn:E; [discriminate|].
    injection Hlo as ->. injection Hhi as ->. cbn [extreme_length].
    destruct (StatMore.maxZ_spec ns n) as (M1 & M2 & _).
    destruct (StatMore.minZ_spec ns n) as (N1 & N2 & _).
    apply StatMore.ratio_bounds; [cbn [List.length]; lia|].
    apply StatMore.sumZ_bounds. constructor; [lia|].
    rewrite Forall_forall in *. intros y Hy.
    specialize (M2 y Hy). specialize (N2 y Hy). lia.
Qed.

Lemma totals_and_average_witness :
  total_scenes scenario_statistics
  = Z.of_nat (List.length scenario_scenes)
  /\ total_dialogue_lines scenario_statistics
     = Z.of_nat (List.length (all_entries scenario_scenes))
  /\ total_dialogue_lines scenario_statistics
     = sumZ (scene_lengths scenario_statistics)
  /\ (scenario_scenes = [] -> average_scene_length scenario_statistics = 0%Q)
  /\ forall lo hi,
       shortest_scene scenario_statistics = Some lo ->
       longest_scene scenario_statistics = Some hi ->
       (inject_Z (extreme_length lo)
        <= average_scene_length scenario_statistics
        <= inject_Z (extreme_length hi))%Q.
Proof.
  apply (totals_and_average scenario_scenes scenario_statistics).
  vm_compute. reflexivity.
Defined.

(** X9.  When the statistics are computed, [character_stats] has exactly
    one record for each unique character, whatever the order of either:
    no name has two records, a name has a record exactly when it is among
    [unique_characters], which is exactly when some scene lists it, and
    there are as many records as unique characters.  Each record counts
    at least one scene, so that its average is always the quotient of its
    lines by its scenes and never the initial 0 left by the guard on
    [scenes_appeared]. *)
Theorem character_stats_cover_unique_characters (data : list scene)
  (st : statistics) :
  calculate_script_statistics data = Some st ->
  NoDup (map fst (character_stats st))
  /\ NoDup (unique_characters st)
  /\ (forall c, In c (map fst (character_stats st))
                <-> In c (unique_characters st))
  /\ (forall c, In c (unique_characters st)
                <-> exists sc, In sc data /\ In c (characters sc))
  /\ List.length (character_stats st) = List.length (unique_characters st)
  /\ Forall (fun kv =>
               1 <= scenes_appeared (snd kv) /\ 0 <= total_lines (snd kv)
               /\ average_lines_per_scene (snd kv)
                  = ratio (total_lines (snd kv)) (scenes_appeared (snd kv)))
            (character_stats st).
Proof.
  intros H. pose proof (StatMore.statistics_unique _ _ H) as Hu.
  apply StatMore.statistics_characters in H. destruct H as [Hk Hok].
  assert (Hn : NoDup (unique_characters st)).
  { rewrite Hu. apply StatMore.unique_nodup. constructor. }
  split; [rewrite Hk; exact Hn|]. split; [exact Hn|].
  split; [intros c; rewrite Hk; tauto|]. split; [|split].
  - intros c. rewrite Hu, ParseFacts.union_in. split.
    + intros [[] | H]. exact H.
    + auto.
  - rewrite <- Hk, length_map. reflexivity.
  - eapply Forall_impl; [|exact Hok]. intros kv [[H1 H2] H3]. auto.
Qed.

Lemma character_stats_cover_unique_characters_witness :
  NoDup (map fst (character_stats scenario_statistics))
  /\ NoDup (unique_characters scenario_statistics)
  /\ (forall c, In c (map fst (character_stats scenario_statistics))
                <-> In c (unique_characters scenario_statistics))
  /\ (forall c, In c (unique_characters scenario_statistics)
                <-> exists sc, In sc scenario_scenes /\ In c (characters sc))
  /\ List.length (character_stats scenario_statistics)
     = List.length (unique_characters scenario_statistics)
  /\ Forall (fun kv =>
               1 <= scenes_appeared (snd kv) /\ 0 <= total_lines (snd kv)
               /\ average_lines_per_scene (snd kv)
                  = ratio (total_lines (snd kv)) (scenes_appeared (snd kv)))
            (character_stats scenario_statistics).
Proof.
  apply (character_stats_cover_unique_characters
           scenario_scenes scenario_statistics).
  vm_compute. reflexivity.
Defined.

(** X10.  The title-scrubber changes nothing but the text of dialogue
    entries: the scenes keep their number, order and every other field,
    the entries their speaker, line number and page number; an entry is
    either unchanged or has another text and is marked as cleaned.  The
    count that is returned lies between 0 and the number of entries, and
    it is 0 exactly when the scenes are returned unchanged. *)
Theorem scrubber_changes_only_the_text (data : list scene)
  (title : option str) :
  let r := clean_episode_title_from_dialogue data title in
  Forall2 scrubbed_scene data (fst r)
  /\ 0 <= snd r <= Z.of_nat (List.length (all_entries data))
  /\ (snd r = 0 <-> fst r = data).
Proof.
  cbv zeta.
  assert (Hid : Forall2 scrubbed_scene data data
                /\ 0 <= 0 <= Z.of_nat (List.length (all_entries data))
                /\ (0 = 0 <-> data = data)).
  { split; [|split; [lia | tauto]].
    apply ScrubMore.Forall2_same. intros sc. unfold scrubbed_scene.
    repeat split; auto. apply ScrubMore.Forall2_same.
    intros e. unfold scrubbed. auto. }
  unfold clean_episode_title_from_dialogue.
  destruct title as [t|]; [|exact Hid].
  destruct (Py.truthy t); [|exact Hid].
  apply (ScrubMore.scrub_scenes_spec t data).
Qed.

(** X11.  With a title that is not empty, every dialogue text that the
    title-scrubber returns is normalised, changed or not: it has no white
    space at its ends, and its only white space is single blanks. *)
Theorem scrubbed_text_is_normalised (data : list scene) (t : str) :
  Py.truthy t = true ->
  Forall (fun e => normalised (line e))
         (all_entries (fst (clean_episode_title_from_dialogue data (Some t)))).
Proof.
  intros H. unfold clean_episode_title_from_dialogue. rewrite H.
  cbn [fst]. unfold all_entries. rewrite map_map.
  apply Forall_forall. intros e He. apply in_flat_map in He.
  destruct He as (sc' & Hsc & He). apply in_map_iff in Hsc.
  destruct Hsc as (sc & <- & _). simpl in He. rewrite map_map in He.
  apply in_map_iff in He. destruct He as (e0 & <- & _).
  rewrite ScrubFacts.scrub_entry_line. apply ScrubMore.scrub_line_normalised.
Qed.

Lemma scrubbed_text_is_normalised_witness :
  Forall (fun e => normalised (line e))
         (all_entries
            (fst (clean_episode_title_from_dialogue
                    [Scene None 1 [s "Ross"]
                       [Entry (s "Ross") (s "We were on   a break The One")
                              3 None false]
                       [] (Some (s "The One")) [] (Some 1)]
                    (Some (s "The One"))))).
Proof.
  apply (scrubbed_text_is_normalised
           [Scene None 1 [s "Ross"]
              [Entry (s "Ross") (s "We were on   a break The One")
                     3 None false]
              [] (Some (s "The One")) [] (Some 1)]
           (s "The One")).
  reflexivity.
Defined.

(** X12.  The numbers of the metadata are in range: a season and an
    episode number read from the file name are not negative, the total of
    pages lies between 0 and 99, and a series episode number is at least 1
    and at least the episode number, with the season between 1 and 10. *)
Theorem metadata_numbers_are_in_range (text pdf_path : str) :
  exists md,
    extract_episode_metadata text pdf_path = Some md
    /\ (forall v, season md = Some v -> 0 <= v)
    /\ (forall v, episode_number md = Some v -> 0 <= v)
    /\ (forall v, total_pages md = Some v -> 0 <= v <= 99)
    /\ (forall v, series_episode_number md = Some v ->
                  exists se ep,
                    season md = Some se /\ episode_number md = Some ep
                    /\ 1 <= se <= 10 /\ 1 <= ep <= v).
Proof.
  unfold extract_episode_metadata.
  destruct (IntFacts.season_int_total (Py.basename pdf_path)) as [se Es].
  destruct (IntFacts.episode_int_total (Py.basename pdf_path)) as [ep Ee].
  destruct (IntFacts.max_page_total _
              (IntFacts.page_tokens_ok (Py.splitlines text))) as [pg Ep].
  rewrite Es, Ee, Ep. cbn [opt_bind]. eexists. split; [reflexivity|].
  cbn [season episode_number total_pages series_episode_number].
  assert (Hse : forall v, se = Some v -> 0 <= v).
  { intros v ->. eapply MetaMore.group_int_nonneg; [|exact Es].
    intros m. apply IntFacts.season_group. }
  assert (Hep : forall v, ep = Some v -> 0 <= v).
  { intros v ->. eapply MetaMore.group_int_nonneg; [|exact Ee].
    intros m. apply IntFacts.episode_group. }
  split; [exact Hse|]. split; [exact Hep|]. split.
  - intros v ->. eapply MetaMore.max_page_range; [|exact Ep].
    apply IntFacts.page_tokens_ok.
  - intros v H. unfold series_number, truthy_int in H.
    destruct se as [a|]; [|discriminate]. destruct ep as [b|];
      [|rewrite andb_false_r in H; discriminate].
    destruct (a =? 0) eqn:Ea; [discriminate|].
    destruct (b =? 0) eqn:Eb; [discriminate|]. cbn [negb andb] in H.
    change (Z.of_nat (List.length season_episodes) - 1) with 10 in H.
    destruct (a <=? 10) eqn:El; [|discriminate]. injection H as <-.
    apply Z.eqb_neq in Ea, Eb. apply Z.leb_le in El.
    pose proof (Hse a eq_refl). pose proof (Hep b eq_refl).
    exists a, b. split; [reflexivity|]. split; [reflexivity|].
    split; [lia|]. split; [lia|].
    assert (Hs : 0 <= sumZ (slice season_episodes 1 (Z.to_nat a))).
    { assert (Hn : (Z.to_nat a <= 10)%nat) by lia.
      destruct (Z.to_nat a) as [|[|[|[|[|[|[|[|[|[|[|k]]]]]]]]]]];
        try (vm_compute; discriminate); lia. }
    lia.
Qed.

(** X13.  Every name in the writers, directors, story and teleplay
    credits of the metadata is clean: it is not empty, holds no "&" and
    has no white space at its ends. *)
Theorem credit_names_are_clean (text pdf_path : str) :
  exists md,
    extract_episode_metadata text pdf_path = Some md
    /\ Forall clean_name (writers md) /\ Forall clean_name (directors md)
    /\ Forall clean_name (story_by md)
    /\ Forall clean_name (teleplay_by md).
Proof.
  unfold extract_episode_metadata.
  destruct (IntFacts.season_int_total (Py.basename pdf_path)) as [se ->].
  destruct (IntFacts.episode_int_total (Py.basename pdf_path)) as [ep ->].
  destruct (IntFacts.max_page_total _
              (IntFacts.page_tokens_ok (Py.splitlines text))) as [pg ->].
  cbn [opt_bind]. eexists. split; [reflexivity|].
  cbn [writers directors story_by teleplay_by].
  split; [|split; [|split]].
  - pose proof (MetaMore.routed_clean is_writer
                  (firstn 10 (Py.splitlines text))) as H.
    destruct (routed is_writer (firstn 10 (Py.splitlines text)));
      [apply MetaMore.transcribed_clean | exact H].
  - apply MetaMore.flat_map_forall. intros r.
    apply MetaMore.credits_of_clean.
  - apply MetaMore.routed_clean.
  - apply MetaMore.routed_clean.
Qed.

(** X14.  The title of the metadata and the result of
    [extract_episode_title] come from the same line: the first of the
    first 50 lines whose trimmed text starts with "the one" in any case.
    [extract_episode_title] returns this trimmed text and the metadata
    hold a title that starts with it; when no such line exists both are
    absent. *)
Theorem titles_come_from_the_same_line (text pdf_path : str) :
  exists md,
    extract_episode_metadata text pdf_path = Some md
    /\ match extract_episode_title text with
       | None =>
           episode_title md = None
           /\ forall i raw,
                (i < 50)%nat -> nth_error (Py.splitlines text) i = Some raw ->
                starts_title raw = false
       | Some t0 =>
           (exists more, episode_title md = Some (t0 ++ more))
           /\ title_at 50 (Py.splitlines text) t0
       end.
Proof.
  unfold extract_episode_metadata, extract_episode_title.
  destruct (IntFacts.season_int_total (Py.basename pdf_path)) as [se ->].
  destruct (IntFacts.episode_int_total (Py.basename pdf_path)) as [ep ->].
  destruct (IntFacts.max_page_total _
              (IntFacts.page_tokens_ok (Py.splitlines text))) as [pg ->].
  cbn [opt_bind]. eexists. split; [reflexivity|]. cbn [episode_title].
  apply MetaMore.titles_scan.
Qed.

(** X15.  [extract_text_from_pdf] returns the texts of the pages one after
    the other with every no-break space (U+00A0) replaced by a blank and
    every other character kept, so that its result holds no no-break
    space. *)
Theorem extracted_text_has_no_nbsp (pages : list str) :
  Forall2 (fun c d => d = if Chr.eqb c (ascii_of_N 160) then " "%char else c)
          (List.concat pages) (extract_text_from_pdf pages)
  /\ ~ In (ascii_of_N 160) (extract_text_from_pdf pages).
Proof.
  unfold extract_text_from_pdf. generalize (List.concat pages). intros x.
  split.
  - induction x as [|c x IH]; simpl; constructor; auto.
  - intros H. apply in_map_iff in H. destruct H as (c & H & _).
    destruct (Chr.eqb c (ascii_of_N 160)) eqn:E; [discriminate H|].
    subst c. unfold Chr.eqb in E. rewrite Ascii.eqb_refl in E. discriminate.
Qed.

(** X16.  Two texts whose lines are the same once trimmed are parsed to
    the same scenes: white space at the ends of a line never matters. *)
Theorem parser_ignores_outer_white_space (text1 text2 : str)
  (md : metadata) :
  map Py.strip (Py.splitlines text1) = map Py.strip (Py.splitlines text2) ->
  parse_friends_script text1 md = parse_friends_script text2 md.
Proof.
  intros H. unfold parse_friends_script, parse_loop.
  rewrite <- (MoreFacts.parse_fold_strip md (Py.splitlines text1)).
  rewrite <- (MoreFacts.parse_fold_strip md (Py.splitlines text2)).
  rewrite <- (length_map Py.strip (Py.splitlines text1)).
  rewrite <- (length_map Py.strip (Py.splitlines text2)).
  rewrite H. reflexivity.
Qed.

Lemma parser_ignores_outer_white_space_witness :
  parse_friends_script
    (s ("   Ross: Hi  " ++ LF ++ "    and more" ++ LF ++ " Joey: Yo  ")%string)
    no_metadata
  = parse_friends_script
      (s ("Ross: Hi" ++ LF ++ "and more" ++ LF ++ "Joey: Yo")%string)
      no_metadata.
Proof.
  apply (parser_ignores_outer_white_space
           (s ("   Ross: Hi  " ++ LF ++ "    and more" ++ LF
               ++ " Joey: Yo  ")%string)
           (s ("Ross: Hi" ++ LF ++ "and more" ++ LF ++ "Joey: Yo")%string)
           no_metadata).
  vm_compute. reflexivity.
Defined.

(** X17.  Without a title, a text that holds no slash is returned trimmed
    and otherwise unchanged, with no page: neither a page marker nor a URL
    can be found in it. *)
Theorem text_without_slash_is_only_trimmed (text : str) :
  existsb (Chr.eqb "/"%char) text = false ->
  clean_line_and_extract_page text None = (Py.strip text, None).
Proof.
  intros H.
  assert (Hs : ~ In "/"%char (Py.strip text)).
  { intros Hin. apply MetaMore.strip_in in Hin.
    assert (E : existsb (Chr.eqb "/"%char) text = true).
    { apply existsb_exists. exists "/"%char. split; [exact Hin|].
      apply Ascii.eqb_refl. }
    congruence. }
  unfold clean_line_and_extract_page.
  rewrite (MoreFacts.search_none_or _ _ _ _
             (MoreFacts.page_has_slash (Py.strip text)) Hs).
  rewrite (ScrubFacts.sub_none _ _ _ _
             (MoreFacts.search_none_or _ _ _ _
                (MoreFacts.url_has_slash (Py.strip text)) Hs)).
  rewrite ScrubFacts.strip_idem. reflexivity.
Qed.

Lemma text_without_slash_is_only_trimmed_witness :
  clean_line_and_extract_page (s "  Could this BE any cooler?  ") None
  = (Py.strip (s "  Could this BE any cooler?  "), None).
Proof.
  apply (text_without_slash_is_only_trimmed
           (s "  Could this BE any cooler?  ")).
  vm_compute. reflexivity.
Defined.

(** X18.  [parse_friends_script_with_metadata] raises no exception,
    whatever the pages and the path.  In its result the statistics count
    the scenes and the dialogue entries of the script that is returned,
    the number of cleaned lines lies between 0 and the number of dialogue
    lines, the number of processed lines is the number of lines of the
    text, and a page range has its start and its end between 0 and 99, in
    this order. *)
Theorem pipeline_never_raises (pages : list str) (pdf_path : str) :
  exists r,
    parse_friends_script_with_metadata pages pdf_path = Some r
    /\ total_scenes (fd_statistics r) = Z.of_nat (List.length (fd_script r))
    /\ total_dialogue_lines (fd_statistics r)
       = Z.of_nat (List.length (all_entries (fd_script r)))
    /\ 0 <= dialogue_lines_cleaned (fd_parsing_info r)
         <= total_dialogue_lines (fd_statistics r)
    /\ total_lines_processed (fd_parsing_info r)
       = Z.of_nat (List.length
                     (Py.splitlines (extract_text_from_pdf pages)))
    /\ forall a b, page_range (fd_statistics r) = Some (a, b) ->
                   0 <= a <= b /\ b <= 99.
Proof.
  unfold parse_friends_script_with_metadata.
  set (text := extract_text_from_pdf pages).
  destruct (StatFacts.run_pipeline_total text pdf_path)
    as (md & st & E & Est & _ & _).
  cbv zeta in Est. unfold run_pipeline. rewrite E. cbn [opt_bind].
  pose proof (ScrubMore.scrubber_bounds
                (parse_friends_script text md) (episode_title md)) as Hs.
  assert (Hp : Forall pages_ok
                 (fst (clean_episode_title_from_dialogue
                         (parse_friends_script text md) (episode_title md)))).
  { apply (StatFacts.scrub_keeps _ StatFacts.scrub_scene_pages).
    apply ParseFacts.parse_scenes_ok. }
  destruct (clean_episode_title_from_dialogue
              (parse_friends_script text md) (episode_title md))
    as [data n].
  cbn [fst snd] in *. rewrite Est. cbn [opt_bind].
  eexists. split; [reflexivity|].
  cbn [fd_statistics fd_script fd_parsing_info dialogue_lines_cleaned
       total_lines_processed].
  destruct (StatMore.statistics_fields _ _ Est) as (H1 & _ & H3 & _).
  rewrite StatMore.sum_scene_len in H3.
  destruct Hs as (Hf & Hn).
  rewrite (PipeMore.Forall2_length_entries _ _ Hf) in H3.
  split; [exact H1|]. split.
  - rewrite H3. rewrite (PipeMore.Forall2_length_entries _ _ Hf).
    reflexivity.
  - split; [rewrite H3; exact Hn|]. split; [reflexivity|].
    intros a b. apply (PipeMore.statistics_page_range data st a b Hp Est).
Qed.

(** X19.  Let every speaker of a scene be among the characters of this
    scene.  Then the record that [calculate_script_statistics] keeps for a
    character counts exactly: its [total_lines] is the number of the
    dialogue entries of all the scenes that the character speaks, and its
    [scenes_appeared] the number of times the character is listed among
    the characters of the scenes. *)
Theorem character_counts_are_exact (data : list scene) (st : statistics) :
  forallb speakers_listed data = true ->
  calculate_script_statistics data = Some st ->
  Forall (fun kv =>
            total_lines (snd kv) = spoken_by (fst kv) (all_entries data)
            /\ scenes_appeared (snd kv)
               = listed (fst kv) (flat_map characters data))
         (character_stats st).
Proof.
  intros Hl Hst. destruct (StatMore.statistics_counts _ _ Hl Hst) as (H & _).
  exact H.
Qed.

Lemma character_counts_are_exact_witness :
  Forall (fun kv =>
            total_lines (snd kv)
            = spoken_by (fst kv) (all_entries scenario_scenes)
            /\ scenes_appeared (snd kv)
               = listed (fst kv) (flat_map characters scenario_scenes))
         (character_stats scenario_statistics).
Proof.
  apply (character_counts_are_exact scenario_scenes scenario_statistics).
  - vm_compute. reflexivity.
  - vm_compute. reflexivity.
Defined.

(** X20.  Let every speaker of a scene be among the characters of this
    scene.  Then the [total_lines] of the records of [character_stats] add
    up to [total_dialogue_lines]: every dialogue line is counted for
    exactly one character. *)
Theorem character_lines_add_up (data : list scene) (st : statistics) :
  forallb speakers_listed data = true ->
  calculate_script_statistics data = Some st ->
  sumZ (map (fun kv => total_lines (snd kv)) (character_stats st))
  = total_dialogue_lines st.
Proof. apply StatMore.statistics_sum. Qed.

Lemma character_lines_add_up_witness :
  sumZ (map (fun kv => total_lines (snd kv))
            (character_stats scenario_statistics))
  = total_dialogue_lines scenario_statistics.
Proof.
  apply (character_lines_add_up scenario_scenes scenario_statistics).
  - vm_compute. reflexivity.
  - vm_compute. reflexivity.
Defined.

(** X21.  In the result of [parse_friends_script_with_metadata] the
    statistics of every character agree with the script that is returned:
    [total_lines] is the number of its dialogue entries that the character
    speaks, [scenes_appeared] the number of its scenes that list the
    character, and the lines of all the characters add up to
    [total_dialogue_lines]. *)
Theorem pipeline_statistics_match_script (pages : list str) (pdf_path : str) :
  exists r,
    parse_friends_script_with_metadata pages pdf_path = Some r
    /\ Forall (fun kv =>
                 total_lines (snd kv)
                 = spoken_by (fst kv) (all_entries (fd_script r))
                 /\ scenes_appeared (snd kv)
                    = scenes_listing (fst kv) (fd_script r))
              (character_stats (fd_statistics r))
    /\ sumZ (map (fun kv => total_lines (snd kv))
                 (character_stats (fd_statistics r)))
       = total_dialogue_lines (fd_statistics r).
Proof.
  unfold parse_friends_script_with_metadata.
  set (text := extract_text_from_pdf pages).
  destruct (StatFacts.run_pipeline_total text pdf_path)
    as (md & st & E & Est & Hs & info & Er).
  cbv zeta in Est, Hs, Er. rewrite Er.
  eexists. split; [reflexivity|]. cbn [fd_statistics fd_script].
  pose proof (PipeMore.speakers_in_listed _ Hs) as Hl.
  assert (Hn : Forall (fun sc => NoDup (characters sc))
                 (fst (clean_episode_title_from_dialogue
                         (parse_friends_script text md) (episode_title md)))).
  { apply (StatFacts.scrub_keeps _ PipeMore.scrub_scene_characters).
    apply PipeMore.parse_characters_nodup. }
  split; [|exact (StatMore.statistics_sum _ _ Hl Est)].
  destruct (StatMore.statistics_counts _ _ Hl Est) as (H & _).
  eapply Forall_impl; [|exact H]. intros kv [H1 H2].
  split; [exact H1|]. rewrite H2. apply PipeMore.listed_scenes, Hn.
Qed.

(** X22.  [clean_line_and_extract_page] returns the page [p] exactly when
    [p] is a page marker (one or two digits, a slash, one or two digits)
    that ends the trimmed text and starts at a word boundary, that is, the
    character before it, if there is one, is no word character.  So a
    marker at the end of a line is never missed, and nothing else is ever
    returned as a page. *)
Theorem page_is_the_marker_at_the_end (text : str) (title : option str)
  (p : str) :
  snd (clean_line_and_extract_page text title) = Some p
  <-> is_page_token p
      /\ exists before, Py.strip text = before ++ p
                        /\ Re.word_at (rev before) = false.
Proof.
  split; [apply ReMore.clean_line_page_boundary|].
  intros (T & before & Hx & Hb).
  pose proof (ReMore.trailing_page_found before p T Hb) as Hf. rewrite <- Hx in Hf.
  destruct (snd (clean_line_and_extract_page text title)) as [q|] eqn:E.
  - destruct (ReMore.clean_line_page_boundary _ _ _ E) as (T' & before' & Hx' & Hb').
    f_equal. rewrite Hx in Hx'.
    symmetry. exact (ReMore.token_suffix_unique _ _ _ _ T T' Hx' Hb Hb').
  - exfalso. unfold clean_line_and_extract_page in E.
    destruct (Re.search false Pat.trailing_page (Py.strip text)) as [m|] eqn:Es;
      [|congruence].
    apply ReMore.trailing_page_boundary in Es.
    destruct Es as (b0 & tok & sp & _ & _ & _ & G2 & _).
    rewrite G2 in E. discriminate E.
Qed.

(** X23.  The speaker lines of the parser are the lines whose trimmed text
    is a capitalised word (a letter A-Z, then one or more letters a-z), a
    colon and a rest, and that are not skipped as noise; the word is the
    speaker.  After such a line the speaker is this word and the buffer is
    the rest of the line, without its leading white space and up to its
    first newline; the speaker is among the characters of the open scene,
    which keeps the characters it had; if a speaker with a buffer that is
    not empty was pending, the open scene has one more dialogue entry, of
    that speaker, with the cleaned buffer as its text, the number of the
    present line and the page of the buffer, which is also among the pages
    of the scene; nothing else changes. *)
Theorem speaker_lines_are_name_colon_lines :
  (forall raw name,
     speaker_line raw = Some name
     <-> is_noise (Py.strip raw) = false /\ cap_word name = true
         /\ exists rest, Py.strip raw = name ++ ":"%char :: rest)
  /\ forall md st i raw name rest,
       is_noise (Py.strip raw) = false -> cap_word name = true ->
       Py.strip raw = name ++ ":"%char :: rest ->
       after_speaker_line md st i name (first_line (Py.lstrip rest))
                          (parse_line md st (i, raw)).
Proof.
  split.
  - intros raw name. unfold speaker_line. split.
    + destruct (classify (Py.strip raw)) as [| | |n text|] eqn:K;
        try discriminate.
      intros H. injection H as ->.
      split; [exact (SpeakerMore.classify_speaker_not_noise _ _ _ K)|].
      exact (MoreFacts.classify_speaker _ _ _ K).
    + intros (Hn & Hc & rest & E). rewrite E in Hn |- *.
      rewrite (SpeakerMore.classify_name_colon _ _ Hc Hn). reflexivity.
  - intros md st i raw name rest Hn Hc E.
    rewrite ParseFacts.parse_line_cases. cbv zeta. rewrite E in Hn |- *.
    rewrite (SpeakerMore.classify_name_colon _ _ Hc Hn).
    unfold after_speaker_line. cbv zeta.
    cbn [current_speaker buffer script_data scene_counter current_scene].
    unfold add_character, flush, make_entry.
    destruct (clean_line_and_extract_page (Py.strip (buffer st))
                                          (episode_title md)) as [cl pg].
    cbn [fst snd].
    assert (Hin : forall l c, In c (Py.set_add name l) <-> c = name \/ In c l).
    { intros l c. apply ParseFacts.set_add_in. }
    destruct (current_speaker st) as [sp|]; cbn [Py.truthy_opt andb].
    + destruct (Py.truthy sp && Py.truthy (buffer st)) eqn:Ep.
      * unfold add_entry.
        cbn [characters scene_name scene_number scene_title
             stage_directions line_number_start dialogue page_numbers
             page_number].
        repeat (split; [solve [reflexivity | apply Hin]|]).
        intros p. destruct (Py.truthy_opt pg) eqn:Et.
        -- destruct pg as [q|]; [|discriminate Et].
           rewrite ParseFacts.set_add_in. split.
           ++ intros [-> | H]; auto.
           ++ intros [H | (_ & _ & H)]; [auto | injection H as ->; auto].
        -- split; [auto | intros [H | (_ & H & _)]; [exact H | discriminate]].
      * cbn [characters scene_name scene_number scene_title
             stage_directions line_number_start dialogue page_numbers].
        rewrite app_nil_r.
        repeat (split; [solve [reflexivity | apply Hin]|]).
        intros p. split; [auto | intros [H | (H & _)]; [exact H | discriminate]].
    + cbn [characters scene_name scene_number scene_title
           stage_directions line_number_start dialogue page_numbers].
      rewrite app_nil_r.
      repeat (split; [solve [reflexivity | apply Hin]|]).
      intros p. split; [auto | intros [H | (H & _)]; [exact H | discriminate]].
Qed.

Lemma speaker_lines_are_name_colon_lines_witness :
  let st := PState []
              (Scene (Some (s "Central Perk")) 1 [s "Ross"] [] [] None []
                     (Some 2))
              (Some (s "Ross")) (s "Hi guys! 1/22") 1 in
  let st' := parse_line no_metadata st
               (3%nat, s "  Chandler:   Could this BE any cooler? ") in
  after_speaker_line no_metadata st 3 (s "Chandler")
                     (s "Could this BE any cooler?") st'
  /\ dialogue (current_scene st')
     = [Entry (s "Ross") (s "Hi guys!") 4 (Some (s "1/22")) false]
  /\ characters (current_scene st') = [s "Ross"; s "Chandler"]
  /\ page_numbers (current_scene st') = [s "1/22"].
Proof.
  split; [|vm_compute; auto].
  apply (proj2 speaker_lines_are_name_colon_lines
           no_metadata
           (PState []
              (Scene (Some (s "Central Perk")) 1 [s "Ross"] [] [] None []
                     (Some 2))
              (Some (s "Ross")) (s "Hi guys! 1/22") 1)
           3%nat (s "  Chandler:   Could this BE any cooler? ")
           (s "Chandler") (s "   Could this BE any cooler?")).
  - vm_compute. reflexivity.
  - vm_compute. reflexivity.
  - vm_compute. reflexivity.
Defined.

(** X24.  On a line whose trimmed text starts with "[Scene:" and that is
    not skipped as noise, [parse_friends_script] sets aside the open scene
    if it holds a dialogue entry or a stage direction, and opens a scene
    that has the next scene number, the number of the line as its start,
    the episode title, and no characters, dialogue, pages or stage
    directions; the speaker and the buffer are reset without a flush.  The
    name of the new scene is the text between the white space that
    follows "[Scene:" and the first closing bracket, when no newline
    stands before this bracket; a heading without a closing bracket opens
    a scene without a name. *)
Theorem scene_name_is_text_before_bracket :
  (forall md st i raw x name rest,
     Py.strip raw = s "[Scene:" ++ x ->
     is_noise (Py.strip raw) = false ->
     Py.lstrip x = name ++ "]"%char :: rest -> plain_name name = true ->
     after_heading_line md st i (Some name) (parse_line md st (i, raw)))
  /\ forall md st i raw x,
       Py.strip raw = s "[Scene:" ++ x ->
       is_noise (Py.strip raw) = false ->
       existsb (Chr.eqb "]"%char) (Py.strip raw) = false ->
       after_heading_line md st i None (parse_line md st (i, raw)).
Proof.
  split.
  - intros md st i raw x name rest E Hn Hx Hp.
    rewrite ParseFacts.parse_line_cases. cbv zeta. rewrite E in Hn |- *.
    rewrite (HeadingMore.classify_scene_heading _ Hn).
    destruct (HeadingMore.heading_match x name rest Hx Hp) as (m & -> & ->).
    unfold after_heading_line, after_heading, new_scene.
    cbn [current_speaker buffer script_data scene_counter current_scene].
    auto 6.
  - intros md st i raw x E Hn Hb.
    rewrite ParseFacts.parse_line_cases. cbv zeta. rewrite E in Hn, Hb |- *.
    rewrite (HeadingMore.classify_scene_heading _ Hn).
    rewrite HeadingMore.heading_without_bracket.
    + unfold after_heading_line, after_heading, new_scene.
      cbn [current_speaker buffer script_data scene_counter current_scene].
      auto 6.
    + intros Hin.
      assert (Ht : existsb (Chr.eqb "]"%char) (s "[Scene:" ++ x) = true).
      { apply existsb_exists. exists "]"%char. split; [exact Hin|].
        apply Ascii.eqb_refl. }
      congruence.
Qed.

Lemma scene_name_is_text_before_bracket_witness :
  let st := PState []
              (Scene (Some (s "Central Perk")) 1 [s "Ross"]
                 [Entry (s "Ross") (s "Hi guys!") 4 (Some (s "1/22")) false]
                 [s "1/22"] None [] (Some 2))
              (Some (s "Chandler")) (s "Could this BE any cooler?") 1 in
  (after_heading_line no_metadata st 4
     (Some (s "Monica's apartment"))
     (parse_line no_metadata st
        (4%nat, s " [Scene:  Monica's apartment] (later)"))
   /\ after_heading_line no_metadata st 4 None
        (parse_line no_metadata st (4%nat, s "[Scene: Monica's apartment")))
  /\ current_scene (parse_line no_metadata st
                      (4%nat, s " [Scene:  Monica's apartment] (later)"))
     = Scene (Some (s "Monica's apartment")) 2 [] [] [] None [] (Some 5)
  /\ List.length (script_data
                    (parse_line no_metadata st
                       (4%nat, s " [Scene:  Monica's apartment] (later)")))
     = 1%nat.
Proof.
  split; [split|vm_compute; auto].
  - apply (proj1 scene_name_is_text_before_bracket
             no_metadata
             (PState []
                (Scene (Some (s "Central Perk")) 1 [s "Ross"]
                   [Entry (s "Ross") (s "Hi guys!") 4 (Some (s "1/22")) false]
                   [s "1/22"] None [] (Some 2))
                (Some (s "Chandler")) (s "Could this BE any cooler?") 1)
             4%nat (s " [Scene:  Monica's apartment] (later)")
             (s "  Monica's apartment] (later)")
             (s "Monica's apartment") (s " (later)"));
      vm_compute; reflexivity.
  - apply (proj2 scene_name_is_text_before_bracket
             no_metadata
             (PState []
                (Scene (Some (s "Central Perk")) 1 [s "Ross"]
                   [Entry (s "Ross") (s "Hi guys!") 4 (Some (s "1/22")) false]
                   [s "1/22"] None [] (Some 2))
                (Some (s "Chandler")) (s "Could this BE any cooler?") 1)
             4%nat (s "[Scene: Monica's apartment") (s " Monica's apartment"));
      vm_compute; reflexivity.
Defined.
